(** * claude-pilot: installer steps, rule assembly, migration and hooks

    A shallow embedding of the parts of the repository that its
    specification makes statements about, followed by the statements
    themselves.

    Conventions of the embedding.
    - A Python [str] is a Rocq [string]; every character is a code point
      below 256.  The character classes below ([isspace], [\s], [\w],
      [\d], line boundaries, case mapping) are the ones CPython uses on
      that range.
    - A [dict] with string keys is a [gmap string _]; [{**a, **b}] is the
      left-biased union [b ∪ a].
    - Code that raises returns a [result]; code that touches the file
      system or starts processes threads an explicit state.
    - Library calls whose result depends on the outside world ([json.load]
      on a stream, [tokenize], [shutil.which], [subprocess.run]) are
      inputs of the embedded function: the function is given what the
      call returned. *)

From Stdlib Require Import ZArith Ascii String.
From stdpp Require Import gmap strings list sorting fin_maps pretty.

Local Open Scope string_scope.
Local Open Scope Z_scope.
Local Open Scope list_scope.

(** ** Python string primitives *)

Module PyStr.

Definition code (a : ascii) : N := N_of_ascii a.

Definition in_range (lo hi : N) (a : ascii) : bool :=
  ((lo <=? code a) && (code a <=? hi))%N.

(** [str.isspace] on one character; also the class [\s] of [re]. *)
Definition isspace (a : ascii) : bool :=
  in_range 9 13 a || in_range 28 32 a
  || (code a =? 133)%N || (code a =? 160)%N.

(** The class [\d] of [re]. *)
Definition isdigit (a : ascii) : bool := in_range 48 57 a.

Definition isupper_ascii (a : ascii) : bool := in_range 65 90 a.
Definition islower_ascii (a : ascii) : bool := in_range 97 122 a.

(** The class [\w] of [re] on a [str] pattern. *)
Definition isword (a : ascii) : bool :=
  isdigit a || isupper_ascii a || islower_ascii a || (code a =? 95)%N
  || (code a =? 170)%N || in_range 178 179 a || (code a =? 181)%N
  || in_range 185 186 a || in_range 188 190 a
  || in_range 192 214 a || in_range 216 246 a || in_range 248 255 a.

(** [str.lower] on one character: [A-Z] and the Latin-1 capitals. *)
Definition lower_char (a : ascii) : ascii :=
  if isupper_ascii a || in_range 192 214 a || in_range 216 222 a
  then ascii_of_N (code a + 32) else a.

(** [str.upper] on one character.  The three characters below 256 whose
    upper case leaves the range (181, 223, 255) are left as they are:
    neither they nor their upper case occur in a string of ASCII
    capitals, which is the only thing [upper] is compared with. *)
Definition upper_char (a : ascii) : ascii :=
  if islower_ascii a || in_range 224 246 a || in_range 248 254 a
  then ascii_of_N (code a - 32) else a.

Fixpoint map_chars (f : ascii → ascii) (s : string) : string :=
  match s with
  | EmptyString => EmptyString
  | String a s' => String (f a) (map_chars f s')
  end.

Definition lower : string → string := map_chars lower_char.
Definition upper : string → string := map_chars upper_char.

Fixpoint lstrip (s : string) : string :=
  match s with
  | String a s' => if isspace a then lstrip s' else s
  | EmptyString => EmptyString
  end.

(** [rstrip]: a character is kept when it is not white space or when
    something is kept after it. *)
Fixpoint rstrip (s : string) : string :=
  match s with
  | EmptyString => EmptyString
  | String a s' =>
      match rstrip s' with
      | EmptyString => if isspace a then EmptyString else String a EmptyString
      | r => String a r
      end
  end.

Definition strip (s : string) : string := lstrip (rstrip s).

(** [s[:n]] *)
Fixpoint take (n : nat) (s : string) : string :=
  match n, s with
  | S n', String a s' => String a (take n' s')
  | _, _ => EmptyString
  end.

(** [s[n:]] *)
Fixpoint drop (n : nat) (s : string) : string :=
  match n, s with
  | S n', String _ s' => drop n' s'
  | _, _ => s
  end.

Definition startswith (p s : string) : bool := String.prefix p s.

Definition endswith (p s : string) : bool :=
  String.eqb (drop (String.length s - String.length p) s) p
  && (String.length p <=? String.length s)%nat.

(** [needle in hay] for two strings. *)
Fixpoint contains (needle hay : string) : bool :=
  String.prefix needle hay
  || match hay with
     | EmptyString => false
     | String _ hay' => contains needle hay'
     end.

(** [sep.join(parts)] *)
Definition join (sep : string) (parts : list string) : string :=
  String.concat sep parts.

(** A line boundary of [str.splitlines]. *)
Definition islinebreak (a : ascii) : bool :=
  in_range 10 13 a || in_range 28 30 a || (code a =? 133)%N.

(** [s.splitlines(keepends=True)].  [cur] is the current line, reversed.
    A carriage return directly followed by a line feed is one
    boundary. *)
Fixpoint splitlines_go (cur : list ascii) (s : string) : list string :=
  match s with
  | EmptyString =>
      match cur with
      | [] => []
      | _ => [string_of_list_ascii (rev cur)]
      end
  | String a s' =>
      if islinebreak a then
        match s' with
        | String b s'' =>
            if (code a =? 13)%N && (code b =? 10)%N
            then string_of_list_ascii (rev (b :: a :: cur)) :: splitlines_go [] s''
            else string_of_list_ascii (rev (a :: cur)) :: splitlines_go [] s'
        | EmptyString => [string_of_list_ascii (rev (a :: cur))]
        end
      else splitlines_go (a :: cur) s'
  end.

Definition splitlines_keepends (s : string) : list string := splitlines_go [] s.

(** [s.splitlines()]: the same lines without their boundary. *)
Definition chomp (line : string) : string :=
  let n := String.length line in
  if endswith (String "013" (String "010" EmptyString)) line then take (n - 2) line
  else match String.get (n - 1) line with
       | Some a => if islinebreak a then take (n - 1) line else line
       | None => line
       end.

Definition splitlines (s : string) : list string := chomp <$> splitlines_keepends s.

End PyStr.

(** ** Exceptions and results *)

Inductive exn : Set :=
  | JSONDecodeError
  | UnicodeDecodeError
  | AttributeError
  | TypeError
  | TokenError
  | IndentationError
  | FileNotFoundError
  | FileExistsError
  | NotADirectoryError
  | IsADirectoryError
  | CalledProcessError
  | EOFError
  | SystemExit (status : Z).

Global Instance exn_eq_dec : EqDecision exn.
Proof. solve_decision. Defined.

(** [isinstance(e, OSError)] *)
Definition is_OSError (e : exn) : bool :=
  match e with
  | FileNotFoundError | FileExistsError | NotADirectoryError | IsADirectoryError => true
  | _ => false
  end.

(** [isinstance(e, Exception)]: [SystemExit] derives from
    [BaseException] only. *)
Definition is_Exception (e : exn) : bool :=
  match e with
  | SystemExit _ => false
  | _ => true
  end.

Inductive result (A : Type) : Type :=
  | Ok (a : A)
  | Raise (e : exn).
Global Arguments Ok {A} a.
Global Arguments Raise {A} e.

Global Instance result_ret : MRet result := λ A, @Ok A.
Global Instance result_bind : MBind result := λ A B f r,
  match r with
  | Ok a => f a
  | Raise e => Raise e
  end.

Definition returns {A} (r : result A) : Prop := ∃ a, r = Ok a.

(** ** JSON values, as [json.load] builds them

    Numbers are integers; a floating-point number has no counterpart
    here. *)

#[warnings="-register-all"]
Inductive json :=
  | JNull
  | JBool (b : bool)
  | JInt (z : Z)
  | JStr (s : string)
  | JArr (l : list json)
  | JObj (m : gmap string json).

Module Json.

(** [bool(v)] *)
Definition truthy (v : json) : bool :=
  match v with
  | JNull => false
  | JBool b => b
  | JInt z => negb (z =? 0)
  | JStr s => negb (String.eqb s "")
  | JArr l => match l with [] => false | _ => true end
  | JObj m => negb (size m =? 0)%nat
  end.

(** [v.get(key, default)]: only a [dict] has the method. *)
Definition get (v : json) (key : string) (dflt : json) : result json :=
  match v with
  | JObj m => Ok (default dflt (m !! key))
  | _ => Raise AttributeError
  end.

Definition is_str (v : json) : bool :=
  match v with JStr _ => true | _ => false end.

Definition is_obj (v : json) : bool :=
  match v with JObj _ => true | _ => false end.

End Json.


(** ** Rule assembly *)

Module Rules.

(** Modelled from the spec: what reading one rule file gives; "a file
    that cannot be read is skipped with a warning". *)
Inductive read_result :=
  | ReadOk (text : string)
  | ReadError.

(** Modelled from the spec: a rules source directory as its iteration
    yields it, file names with what reading each file gives. *)
Definition listing := list (string * read_result).

(** Modelled from the spec: the [*.md] files are the rule files. *)
Definition is_md (name : string) : bool := PyStr.endswith ".md" name.

(** Modelled from the spec: the stem of a [*.md] file name, by which a
    rule is identified. *)
Definition stem (name : string) : string :=
  PyStr.take (String.length name - 3) name.

(** Modelled from the spec: the rule, stem and content, that a
    directory entry gives. *)
Definition rule_of_entry (e : string * read_result) : option (string * string) :=
  if is_md e.1 then
    match e.2 with
    | ReadOk text => Some (stem e.1, text)
    | ReadError => None
    end
  else None.

(** Modelled from the spec: "ordering is alphabetical by stem", the
    lexicographic order of the stems. *)
Definition by_stem (r1 r2 : string * string) : Prop := String.le r1.1 r2.1.

Global Instance by_stem_dec : RelDecision by_stem :=
  λ r1 r2, decide (String.le r1.1 r2.1).

(** Modelled from the spec: [load_rules] of [.claude/rules/build.py],
    which is not among the sources.  "Load all [*.md] files [...]
    keyed by filename stem, sorted alphabetically"; "a file that cannot
    be read is skipped with a warning". *)
Definition load_rules (dir : listing) : list (string * string) :=
  merge_sort by_stem (omap rule_of_entry dir).

(** Modelled from the spec: the generated document, block by block.
    [Divider] is the horizontal-rule line. *)
Inductive block :=
  | Header (title : string)
  | Rule (text : string)
  | Divider.

Global Instance block_eq_dec : EqDecision block.
Proof. solve_decision. Defined.

(** Modelled from the spec: a rule's content,
    "trailing-whitespace-stripped". *)
Definition rule_block (r : string * string) : block := Rule (PyStr.rstrip r.2).

(** Modelled from the spec: each rule's content with the divider that
    closes it. *)
Fixpoint rule_blocks (rules : list (string * string)) : list block :=
  match rules with
  | [] => []
  | r :: rules' => rule_block r :: Divider :: rule_blocks rules'
  end.

(** Modelled from the spec: [build_claude_md] and
    [build_claude_local_md] of [build.py], which is not among the
    sources.  "A fixed header followed by each [...] rule's content
    (trailing-whitespace-stripped) separated by a horizontal-rule
    divider."  The unit tests of the builder count one divider for the
    header and one for each rule: the header ends in a divider and so
    does each rule. *)
Definition assemble (title : string) (rules : list (string * string)) : list block :=
  Header title :: Divider :: rule_blocks rules.

(** Modelled from the spec: [CLAUDE.md], from the standard rules. *)
Definition build_claude_md (standard : listing) : list block :=
  assemble "Claude CodePro Rules" (load_rules standard).

(** Modelled from the spec: [CLAUDE.local.md], from the custom rules. *)
Definition build_claude_local_md (custom : listing) : list block :=
  assemble "Custom Rules" (load_rules custom).

(** What the document has strictly between positions [i] and [j]. *)
Definition between {A} (i j : nat) (doc : list A) : list A :=
  take (j - i - 1) (drop (S i) doc).

End Rules.

(** ** Installer preferences ([~/.pilot/config.json]) *)

Module Config.

Section with_keys.

(** Modelled from the spec: the allow-list of [installer/config.py];
    the spec does not spell out its members. *)
Variable VALID_CONFIG_KEYS : gset string.

(** Modelled from the spec: the filter that load and save apply. *)
Definition keep_valid (m : gmap string json) : gmap string json :=
  filter (λ kv, kv.1 ∈ VALID_CONFIG_KEYS) m.

(** Modelled from the spec: the file [~/.pilot/config.json], absent or
    holding a flat mapping. *)
Definition disk := option (gmap string json).

(** Modelled from the spec: [save_config] of [installer/config.py],
    which is not among the sources.  "Both load and save silently
    drop any key outside that set." *)
Definition save_config (config : gmap string json) (d : disk) : disk :=
  Some (keep_valid config).

(** Modelled from the spec: [load_config] of [installer/config.py],
    which is not among the sources. *)
Definition load_config (d : disk) : gmap string json :=
  match d with
  | Some m => keep_valid m
  | None => ∅
  end.

End with_keys.

End Config.

(** ** The file-checker entry point *)

Module FileChecker.

(** [name.rfind(".")] *)
Fixpoint rfind_dot (i : nat) (s : string) : option nat :=
  match s with
  | EmptyString => None
  | String a s' =>
      match rfind_dot (S i) s' with
      | Some j => Some j
      | None => if Ascii.eqb a "." then Some i else None
      end
  end.

(** [Path.suffix] of a file name. *)
Definition suffix (name : string) : string :=
  match rfind_dot 0 name with
  | Some i =>
      if ((0 <? i) && (i <? String.length name - 1))%nat
      then PyStr.drop i name else ""
  | None => ""
  end.

(** Modelled from the spec: the edited file that the hook reads from
    its input, and whether it exists. *)
Record edited_file := {
  file_name : string;
  file_exists : bool
}.

(** Modelled from the spec: a per-language checker, "returning a
    numeric status and a human-readable reason string". *)
Definition checker := edited_file → Z * string.

(** Modelled from the spec: the decision object
    [{"decision": "block", "reason": reason}]. *)
Definition block_decision (reason : string) : json :=
  JObj (<["decision" := JStr "block"]> (<["reason" := JStr reason]> ∅)).

(** Modelled from the spec: [main] of [pilot/hooks/file_checker.py],
    which is not among the sources.  "A pure lookup by file extension
    dispatches an edited file path to one of several per-language
    checker functions"; the hook "may write a JSON decision object
    ([{"decision": "block", "reason": "..."}] or [{}]) to standard
    output".  The result is what is written to standard output, one
    JSON value per line; the spec leaves the exit status open. *)
Definition main (registry : gmap string checker) (edited : option edited_file)
    : list json :=
  match edited with
  | None => []
  | Some f =>
      if negb (file_exists f) then []
      else
        match registry !! suffix (file_name f) with
        | None => []
        | Some check =>
            let '(_, reason) := check f in
            if negb (String.eqb reason "") then [block_decision reason]
            else [JObj ∅]
        end
  end.

End FileChecker.

(** ** A file system

    A tree of directories and files.  A path is the list of its
    components below the root of the tree. *)

Module FS.

Definition path := list string.

#[warnings="-register-all"]
Inductive node :=
  | File (content : string)
  | Dir (entries : gmap string node).

Fixpoint lookup (p : path) (n : node) : option node :=
  match p with
  | [] => Some n
  | c :: p' =>
      match n with
      | Dir es => es !! c ≫= lookup p'
      | File _ => None
      end
  end.

(** [Path.exists] *)
Definition exists_ (p : path) (root : node) : bool :=
  match lookup p root with
  | Some _ => true
  | None => false
  end.

(** [Path.is_dir] *)
Definition is_dir (p : path) (root : node) : bool :=
  match lookup p root with
  | Some (Dir _) => true
  | _ => false
  end.

Definition parent (p : path) : path := removelast p.

(** The tree without what [p] names. *)
Fixpoint remove (p : path) (n : node) : node :=
  match p with
  | [] => n
  | c :: p' =>
      match n with
      | File _ => n
      | Dir es =>
          match p' with
          | [] => Dir (delete c es)
          | _ => Dir (alter (remove p') c es)
          end
      end
  end.

(** The tree with [v] at [p]; missing directories on the way are
    created, a file on the way is an error. *)
Fixpoint put (p : path) (v : node) (n : node) : result node :=
  match p with
  | [] => Ok v
  | c :: p' =>
      match n with
      | File _ => Raise NotADirectoryError
      | Dir es =>
          sub ← put p' v (default (Dir ∅) (es !! c));
          Ok (Dir (<[c := sub]> es))
      end
  end.

(** [Path.mkdir(parents=True, exist_ok=True)] *)
Fixpoint mkdir_p (p : path) (n : node) : result node :=
  match n with
  | File _ =>
      match p with
      | [] => Raise FileExistsError
      | _ => Raise NotADirectoryError
      end
  | Dir es =>
      match p with
      | [] => Ok n
      | c :: p' =>
          sub ← mkdir_p p' (default (Dir ∅) (es !! c));
          Ok (Dir (<[c := sub]> es))
      end
  end.

(** The names in a directory; a file has none. *)
Definition names (p : path) (root : node) : list string :=
  match lookup p root with
  | Some (Dir es) => (map_to_list es).*1
  | _ => []
  end.

(** [shutil.copytree(src, dst)]; [dst] is not inside [src]. *)
Definition copytree (src dst : path) (root : node) : result node :=
  match lookup src root with
  | None => Raise FileNotFoundError
  | Some (File _) => Raise NotADirectoryError
  | Some (Dir es) =>
      if exists_ dst root then Raise FileExistsError
      else put dst (Dir es) root
  end.

(** [shutil.rmtree] *)
Definition rmtree (p : path) (root : node) : result node :=
  match lookup p root with
  | None => Raise FileNotFoundError
  | Some (File _) => Raise NotADirectoryError
  | Some (Dir _) => Ok (remove p root)
  end.

(** [Path.unlink] *)
Definition unlink (p : path) (root : node) : result node :=
  match lookup p root with
  | None => Raise FileNotFoundError
  | Some (Dir _) => Raise IsADirectoryError
  | Some (File _) => Ok (remove p root)
  end.

(** [shutil.move(src, dst)] where [dst] does not exist: a rename. *)
Definition move (src dst : path) (root : node) : result node :=
  match lookup src root with
  | None => Raise FileNotFoundError
  | Some x =>
      if is_dir (parent dst) root then put dst x (remove src root)
      else Raise FileNotFoundError
  end.

(** Neither path leads to the other. *)
Definition apart (p q : path) : Prop := ¬ p `prefix_of` q ∧ ¬ q `prefix_of` p.

(** [path / name] *)
Definition child (p : path) (c : string) : path := (p ++ [c])%list.

(** [str(path)] *)
Definition str (p : path) : string := PyStr.join "/" p.

Fixpoint split_go (cur : list ascii) (s : string) : list string :=
  match s with
  | EmptyString => [string_of_list_ascii (rev cur)]
  | String a s' =>
      if Ascii.eqb a "/" then string_of_list_ascii (rev cur) :: split_go [] s'
      else split_go (a :: cur) s'
  end.

(** [Path(s)] for a string that [str] produced. *)
Definition of_str (s : string) : path := split_go [] s.

End FS.

Infix "</>" := FS.child (at level 40, left associativity).

(** ** Console output *)

Inductive output :=
  | Print (msg : string)
  | Status (msg : string)
  | Success (msg : string)
  | Warning (msg : string)
  | Error (msg : string)
  | Section_ (msg : string)
  | Spinner (msg : string).

Global Instance output_eq_dec : EqDecision output.
Proof. solve_decision. Defined.

(** ** The install context *)

Inductive pyval :=
  | VBool (b : bool)
  | VStr (s : string)
  | VList (l : list string).

Record InstallContext := {
  project_dir : FS.path;
  ui : bool;
  local_mode : bool;
  install_python : bool;
  skip_env : bool;
  non_interactive : bool;
  config : gmap string pyval
}.

(** [ctx.config[key] = v] *)
Definition set_config (key : string) (v : pyval) (ctx : InstallContext) : InstallContext :=
  {| project_dir := project_dir ctx;
     ui := ui ctx;
     local_mode := local_mode ctx;
     install_python := install_python ctx;
     skip_env := skip_env ctx;
     non_interactive := non_interactive ctx;
     config := <[key := v]> (config ctx) |}.

(** A context as the installer creates it for a project. *)
Definition new_context (dir : FS.path) (python : bool) : InstallContext :=
  {| project_dir := dir;
     ui := false;
     local_mode := false;
     install_python := python;
     skip_env := false;
     non_interactive := true;
     config := ∅ |}.

(** [for x in l: s = f(x, s)], stopping at the first exception. *)
Fixpoint foldM {A S} (f : A → S → result S) (l : list A) (s : S) : result S :=
  match l with
  | [] => Ok s
  | x :: l' => s' ← f x s; foldM f l' s'
  end.

(** ** The Bootstrap step *)

Module BootstrapStep.

Record sys := {
  root : FS.node;
  (** [datetime.now().strftime('%Y%m%d_%H%M%S')] *)
  clock : string;
  console : list output
}.

Definition with_root (r : FS.node) (w : sys) : sys :=
  {| root := r; clock := clock w; console := console w |}.

(** [if ui: ui.method(msg)] *)
Definition say (ctx : InstallContext) (o : output) (w : sys) : sys :=
  if ui ctx
  then {| root := root w; clock := clock w; console := console w ++ [o] |}
  else w.

Definition name : string := "bootstrap".

(** Always returns False - bootstrap always runs. *)
Definition check (ctx : InstallContext) (w : sys) : bool := false.

Definition subdirs : list FS.path :=
  [ ["rules"; "standard"]; ["rules"; "custom"]; ["hooks"]; ["commands"]; ["skills"] ].

(** [str(e)] for the warning; only the kind of the error is kept. *)
Definition exn_text (e : exn) : string :=
  match e with
  | FileExistsError => "File exists"
  | NotADirectoryError => "Not a directory"
  | FileNotFoundError => "No such file or directory"
  | _ => "error"
  end.

Definition run (ctx : InstallContext) (w : sys) : result (InstallContext * sys) :=
  let claude_dir := project_dir ctx </> ".claude" in
  let is_upgrade := FS.exists_ claude_dir (root w) in
  let '(ctx1, w1) :=
    if is_upgrade then
      let w := say ctx (Status ("Detected existing installation at " +:+ FS.str claude_dir)) w in
      let ctx' := set_config "is_upgrade" (VBool true) ctx in
      if negb (local_mode ctx) then
        let backup_name := ".claude.backup." +:+ clock w in
        let backup_path := project_dir ctx </> backup_name in
        let w := say ctx (Status ("Creating backup at " +:+ backup_name +:+ "...")) w in
        match FS.copytree claude_dir backup_path (root w) with
        | Ok r =>
            (set_config "backup_path" (VStr (FS.str backup_path)) ctx',
             say ctx (Success ("Backup created: " +:+ backup_name)) (with_root r w))
        | Raise e =>
            (ctx', say ctx (Warning ("Could not create backup: " +:+ exn_text e)) w)
        end
      else (ctx', w)
    else
      (set_config "is_upgrade" (VBool false) ctx,
       say ctx (Status "Fresh installation detected") w) in
  r1 ← FS.mkdir_p claude_dir (root w1);
  r2 ← foldM (λ subdir, FS.mkdir_p (claude_dir ++ subdir)%list) subdirs r1;
  Ok (ctx1, say ctx (Success "Directory structure created") (with_root r2 w1)).

Definition rollback (ctx : InstallContext) (w : sys) : result sys :=
  match config ctx !! "backup_path" with
  | Some (VStr backup_path) =>
      if negb (String.eqb backup_path "") then
        let backup := FS.of_str backup_path in
        let claude_dir := project_dir ctx </> ".claude" in
        if FS.exists_ backup (root w) then
          r1 ← (if FS.exists_ claude_dir (root w)
                then FS.rmtree claude_dir (root w) else Ok (root w));
          r2 ← FS.move backup claude_dir r1;
          Ok (with_root r2 w)
        else Ok w
      else Ok w
  | _ => Ok w
  end.

End BootstrapStep.

(** ** Migration of the legacy rules layout *)

Module Migration.

Record sys := {
  root : FS.node;
  (** [int(time.time())] *)
  now : Z;
  (** what [input] gives when it is called *)
  stdin_line : result string;
  console : list output
}.

Definition with_root (r : FS.node) (w : sys) : sys :=
  {| root := r; now := now w; stdin_line := stdin_line w; console := console w |}.

Definition say (o : output) (w : sys) : sys :=
  {| root := root w; now := now w; stdin_line := stdin_line w;
     console := console w ++ [o] |}.

Definition say_all (l : list output) (w : sys) : sys := foldl (λ w o, say o w) w l.

Definition OLD_SUBDIRS : list string := ["core"; "workflow"; "extended"].

Definition SOURCES : list string := ["standard"; "custom"].

Definition rules_dir_of (project_dir : FS.path) : FS.path :=
  project_dir </> ".claude" </> "rules".

Definition needs_migration (project_dir : FS.path) (r : FS.node) : bool :=
  let rules_dir := rules_dir_of project_dir in
  if negb (FS.exists_ rules_dir r) then false
  else
    existsb (λ source,
      let source_dir := rules_dir </> source in
      if negb (FS.exists_ source_dir r) then false
      else existsb (λ old_subdir, FS.exists_ (source_dir </> old_subdir) r) OLD_SUBDIRS)
    SOURCES.

(** [subdir_path.glob("*.md")]: the names of the directory that end in
    [.md], in the order [order] in which the directory is read. *)
Definition glob_md (order : list string → list string) (dir : FS.path) (r : FS.node)
    : list string :=
  filter (λ name, PyStr.endswith ".md" name = true) (order (FS.names dir r)).

(** The body of the loop over the markdown files of one legacy
    directory. *)
Definition move_md (source old_subdir : string) (source_dir subdir_path : FS.path)
    (md_name : string) (w : sys) : result sys :=
  let dest := source_dir </> md_name in
  if FS.exists_ dest (root w) then
    Ok (say (Warning ("Skipping " +:+ md_name +:+ ": already exists in " +:+ source +:+ "/")) w)
  else
    r ← FS.move (subdir_path </> md_name) dest (root w);
    Ok (say (Success ("Moved: " +:+ source +:+ "/" +:+ old_subdir +:+ "/" +:+ md_name
                      +:+ " → " +:+ source +:+ "/" +:+ md_name)) (with_root r w)).

(** The body of the loop over [OLD_SUBDIRS]. *)
Definition flatten_subdir (order : list string → list string) (source : string)
    (source_dir : FS.path) (old_subdir : string) (w : sys) : result sys :=
  let subdir_path := source_dir </> old_subdir in
  if negb (FS.exists_ subdir_path (root w)) then Ok w
  else
    w1 ← foldM (move_md source old_subdir source_dir subdir_path)
               (glob_md order subdir_path (root w)) w;
    if FS.exists_ subdir_path (root w1) then
      r ← FS.rmtree subdir_path (root w1);
      Ok (say (Status ("Removed: " +:+ source +:+ "/" +:+ old_subdir +:+ "/")) (with_root r w1))
    else Ok w1.

(** The body of the loop over the two source directories. *)
Definition flatten_source (order : list string → list string) (rules_dir : FS.path)
    (source : string) (w : sys) : result sys :=
  let source_dir := rules_dir </> source in
  if negb (FS.exists_ source_dir (root w)) then Ok w
  else foldM (flatten_subdir order source source_dir) OLD_SUBDIRS w.

Definition banner : list output :=
  [ Section_ "Migration Required";
    Print "Detected old subdirectory structure (core/workflow/extended).";
    Print "The new system uses flat directories for rules.";
    Print "";
    Print "This migration will:";
    Print "  1. Create backup at .claude/rules.backup.<timestamp>";
    Print "  2. Move all .md files to flat structure";
    Print "  3. Remove old subdirectories (core/workflow/extended)";
    Print "" ].

Definition run_migration (order : list string → list string) (project_dir : FS.path)
    (non_interactive : bool) (w : sys) : result sys :=
  if negb (needs_migration project_dir (root w)) then Ok w
  else
    let rules_dir := rules_dir_of project_dir in
    let w := say_all banner w in
    reply ← (if negb non_interactive
             then line ← stdin_line w; Ok (PyStr.strip line)
             else Ok "Y");
    let w := say (Print "") w in
    let reply := if String.eqb reply "" then "Y" else reply in
    if negb (bool_decide (PyStr.lower reply ∈ ["y"; "yes"])) then
      (* "Migration cancelled." and the manual steps are printed first *)
      Raise (SystemExit 1)
    else
      let backup_name := "rules.backup." +:+ pretty (now w) in
      let backup_dir := project_dir </> ".claude" </> backup_name in
      let w := say (Status ("Creating backup at " +:+ backup_name +:+ "...")) w in
      r ← FS.copytree rules_dir backup_dir (root w);
      let w := say (Success ("Backup created at: " +:+ FS.str backup_dir)) (with_root r w) in
      w ← foldM (flatten_source order rules_dir) SOURCES w;
      let config_file := rules_dir </> "config.yaml" in
      w ← (if FS.exists_ config_file (root w) then
             r ← FS.unlink config_file (root w);
             Ok (say (Status "Removed: config.yaml (no longer needed)") (with_root r w))
           else Ok w);
      Ok (say_all [ Print "";
                    Success "Migration complete! Rules flattened to new structure.";
                    Print "" ] w).

Definition dir (entries : list (string * FS.node)) : FS.node := FS.Dir (list_to_map entries).

(** The layout of the conflict test: [standard/core/conflict.md] and
    [standard/conflict.md], a stray file and a [config.yaml]. *)
Definition conflict_layout : FS.node :=
  dir [("project", dir [(".claude", dir [("rules", dir [
    ("config.yaml", FS.File "old: config");
    ("standard", dir [
      ("conflict.md", FS.File "From parent");
      ("core", dir [("conflict.md", FS.File "From core");
                    (".gitkeep", FS.File "")])])])])])].

Definition conflict_sys : sys :=
  {| root := conflict_layout; now := 1700000000;
     stdin_line := Raise EOFError; console := [] |}.

End Migration.

(** ** The Dependencies step *)

Module DependenciesStep.

(** What [subprocess.run(argv, check=True, ...)] does: it returns, it
    raises [CalledProcessError] for a non-zero exit status, or the
    program cannot be started at all. *)
Inductive proc_outcome :=
  | Exited0
  | ExitedNonZero
  | NotStarted (e : exn).

(** What the step does to the outside world, in order. *)
Inductive event :=
  | Which (cmd : string)
  | NvmDirExists
  | Run (argv : list string) (cwd : option FS.path)
  | Sleep (seconds : Z)
  | Ui (o : output).

Global Instance event_eq_dec : EqDecision event.
Proof. solve_decision. Defined.

(** The outside world: the [PATH] lookup of [command_exists], the
    existence of [~/.nvm], processes and the clock. *)
Class World (W : Type) := {
  command_exists : string → W → bool;
  nvm_dir_exists : W → bool;
  subprocess_run : list string → option FS.path → W → proc_outcome * W;
  sleep : Z → W → W
}.

Definition MAX_RETRIES : nat := 3.
Definition RETRY_DELAY : Z := 2.

Section world.

Context {W : Type} `{!World W}.

(** A computation on the world that records what it does. *)
Definition M (A : Type) : Type := W * list event → result A * (W * list event).

Global Instance M_ret : MRet M := λ A a s, (Ok a, s).

Global Instance M_bind : MBind M := λ A B f m s,
  match m s with
  | (Ok a, s') => f a s'
  | (Raise e, s') => (Raise e, s')
  end.

(** [try: m  except E: h], where [handles] tells the members of [E]. *)
Definition try_except {A} (m : M A) (handles : exn → bool) (h : M A) : M A := λ s,
  match m s with
  | (Raise e, s') => if handles e then h s' else (Raise e, s')
  | r => r
  end.

Definition emit (e : event) : M unit := λ '(w, tr), (Ok tt, (w, tr ++ [e])).

Definition which (cmd : string) : M bool := λ '(w, tr),
  (Ok (command_exists cmd w), (w, tr ++ [Which cmd])).

Definition nvm_dir_present : M bool := λ '(w, tr),
  (Ok (nvm_dir_exists w), (w, tr ++ [NvmDirExists])).

Definition run_checked (argv : list string) (cwd : option FS.path) : M unit := λ '(w, tr),
  let '(o, w') := subprocess_run argv cwd w in
  (match o with
   | Exited0 => Ok tt
   | ExitedNonZero => Raise CalledProcessError
   | NotStarted e => Raise e
   end, (w', tr ++ [Run argv cwd])).

Definition time_sleep (seconds : Z) : M unit := λ '(w, tr),
  (Ok tt, (sleep seconds w, tr ++ [Sleep seconds])).

Definition is_CalledProcessError (e : exn) : bool :=
  bool_decide (e = CalledProcessError).

Fixpoint for_each {A} (body : A → M unit) (l : list A) : M unit :=
  match l with
  | [] => mret tt
  | x :: l' => body x ;; for_each body l'
  end.

(** The loop of [_run_bash_with_retry] over the attempts left. *)
Fixpoint retry_loop (command : string) (cwd : option FS.path) (attempts : list nat)
    : M bool :=
  match attempts with
  | [] => mret false
  | attempt :: rest =>
      ok ← try_except
             (run_checked ["bash"; "-c"; command] cwd ;; mret true)
             is_CalledProcessError
             ((if (attempt <? MAX_RETRIES - 1)%nat then time_sleep RETRY_DELAY
               else mret tt) ;;
              mret false);
      if ok : bool then mret true else retry_loop command cwd rest
  end.

(** Run a bash command with retry logic for transient failures. *)
Definition _run_bash_with_retry (command : string) (cwd : option FS.path) : M bool :=
  retry_loop command cwd (seq 0 MAX_RETRIES).

Definition nvm_install_script : string :=
  "curl -o- https://raw.githubusercontent.com/nvm-sh/nvm/v0.40.0/install.sh | bash".

Definition nvm_install_node : string :=
  "source ~/.nvm/nvm.sh && nvm install 22 && nvm use 22".

Definition install_nodejs : M bool :=
  present ← which "node";
  if present : bool then mret true
  else
    nvm ← nvm_dir_present;
    ok ← (if negb nvm then _run_bash_with_retry nvm_install_script None
          else mret true);
    if negb ok then mret false
    else _run_bash_with_retry nvm_install_node None.

Definition uv_install_script : string :=
  "curl -LsSf https://astral.sh/uv/install.sh | sh".

Definition install_uv : M bool :=
  present ← which "uv";
  if present : bool then mret true
  else _run_bash_with_retry uv_install_script None.

Definition python_tools : list string := ["ruff"; "mypy"; "basedpyright"].

(** The body of the loop of [install_python_tools]. *)
Definition python_tool_body (tool : string) : M unit :=
  present ← which tool;
  if present : bool then mret tt
  else run_checked ["uv"; "tool"; "install"; tool] None.

Definition install_python_tools : M bool :=
  try_except
    (for_each python_tool_body python_tools ;; mret true)
    is_CalledProcessError
    (mret false).

Definition claude_install_script : string :=
  "curl -fsSL https://claude.ai/install.sh | bash".

Definition install_claude_code : M bool :=
  present ← which "claude";
  if present : bool then mret true
  else _run_bash_with_retry claude_install_script None.

Definition qlty_install_script : string := "curl https://qlty.sh | bash".

Definition install_qlty (project_dir : FS.path) : M bool :=
  present ← which "qlty";
  if present : bool then mret true
  else _run_bash_with_retry qlty_install_script (Some project_dir).

Definition dotenvx_install_script : string := "curl -sfS https://dotenvx.sh | sh".

Definition install_dotenvx : M bool :=
  present ← which "dotenvx";
  if present : bool then mret true
  else _run_bash_with_retry dotenvx_install_script None.

Definition _install_with_spinner (ui : bool) (name : string) (install_fn : M bool)
    : M bool :=
  if ui then
    emit (Ui (Spinner ("Installing " +:+ name +:+ "..."))) ;;
    result ← install_fn;
    (if result : bool then emit (Ui (Success (name +:+ " installed")))
     else emit (Ui (Warning ("Could not install " +:+ name +:+ " - please install manually")))) ;;
    mret result
  else install_fn.

Definition name : string := "dependencies".

(** Always returns False - dependencies should always be checked. *)
Definition check (ctx : InstallContext) (w : W) : bool := false.

(** [installed.append(tag)] when the installation succeeded. *)
Definition record_if (ok : bool) (tag : string) (installed : list string) : list string :=
  if ok then (installed ++ [tag])%list else installed.

Definition run (ctx : InstallContext) : M InstallContext :=
  let installed : list string := [] in
  ok ← _install_with_spinner (ui ctx) "Node.js" install_nodejs;
  let installed := record_if ok "nodejs" installed in
  installed ← (if install_python ctx then
                 ok ← _install_with_spinner (ui ctx) "uv" install_uv;
                 let installed := record_if ok "uv" installed in
                 ok ← _install_with_spinner (ui ctx) "Python tools" install_python_tools;
                 mret (record_if ok "python_tools" installed)
               else mret installed);
  ok ← _install_with_spinner (ui ctx) "Claude Code" install_claude_code;
  let installed := record_if ok "claude_code" installed in
  ok ← _install_with_spinner (ui ctx) "qlty" (install_qlty (project_dir ctx));
  let installed := record_if ok "qlty" installed in
  ok ← _install_with_spinner (ui ctx) "dotenvx" install_dotenvx;
  let installed := record_if ok "dotenvx" installed in
  mret (set_config "installed_dependencies" (VList installed) ctx).

(** Dependencies are not rolled back (would be too disruptive). *)
Definition rollback (ctx : InstallContext) : M unit := mret tt.

End world.

(** *** What the step is seen to do

    The runs of an installation are described by predicates on the
    events it leaves.  [ok] is what the installation function returns. *)

Definition bash (command : string) (cwd : option FS.path) : event :=
  Run ["bash"; "-c"; command] cwd.

Definition uv_tool_install (tool : string) : event :=
  Run ["uv"; "tool"; "install"; tool] None.


Definition is_ui (e : event) : bool :=
  match e with
  | Ui _ => true
  | _ => false
  end.

(** The events other than console output. *)
Definition effects (tr : list event) : list event :=
  filter (λ e, is_ui e = false) tr.

(** The events hold no console output. *)
Definition quiet (seg : list event) : Prop := Forall (λ e, is_ui e = false) seg.






(** ... and every tool is looked up, whatever happened to the tools
    before it. *)
Definition all_tools (python : bool) : list string :=
  ["node"] ++ (if python then "uv" :: python_tools else [])
  ++ ["claude"; "qlty"; "dotenvx"].





(** A machine that has every tool already. *)
Definition all_present : World unit :=
  {| command_exists := λ _ _, true;
     nvm_dir_exists := λ _, true;
     subprocess_run := λ _ _ w, (Exited0, w);
     sleep := λ _ w, w |}.

End DependenciesStep.

(** ** The step interface *)

(** [BaseStep]: a name and the three operations on the install context
    and the state [S] of the outside world that the step works on.  An
    operation that raises gives no state. *)
Class Step (S : Type) := {
  step_name : string;
  step_check : InstallContext → S → bool;
  step_run : InstallContext → S → result (InstallContext * S);
  step_rollback : InstallContext → S → result S
}.

Definition bootstrap_step : Step BootstrapStep.sys :=
  {| step_name := BootstrapStep.name;
     step_check := BootstrapStep.check;
     step_run := BootstrapStep.run;
     step_rollback := BootstrapStep.rollback |}.

Definition dependencies_step (W : Type) `{!DependenciesStep.World W}
    : Step (W * list DependenciesStep.event) :=
  {| step_name := DependenciesStep.name;
     step_check := λ ctx s, DependenciesStep.check ctx s.1;
     step_run := λ ctx s,
       match DependenciesStep.run ctx s with
       | (Ok ctx', s') => Ok (ctx', s')
       | (Raise e, _) => Raise e
       end;
     step_rollback := λ ctx s,
       match DependenciesStep.rollback ctx s with
       | (Ok _, s') => Ok s'
       | (Raise e, _) => Raise e
       end |}.

(** The steps among the sources whose [check] is documented as "always
    returns False". *)
Inductive always_runs : ∀ S, Step S → Prop :=
  | bootstrap_always_runs :
      always_runs BootstrapStep.sys bootstrap_step
  | dependencies_always_runs W `{!DependenciesStep.World W} :
      always_runs (W * list DependenciesStep.event) (dependencies_step W).

(** A project directory without an installation. *)
Definition fresh_project : BootstrapStep.sys :=
  {| BootstrapStep.root := FS.Dir {[ "project" := FS.Dir ∅ ]};
     BootstrapStep.clock := "20240101_120000";
     BootstrapStep.console := [] |}.

(** ** Stop hooks: [spec_plan_validator] and [spec_verify_validator] *)

Module Hooks.

(** What a hook sees of the outside world.  A path is the string that
    [str(path)] gives. *)
Record env := {
  (** [json.load(sys.stdin)] *)
  stdin_json : result json;
  (** [is_waiting_for_user_input] of [_util], which is not among the
      sources *)
  is_waiting_for_user_input : json → result bool;
  environ : gmap string string;
  cwd : string;
  home : string;
  (** [datetime.date.today().strftime("%Y-%m-%d")] *)
  today : string;
  path_exists : string → bool;
  (** [Path(dir).glob(pattern)] *)
  glob : string → string → list string;
  (** [Path(p).read_text()] *)
  read_text : string → result string;
  json_loads : string → result json
}.

(** [str(Path(s))] on POSIX: the root ([//] for exactly two leading
    slashes, [/] for any other number of them), then the components
    that are neither empty nor [.], with one [/] between them; [.] when
    nothing is left.  [..] is kept. *)
Definition path_str (s : string) : string :=
  let root :=
    if PyStr.startswith "//" s && negb (PyStr.startswith "///" s) then "//"
    else if PyStr.startswith "/" s then "/"
    else "" in
  let parts := filter (λ c, c ≠ "" ∧ c ≠ ".") (FS.split_go [] s) in
  let p := root +:+ PyStr.join "/" parts in
  if String.eqb p "" then "." else p.

(** [posixpath.join(a, b)]: an absolute [b] replaces [a]. *)
Definition posix_join (a b : string) : string :=
  if PyStr.startswith "/" b then b
  else if String.eqb a "" || PyStr.endswith "/" a then a +:+ b
  else a +:+ "/" +:+ b.

(** [str(Path(a) / b)] *)
Definition joinpath (a b : string) : string := path_str (posix_join a b).

(** [Path(p).is_absolute()] *)
Definition is_absolute (p : string) : bool := PyStr.startswith "/" p.

(** [Path(v)]: a [str] is needed. *)
Definition as_path (v : json) : result string :=
  match v with
  | JStr s => Ok s
  | _ => Raise TypeError
  end.

Definition RED : string := String "027" "[0;31m".
Definition NC : string := String "027" "[0m".

(** A hook's run: what it wrote to standard error, and the exit status
    it returned or the exception that left [main]. *)
Definition run := (list string * result Z)%type.

Definition is_JSONDecodeError (e : exn) : bool := bool_decide (e = JSONDecodeError).

(** The project root [spec_plan_validator] takes:
    [input_data.get("project_root") or
     os.environ.get("CLAUDE_PROJECT_ROOT") or str(Path.cwd())], which
    [Path] then needs to be a [str]. *)
Definition project_root_of (e : env) (input_data : json) : result string :=
  from_input ← Json.get input_data "project_root" JNull;
  if Json.truthy from_input then as_path from_input
  else
    match environ e !! "CLAUDE_PROJECT_ROOT" with
    | Some s => if negb (String.eqb s "") then Ok s else Ok (cwd e)
    | None => Ok (cwd e)
    end.

(** [Path(project_root) / "docs" / "plans"] *)
Definition plans_dir (project_root : string) : string :=
  joinpath (joinpath project_root "docs") "plans".

(** [spec_plan_validator.main] *)
Definition spec_plan_validator_main (e : env) : run :=
  match stdin_json e with
  | Raise err => if is_JSONDecodeError err then ([], Ok 0) else ([], Raise err)
  | Ok input_data =>
      match Json.get input_data "stop_hook_active" (JBool false) with
      | Raise err => ([], Raise err)
      | Ok active =>
          if Json.truthy active then ([], Ok 0)
          else
            match Json.get input_data "transcript_path" (JStr "") with
            | Raise err => ([], Raise err)
            | Ok transcript_path =>
                match (if Json.truthy transcript_path
                       then is_waiting_for_user_input e transcript_path
                       else Ok false) with
                | Raise err => ([], Raise err)
                | Ok true => ([], Ok 0)
                | Ok false =>
                    match project_root_of e input_data with
                    | Raise err => ([], Raise err)
                    | Ok project_root =>
                        if negb (path_exists e (plans_dir project_root)) then
                          ([RED +:+ "⛔ Plan file not created yet" +:+ NC;
                            "spec-plan must create a plan file in docs/plans/ before stopping"],
                           Ok 2)
                        else
                          match glob e (plans_dir project_root) (today e +:+ "-*.md") with
                          | [] =>
                              ([RED +:+ "⛔ Plan file not created yet" +:+ NC;
                                "Expected a plan file matching: docs/plans/" +:+ today e +:+ "-*.md"],
                               Ok 2)
                          | _ => ([], Ok 0)
                          end
                    end
                end
            end
      end
  end.

(** The characters of [s] up to the first one outside the class. *)
Fixpoint take_while (cls : ascii → bool) (s : string) : string :=
  match s with
  | String a s' => if cls a then String a (take_while cls s') else EmptyString
  | EmptyString => EmptyString
  end.

(** [Status:\s*(\w+)] at the start of [s]: the group. *)
Definition status_here (s : string) : option string :=
  if PyStr.startswith "Status:" s then
    let word := take_while PyStr.isword (PyStr.lstrip (PyStr.drop 7 s)) in
    if String.eqb word "" then None else Some word
  else None.

(** [re.search(r"^Status:\s*(\w+)", s, re.MULTILINE)]: the group of the
    leftmost match; [bol] tells that [s] starts a line. *)
Fixpoint search_status (bol : bool) (s : string) : option string :=
  match (if bol then status_here s else None) with
  | Some word => Some word
  | None =>
      match s with
      | EmptyString => None
      | String a s' => search_status (Ascii.eqb a "010") s'
      end
  end.

(** [os.environ.get("PILOT_SESSION_ID", "").strip() or "default"] *)
Definition session_id (e : env) : string :=
  let sid := PyStr.strip (default "" (environ e !! "PILOT_SESSION_ID")) in
  if String.eqb sid "" then "default" else sid.

(** [Path.home() / ".pilot" / "sessions" / session_id / "active_plan.json"] *)
Definition plan_json_of (e : env) : string :=
  joinpath (joinpath (joinpath (joinpath (home e) ".pilot") "sessions")
                     (session_id e)) "active_plan.json".

(** [Path(plan_path_str)], put under [CLAUDE_PROJECT_ROOT] (the working
    directory when that is not set) unless it is absolute. *)
Definition plan_file_of (e : env) (plan_path_str : string) : string :=
  if negb (is_absolute plan_path_str)
  then joinpath (default (cwd e) (environ e !! "CLAUDE_PROJECT_ROOT")) plan_path_str
  else path_str plan_path_str.

(** The body of the [try] of [spec_verify_validator.main]: the exit
    status when it returns from inside, the status of the plan
    otherwise. *)
Definition read_plan_status (e : env) (plan_json : string) : result (Z + option string) :=
  text ← read_text e plan_json;
  data ← json_loads e text;
  plan_path_str ← Json.get data "plan_path" (JStr "");
  if negb (Json.truthy plan_path_str) then Ok (inl 0)
  else
    plan_path ← as_path plan_path_str;
    let plan_file := plan_file_of e plan_path in
    if negb (path_exists e plan_file) then Ok (inl 0)
    else
      plan_text ← read_text e plan_file;
      Ok (inr (PyStr.upper <$> search_status true plan_text)).

(** [spec_verify_validator.main] *)
Definition spec_verify_validator_main (e : env) : run :=
  match stdin_json e with
  | Raise err => if is_JSONDecodeError err then ([], Ok 0) else ([], Raise err)
  | Ok input_data =>
      match Json.get input_data "stop_hook_active" (JBool false) with
      | Raise err => ([], Raise err)
      | Ok active =>
          if Json.truthy active then ([], Ok 0)
          else
            match Json.get input_data "transcript_path" (JStr "") with
            | Raise err => ([], Raise err)
            | Ok transcript_path =>
                match (if Json.truthy transcript_path
                       then is_waiting_for_user_input e transcript_path
                       else Ok false) with
                | Raise err => ([], Raise err)
                | Ok true => ([], Ok 0)
                | Ok false =>
                    let plan_json := plan_json_of e in
                    if negb (path_exists e plan_json) then ([], Ok 0)
                    else
                      match read_plan_status e plan_json with
                      | Raise err =>
                          if is_JSONDecodeError err || is_OSError err then ([], Ok 0)
                          else ([], Raise err)
                      | Ok (inl status) => ([], Ok status)
                      | Ok (inr status) =>
                          if bool_decide (status = Some "COMPLETE") then
                            ([RED +:+ "⛔ Plan status was not updated" +:+ NC +:+ String "010"
                              "spec-verify must update status from COMPLETE to VERIFIED or PENDING"],
                             Ok 2)
                          else ([], Ok 0)
                      end
                end
            end
      end
  end.

(** A hook started outside any project, with [stdin] giving what
    [json.load] makes of it. *)
Definition env_of_stdin (stdin : result json) : env :=
  {| stdin_json := stdin;
     is_waiting_for_user_input := λ _, Ok false;
     environ := ∅;
     cwd := "/work";
     home := "/home/user";
     today := "2024-01-01";
     path_exists := λ _, false;
     glob := λ _ _, [];
     read_text := λ _, Raise FileNotFoundError;
     json_loads := λ _, Raise JSONDecodeError |}.

End Hooks.

(** ** Merging MCP configurations *)

Module Files.

(** [key in v] *)
Definition contains (key : string) (v : json) : result bool :=
  match v with
  | JObj m => Ok (bool_decide (is_Some (m !! key)))
  | JArr l => Ok (existsb (λ x, match x with JStr s => String.eqb s key | _ => false end) l)
  | JStr s => Ok (PyStr.contains key s)
  | _ => Raise TypeError
  end.

(** [{**a, **b}]: both have to be mappings; the entries of [b] win. *)
Definition double_star (a b : json) : result (gmap string json) :=
  match a, b with
  | JObj ma, JObj mb => Ok (mb ∪ ma)
  | _, _ => Raise TypeError
  end.

(** The choice of [server_key]. *)
Definition choose_server_key (existing_config new_config : json) : result (option string) :=
  b ← contains "mcpServers" existing_config;
  if b : bool then Ok (Some "mcpServers")
  else
    b ← contains "servers" existing_config;
    if b : bool then Ok (Some "servers")
    else
      b ← contains "mcpServers" new_config;
      if b : bool then Ok (Some "mcpServers")
      else
        b ← contains "servers" new_config;
        if b : bool then Ok (Some "servers") else Ok None.

(** Between the two [json.load] and the [json.dump] of
    [merge_mcp_config]. *)
Definition merge_configs (existing_config new_config : json) : result json :=
  server_key ← choose_server_key existing_config new_config;
  match server_key with
  | Some key =>
      existing_servers ← Json.get existing_config key (JObj ∅);
      new_servers ← Json.get new_config key (JObj ∅);
      merged_servers ← double_star new_servers existing_servers;
      merged_config ← double_star new_config existing_config;
      Ok (JObj (<[key := JObj merged_servers]> merged_config))
  | None =>
      merged_config ← double_star new_config existing_config;
      Ok (JObj merged_config)
  end.

Definition server_keys : list string := ["mcpServers"; "servers"].

(** The server entries a configuration has under [key]. *)
Definition servers_under (key : string) (cfg : gmap string json) : gmap string json :=
  match cfg !! key with
  | Some (JObj servers) => servers
  | _ => ∅
  end.

(** A well-formed MCP configuration: what it has under a server key is
    a mapping. *)
Definition well_formed (cfg : gmap string json) : Prop :=
  ∀ key v, key ∈ server_keys → cfg !! key = Some v → Json.is_obj v = true.

(** The configuration uses one server key at most. *)
Definition single_keyed (cfg : gmap string json) : Prop :=
  ¬ (is_Some (cfg !! "mcpServers") ∧ is_Some (cfg !! "servers")).

(** A JSON file is what [json.load] gives on it. *)
Definition json_file := result json.

Record sys := {
  (** the file [download_file] leaves in the temporary directory, if the
      download succeeds *)
  download : option json_file;
  dest_file : option json_file;
  console : list output
}.

Definition say (o : output) (w : sys) : sys :=
  {| download := download w; dest_file := dest_file w; console := console w ++ [o] |}.

Definition write_dest (f : json_file) (w : sys) : sys :=
  {| download := download w; dest_file := Some f; console := console w |}.

(** [str(e)] for the warning; only the kind of the error is kept. *)
Definition exn_text (e : exn) : string :=
  match e with
  | JSONDecodeError => "Expecting value"
  | TypeError => "not a mapping"
  | AttributeError => "object has no attribute"
  | _ => "error"
  end.

Definition merge_mcp_config (repo_file : string) (w : sys) : result (bool * sys) :=
  let w := say (Status "Installing MCP configuration...") w in
  match download w with
  | None => Ok (false, say (Warning ("Failed to download " +:+ repo_file)) w)
  | Some temp_file =>
      match dest_file w with
      | None => Ok (true, say (Success ("Created " +:+ repo_file)) (write_dest temp_file w))
      | Some existing_file =>
          match (existing_config ← existing_file;
                 new_config ← temp_file;
                 merge_configs existing_config new_config) with
          | Ok merged_config =>
              Ok (true, say (Success "Merged MCP servers (preserved existing configuration)")
                            (write_dest (Ok merged_config) w))
          | Raise e =>
              if is_Exception e then
                Ok (false, say (Warning ("Failed to merge MCP configuration: " +:+ exn_text e
                                         +:+ ", preserving existing")) w)
              else Raise e
          end
      end
  end.

End Files.

(** ** Regular expressions

    The patterns of the sources are written as terms of [re]; matching
    is by derivatives. *)

Module Re.

Inductive re :=
  | Never
  | Eps
  | Chr (cls : ascii → bool)
  | Cat (r1 r2 : re)
  | Alt (r1 r2 : re)
  | Star (r : re).

Fixpoint nullable (r : re) : bool :=
  match r with
  | Never => false
  | Eps => true
  | Chr _ => false
  | Cat r1 r2 => nullable r1 && nullable r2
  | Alt r1 r2 => nullable r1 || nullable r2
  | Star _ => true
  end.

Fixpoint deriv (a : ascii) (r : re) : re :=
  match r with
  | Never => Never
  | Eps => Never
  | Chr cls => if cls a then Eps else Never
  | Cat r1 r2 =>
      if nullable r1 then Alt (Cat (deriv a r1) r2) (deriv a r2)
      else Cat (deriv a r1) r2
  | Alt r1 r2 => Alt (deriv a r1) (deriv a r2)
  | Star r' => Cat (deriv a r') (Star r')
  end.

(** [re.fullmatch] *)
Fixpoint fullmatch (r : re) (s : string) : bool :=
  match s with
  | EmptyString => nullable r
  | String a s' => fullmatch (deriv a r) s'
  end.

Definition any : re := Chr (λ _, true).

(** [re.search]: some part of [s] matches. *)
Definition search (r : re) (s : string) : bool :=
  fullmatch (Cat (Star any) (Cat r (Star any))) s.

(** One character of a pattern. *)
Definition lit (c : ascii) : re := Chr (Ascii.eqb c).

(** One character of a pattern compiled with [re.IGNORECASE]. *)
Definition lit_i (c : ascii) : re :=
  Chr (λ a, Ascii.eqb (PyStr.lower_char a) (PyStr.lower_char c)).

Fixpoint text (mk : ascii → re) (s : string) : re :=
  match s with
  | EmptyString => Eps
  | String c s' => Cat (mk c) (text mk s')
  end.

Definition plus (r : re) : re := Cat r (Star r).
Definition opt (r : re) : re := Alt Eps r.
Definition alts (l : list re) : re := foldr Alt Never l.

Definition space : re := Chr PyStr.isspace.
Definition digit : re := Chr PyStr.isdigit.
Definition upper_AZ : re := Chr PyStr.isupper_ascii.

End Re.

(** ** The Python file checker *)

Module PyChecker.

Inductive token_type := COMMENT | OTHER.

(** A token of [tokenize]: rows count from 1, columns from 0. *)
Record token := {
  tok_type : token_type;
  tok_string : string;
  tok_start : nat * nat;
  tok_end : nat * nat
}.

(** [#] followed by [\s*] and a word. *)
Definition directive (word : string) : Re.re :=
  Re.Cat (Re.lit_i "#") (Re.Cat (Re.Star Re.space) (Re.text Re.lit_i word)).

Definition preserve_patterns : list Re.re :=
  [ Re.text Re.lit_i "#!";
    directive "type:";
    directive "noqa";
    directive "pragma:";
    directive "pylint:";
    directive "pyright:";
    directive "ruff:";
    directive "fmt:";
    directive "TODO";
    directive "FIXME";
    directive "XXX";
    directive "NOTE" ].

Definition preserve_re : Re.re := Re.alts preserve_patterns.

(** [(start_row, start_col, end_col)] of the comments to remove. *)
Definition comments_to_remove (tokens : list token) : list (nat * nat * nat) :=
  omap (λ tok,
    match tok_type tok with
    | COMMENT =>
        if Re.search preserve_re (tok_string tok) then None
        else Some ((tok_start tok).1, (tok_start tok).2, (tok_end tok).2)
    | OTHER => None
    end) tokens.

(** The body of the loop over [reversed(comments_to_remove)]. *)
Definition remove_comment (st : list string * gset nat) (c : nat * nat * nat)
    : list string * gset nat :=
  let '(new_lines, lines_to_delete) := st in
  let '(line_num, start_col, _) := c in
  let idx := (line_num - 1)%nat in
  match new_lines !! idx with
  | None => st
  | Some line =>
      let before_comment := PyStr.rstrip (PyStr.take start_col line) in
      if negb (String.eqb before_comment "")
      then (<[idx := before_comment +:+ String "010" ""]> new_lines, lines_to_delete)
      else (new_lines, {[idx]} ∪ lines_to_delete)
  end.

(** [sorted(s, reverse=True)] *)
Definition sorted_reverse (s : gset nat) : list nat :=
  reverse (merge_sort Nat.le (elements s)).

(** The text [strip_python_comments] computes from the content and its
    tokens, when there is a comment to remove. *)
Definition stripped (content : string) (tokens : list token) : option string :=
  match comments_to_remove tokens with
  | [] => None
  | to_remove =>
      let lines := PyStr.splitlines_keepends content in
      let '(new_lines, lines_to_delete) :=
        foldl remove_comment (lines, ∅) (reverse to_remove) in
      let new_lines := foldl (λ l idx, delete idx l) new_lines (sorted_reverse lines_to_delete) in
      Some (PyStr.join "" new_lines)
  end.

(** A Python file: what [read_text] gives, and what [tokenize] gives on
    a content. *)
Record source_file := {
  name : string;
  read_text : result string;
  tokenize : string → result (list token)
}.

Definition is_TokenError (e : exn) : bool := bool_decide (e = TokenError).

(** Remove inline comments from Python file using tokenizer.  The
    result is the returned flag and, when the file is written, its new
    content. *)
Definition strip_python_comments (f : source_file) : result (bool * option string) :=
  match read_text f with
  | Raise e => if is_Exception e then Ok (false, None) else Raise e
  | Ok content =>
      match tokenize f content with
      | Raise e => if is_TokenError e then Ok (false, None) else Raise e
      | Ok tokens =>
          match stripped content tokens with
          | None => Ok (false, None)
          | Some new_content =>
              if negb (String.eqb new_content content) then Ok (true, Some new_content)
              else Ok (false, None)
          end
      end
  end.

(** [:\d+:\d+: [A-Z]{1,3}\d+] *)
Definition error_pattern : Re.re :=
  Re.Cat (Re.lit ":") (Re.Cat (Re.plus Re.digit)
  (Re.Cat (Re.lit ":") (Re.Cat (Re.plus Re.digit)
  (Re.Cat (Re.text Re.lit ": ")
  (Re.Cat (Re.Cat Re.upper_AZ (Re.opt (Re.Cat Re.upper_AZ (Re.opt Re.upper_AZ))))
          (Re.plus Re.digit)))))).

(** What [check_python] sees of the outside world. *)
Record env := {
  file : source_file;
  (** [check_file_length] of [_util], which is not among the sources *)
  check_file_length : result bool;
  (** [shutil.which("ruff")] *)
  which_ruff : option string;
  (** [shutil.which("basedpyright")], at its first and at its second call *)
  which_basedpyright : option string;
  which_basedpyright_again : option string;
  (** [stdout + stderr] of [ruff check --output-format=concise], or the
      exception of [subprocess.run] *)
  ruff_check : result string;
  (** the same for [basedpyright --outputjson] *)
  basedpyright : result string;
  json_loads : string → result json
}.

(** [if x:] on what [shutil.which] returned *)
Definition found (bin : option string) : bool :=
  match bin with
  | Some s => negb (String.eqb s "")
  | None => false
  end.

(** [error_count > 0], and [f"{error_count}"] when it holds. *)
Definition positive_count (v : json) : result (option string) :=
  match v with
  | JInt z => Ok (if 0 <? z then Some (pretty z) else None)
  | JBool b => Ok (if b then Some "True" else None)
  | _ => Raise TypeError
  end.

(** The [ruff] entry of [results]: the number of error lines. *)
Definition ruff_result (e : env) : option string :=
  if found (which_ruff e) then
    match ruff_check e with
    | Ok out =>
        let error_lines := filter (λ line, Re.search error_pattern line = true)
                                  (PyStr.splitlines out) in
        match error_lines with
        | [] => None
        | _ => Some (pretty (length error_lines))
        end
    | Raise _ => None
    end
  else None.

(** The [basedpyright] entry of [results]: the error count and the
    diagnostics. *)
Definition basedpyright_result (e : env) : option (string * json) :=
  if found (which_basedpyright_again e) then
    match (out ← basedpyright e;
           data ← json_loads e out;
           summary ← Json.get data "summary" (JObj ∅);
           error_count ← Json.get summary "errorCount" (JInt 0);
           count ← positive_count error_count;
           match count with
           | Some c => diags ← Json.get data "generalDiagnostics" (JArr []); Ok (Some (c, diags))
           | None => Ok None
           end) with
    | Ok r => r
    | Raise _ => None
    end
  else None.

(** What the loop body of [_print_python_issues] needs of one
    diagnostic. *)
Definition print_diagnostic (diag : json) : result unit :=
  file_name ← Json.get diag "file" (JStr "");
  _ ← Hooks.as_path file_name;
  range ← Json.get diag "range" (JObj ∅);
  start ← Json.get range "start" (JObj ∅);
  _ ← Json.get start "line" (JInt 0);
  message ← Json.get diag "message" (JStr "");
  if Json.is_str message then Ok tt else Raise AttributeError.

(** [for diag in diagnostics: ...] *)
Definition print_diagnostics (diagnostics : json) : result unit :=
  match diagnostics with
  | JArr l => foldM (λ diag _, print_diagnostic diag) l tt
  | JObj m => foldM (λ key _, print_diagnostic (JStr key)) (map_to_list m).*1 tt
  | JStr s => if String.eqb s "" then Ok tt else print_diagnostic (JStr s)
  | _ => Raise TypeError
  end.

(** [_print_python_issues]: whether it returns; what it prints is not
    kept. *)
Definition _print_python_issues (basedpyright_entry : option (string * json)) : result unit :=
  match basedpyright_entry with
  | Some (_, diagnostics) => print_diagnostics diagnostics
  | None => Ok tt
  end.

(** Check Python file with ruff and basedpyright.  Returns
    [(exit_code, reason)].  The two [ruff] runs that fix and format the
    file are not shown: their results are dropped and their exceptions
    swallowed. *)
Definition check_python (e : env) : result (Z * string) :=
  _ ← strip_python_comments (file e);
  if PyStr.contains "test_" (name (file e)) || PyStr.contains "spec" (name (file e))
  then Ok (0, "")
  else
    _ ← check_file_length e;
    let has_ruff := bool_decide (is_Some (which_ruff e)) in
    let has_basedpyright := bool_decide (is_Some (which_basedpyright e)) in
    if negb (has_ruff || has_basedpyright) then Ok (0, "")
    else
      let ruff_entry := ruff_result e in
      let basedpyright_entry := basedpyright_result e in
      let has_issues := bool_decide (is_Some ruff_entry) || bool_decide (is_Some basedpyright_entry) in
      if has_issues then
        _ ← _print_python_issues basedpyright_entry;
        let parts :=
          match ruff_entry with Some c => [c +:+ " ruff"] | None => [] end
          ++ match basedpyright_entry with Some (c, _) => [c +:+ " basedpyright"] | None => [] end in
        Ok (2, "Python: " +:+ PyStr.join ", " parts +:+ " in " +:+ name (file e))
      else Ok (2, "").

(** The file is one that [check_python] does not lint. *)
Definition skipped (e : env) : bool :=
  PyStr.contains "test_" (name (file e)) || PyStr.contains "spec" (name (file e)).

Definition has_tool (e : env) : bool :=
  bool_decide (is_Some (which_ruff e)) || bool_decide (is_Some (which_basedpyright e)).

Definition has_issues (e : env) : bool :=
  bool_decide (is_Some (ruff_result e)) || bool_decide (is_Some (basedpyright_result e)).

(** *** A source file with a form feed

    Three lines for [tokenize], which ends a line at a line feed only;
    the second line holds a form feed, as sources divided into pages
    do. *)
Definition form_feed_content : string :=
  "import os" +:+ String "010" ""
  +:+ String "012" (String "010" "")
  +:+ "def f():  # helper" +:+ String "010" ""
  +:+ "    pass" +:+ String "010" "".

Definition other (s : string) (row col : nat) : token :=
  {| tok_type := OTHER; tok_string := s;
     tok_start := (row, col); tok_end := (row, col + String.length s)%nat |}.

(** What [tokenize.generate_tokens] gives on [form_feed_content]. *)
Definition form_feed_tokens : list token :=
  [ other "import" 1 0; other "os" 1 7; other (String "010" "") 1 9;
    other (String "010" "") 2 1;
    other "def" 3 0; other "f" 3 4; other "(" 3 5; other ")" 3 6; other ":" 3 7;
    {| tok_type := COMMENT; tok_string := "# helper";
       tok_start := (3, 10)%nat; tok_end := (3, 18)%nat |};
    other (String "010" "") 3 18;
    other "    " 4 0; other "pass" 4 4; other (String "010" "") 4 8;
    other "" 5 0; other "" 5 0 ].

Definition form_feed_file : source_file :=
  {| name := "pager.py";
     read_text := Ok form_feed_content;
     tokenize := λ _, Ok form_feed_tokens |}.

(** *** A clean file and a machine with [ruff] only *)
Definition clean_env : env :=
  {| file := {| name := "app.py";
                read_text := Ok ("x = 1" +:+ String "010" "");
                tokenize := λ _, Ok [other "x" 1 0; other "=" 1 2; other "1" 1 4;
                                     other (String "010" "") 1 5; other "" 2 0] |};
     check_file_length := Ok false;
     which_ruff := Some "/usr/bin/ruff";
     which_basedpyright := None;
     which_basedpyright_again := None;
     ruff_check := Ok ("All checks passed!" +:+ String "010" "");
     basedpyright := Raise FileNotFoundError;
     json_loads := λ _, Raise JSONDecodeError |}.

End PyChecker.

(** ** Example environments *)

(** A session whose active plan still says [complete]. *)
Definition complete_plan_env : Hooks.env :=
  let plan_json := "/home/user/.pilot/sessions/default/active_plan.json" in
  let plan_file := "/work/docs/plans/2024-01-01-feature.md" in
  {| Hooks.stdin_json := Ok (JObj ∅);
     Hooks.is_waiting_for_user_input := λ _, Ok false;
     Hooks.environ := ∅;
     Hooks.cwd := "/work";
     Hooks.home := "/home/user";
     Hooks.today := "2024-01-01";
     Hooks.path_exists := λ p, String.eqb p plan_json || String.eqb p plan_file;
     Hooks.glob := λ _ _, [];
     Hooks.read_text := λ p,
       if String.eqb p plan_json then Ok "{...}"
       else if String.eqb p plan_file
            then Ok ("# Feature" +:+ String "010" "Status: complete" +:+ String "010" "")
            else Raise FileNotFoundError;
     Hooks.json_loads := λ _, Ok (JObj {[ "plan_path" := JStr plan_file ]}) |}.

(** ** The Dependencies step: what a run may do *)

Module DependenciesTrace.

Import DependenciesStep.

(** The processes the step starts at most: the installers, each with
    its working directory. *)
Definition permitted_runs (python : bool) (project_dir : FS.path) : list event :=
  [ bash nvm_install_script None; bash nvm_install_node None ]
  ++ (if python then bash uv_install_script None :: (uv_tool_install <$> python_tools)
      else [])
  ++ [ bash claude_install_script None;
       bash qlty_install_script (Some project_dir);
       bash dotenvx_install_script None ].

(** An event that the step may leave. *)
Definition permitted (python : bool) (project_dir : FS.path) (ev : event) : Prop :=
  match ev with
  | Which tool => tool ∈ all_tools python
  | NvmDirExists => True
  | Run _ _ => ev ∈ permitted_runs python project_dir
  | Sleep seconds => seconds = RETRY_DELAY
  | Ui _ => True
  end.

(** The names [run] records when every installation succeeds. *)
Definition all_groups (python : bool) : list string :=
  ["nodejs"] ++ (if python then ["uv"; "python_tools"] else [])
  ++ ["claude_code"; "qlty"; "dotenvx"].

Section world.

Context {W : Type} `{!World W}.

(** Whatever the world does, [m] only appends events, and only events
    that satisfy [P]. *)
Definition emits {A} (P : event → Prop) (m : M A) : Prop :=
  ∀ w tr, ∃ seg,
    snd (snd (m (w, tr) : result A * (W * list event))) = tr ++ seg ∧ Forall P seg.

End world.

(** A machine without Node.js and without [bash]. *)
Definition no_bash : World unit :=
  {| command_exists := λ _ _, false;
     nvm_dir_exists := λ _, false;
     subprocess_run := λ _ _ w, (NotStarted FileNotFoundError, w);
     sleep := λ _ w, w |}.

End DependenciesTrace.

(** ** Paths and their strings *)

(** A path component holds no separator. *)
Fixpoint no_slash (s : string) : bool :=
  match s with
  | EmptyString => true
  | String a s' => negb (Ascii.eqb a "/") && no_slash s'
  end.

(** A project with an installation: a rule file, a hook and a file of
    the user's beside [.claude]. *)
Definition installed_project : BootstrapStep.sys :=
  {| BootstrapStep.root :=
       Migration.dir [("project", Migration.dir [
         ("README.md", FS.File "about");
         (".claude", Migration.dir [
            ("rules", Migration.dir [("custom", Migration.dir [
               ("mine.md", FS.File "my rule")])]);
            ("hooks", Migration.dir [("check.py", FS.File "pass")])])])];
     BootstrapStep.clock := "20240101_120000";
     BootstrapStep.console := [] |}.

(** A legacy layout in which two legacy directories hold a file of the
    same name. *)
Definition layered_sys : Migration.sys :=
  {| Migration.root :=
       Migration.dir [("project", Migration.dir [(".claude", Migration.dir [
         ("rules", Migration.dir [("standard", Migration.dir [
            ("core", Migration.dir [("a.md", FS.File "core a")]);
            ("workflow", Migration.dir [("a.md", FS.File "workflow a");
                                        ("b.md", FS.File "workflow b")])])])])])];
     Migration.now := 1700000000;
     Migration.stdin_line := Raise EOFError;
     Migration.console := [] |}.

(** ** Comments that the comment-stripping pass keeps *)

Fixpoint all_space (s : string) : bool :=
  match s with
  | EmptyString => true
  | String a s' => PyStr.isspace a && all_space s'
  end.

(** The words of [preserve_patterns] that follow [#\s*]. *)
Definition directive_words : list string :=
  [ "type:"; "noqa"; "pragma:"; "pylint:"; "pyright:"; "ruff:"; "fmt:";
    "TODO"; "FIXME"; "XXX"; "NOTE" ].

(** A comment that holds [#!], or a [#] followed by white space, if
    any, and one of the words in some letter case. *)
Definition directive_comment (s : string) : Prop :=
  (∃ pre post, s = pre +:+ ("#!" +:+ post))
  ∨ (∃ word pre ws variant post,
       word ∈ directive_words
       ∧ all_space ws = true
       ∧ PyStr.lower variant = PyStr.lower word
       ∧ s = pre +:+ (("#" +:+ (ws +:+ variant)) +:+ post)).

(** A script with a shebang and a [noqa] comment in mixed case. *)
Definition directives_file : PyChecker.source_file :=
  {| PyChecker.name := "tool.py";
     PyChecker.read_text :=
       Ok ("#!/usr/bin/env python3" +:+ String "010" ""
           +:+ "import os  #  NoQA: F401" +:+ String "010" "");
     PyChecker.tokenize := λ _,
       Ok [ {| PyChecker.tok_type := PyChecker.COMMENT;
               PyChecker.tok_string := "#!/usr/bin/env python3";
               PyChecker.tok_start := (1, 0)%nat; PyChecker.tok_end := (1, 22)%nat |};
            PyChecker.other (String "010" "") 1 22;
            PyChecker.other "import" 2 0; PyChecker.other "os" 2 7;
            {| PyChecker.tok_type := PyChecker.COMMENT;
               PyChecker.tok_string := "#  NoQA: F401";
               PyChecker.tok_start := (2, 11)%nat; PyChecker.tok_end := (2, 24)%nat |};
            PyChecker.other (String "010" "") 2 24;
            PyChecker.other "" 3 0 ] |}.

(** ** A Python file in the middle of an edit *)

(** The third line goes back to a column that no enclosing block
    started at. *)
Definition bad_dedent_content : string :=
  "if x:" +:+ String "010" ""
  +:+ "        a = 1" +:+ String "010" ""
  +:+ "    b = 2" +:+ String "010" "".

(** [app.py] with that content on a machine with [ruff]:
    [tokenize.generate_tokens] raises [IndentationError] (unindent does
    not match any outer indentation level), which is a [SyntaxError] and
    no [tokenize.TokenError].  The linters are not reached; what they
    would print is left empty. *)
Definition bad_dedent_env : PyChecker.env :=
  {| PyChecker.file :=
       {| PyChecker.name := "app.py";
          PyChecker.read_text := Ok bad_dedent_content;
          PyChecker.tokenize := λ _, Raise IndentationError |};
     PyChecker.check_file_length := Ok false;
     PyChecker.which_ruff := Some "/usr/bin/ruff";
     PyChecker.which_basedpyright := None;
     PyChecker.which_basedpyright_again := None;
     PyChecker.ruff_check := Ok "";
     PyChecker.basedpyright := Raise FileNotFoundError;
     PyChecker.json_loads := λ _, Raise JSONDecodeError |}.
(** * Part II: statements *)

(** ** Strings *)

Lemma take_drop_string (n : nat) (s : string) : PyStr.take n s +:+ PyStr.drop n s = s.
Proof.
  revert n; induction s as [|a s IH]; intros [|n]; simpl; try done.
  change (String a (PyStr.take n s +:+ PyStr.drop n s) = String a s).
  f_equal. apply IH.
Qed.

Lemma endswith_split (p s : string) :
  PyStr.endswith p s = true →
  s = PyStr.take (String.length s - String.length p) s +:+ p.
Proof.
  unfold PyStr.endswith. intros H.
  apply andb_prop in H as [H _]. apply String.eqb_eq in H.
  set (k := (String.length s - String.length p)%nat) in *.
  rewrite <- H. by rewrite take_drop_string.
Qed.

(** ** Rule assembly *)

Section rules.

Import Rules.

Lemma stem_inj (n1 n2 : string) :
  is_md n1 = true → is_md n2 = true → stem n1 = stem n2 → n1 = n2.
Proof.
  intros H1 H2 Hs. apply endswith_split in H1, H2. simpl in H1, H2.
  unfold stem in Hs. rewrite H1, H2. by rewrite Hs.
Qed.

Lemma rule_of_entry_Some (e : string * read_result) (r : string * string) :
  rule_of_entry e = Some r →
  is_md e.1 = true ∧ r.1 = stem e.1 ∧ e.2 = ReadOk r.2.
Proof.
  unfold rule_of_entry. destruct (is_md e.1); [|done].
  destruct e.2; [|done]. intros [= <-]. done.
Qed.

Lemma NoDup_fst_agree {A B} (l : list (A * B)) (k : A) (v1 v2 : B) :
  NoDup l.*1 → (k, v1) ∈ l → (k, v2) ∈ l → v1 = v2.
Proof.
  induction l as [|[k' v'] l IH]; simpl; intros Hnd H1 H2.
  { by apply elem_of_nil in H1. }
  apply NoDup_cons in Hnd as [Hk Hnd].
  apply elem_of_cons in H1 as [H1|H1], H2 as [H2|H2]; simplify_eq; auto.
  - destruct Hk. apply list_elem_of_fmap. by exists (k', v2).
  - destruct Hk. apply list_elem_of_fmap. by exists (k', v1).
Qed.

(** Two rules read from a directory whose file names are distinct have
    the same stem only if they are the same rule. *)
Lemma rules_stem_agree (dir : listing) (r1 r2 : string * string) :
  NoDup dir.*1 →
  r1 ∈ omap rule_of_entry dir → r2 ∈ omap rule_of_entry dir →
  r1.1 = r2.1 → r1 = r2.
Proof.
  intros Hnd H1 H2 Hs.
  apply list_elem_of_omap in H1 as ([n1 c1] & Hin1 & Hr1).
  apply list_elem_of_omap in H2 as ([n2 c2] & Hin2 & Hr2).
  apply rule_of_entry_Some in Hr1 as (Hm1 & Hs1 & Hc1).
  apply rule_of_entry_Some in Hr2 as (Hm2 & Hs2 & Hc2).
  simpl in *. assert (n1 = n2) as -> by (apply stem_inj; congruence).
  assert (c1 = c2) as -> by eauto using NoDup_fst_agree.
  destruct r1, r2; simpl in *. congruence.
Qed.

Global Instance by_stem_trans : Transitive by_stem.
Proof. intros x y z. unfold by_stem. apply (transitivity (R := String.le)). Qed.

Global Instance by_stem_total : Total by_stem.
Proof. intros x y. unfold by_stem. apply (total String.le). Qed.

Lemma load_rules_perm (dir : listing) : load_rules dir ≡ₚ omap rule_of_entry dir.
Proof. apply merge_sort_Permutation. Qed.

Lemma load_rules_order_independent (dir1 dir2 : listing) :
  NoDup dir1.*1 → dir1 ≡ₚ dir2 → load_rules dir2 = load_rules dir1.
Proof.
  intros Hnd Hp.
  assert (omap rule_of_entry dir2 ≡ₚ omap rule_of_entry dir1) as Hp'
    by (by rewrite Hp).
  apply (Sorted_unique_strong by_stem).
  - intros x1 x2 Hx1 Hx2 H12 H21.
    rewrite load_rules_perm in Hx1, Hx2. rewrite Hp' in Hx1.
    apply (rules_stem_agree dir1); try done.
    apply (anti_symm String.le); done.
  - apply Sorted_merge_sort, _.
  - apply Sorted_merge_sort, _.
  - by rewrite !load_rules_perm.
Qed.

Lemma load_rules_stems_NoDup (dir : listing) :
  NoDup dir.*1 → NoDup (load_rules dir).*1.
Proof.
  intros Hnd.
  assert (NoDup (load_rules dir)) as Hnd'.
  { rewrite load_rules_perm. apply NoDup_alt. intros i j r Hi Hj.
    (* positions of the survivors of [omap] are positions of [dir] *)
    revert i j Hi Hj. induction dir as [|e dir IH]; intros i j Hi Hj; [done|].
    apply NoDup_cons in Hnd as [He Hnd]. simpl in Hi, Hj.
    destruct (rule_of_entry e) as [r'|] eqn:Hr; [|by eauto].
    destruct i as [|i], j as [|j]; simplify_eq/=; try done.
    - exfalso. apply He.
      apply list_elem_of_lookup_2 in Hj.
      apply list_elem_of_omap in Hj as ([n c] & Hin & Hr2).
      apply rule_of_entry_Some in Hr as (Hm1 & Hs1 & _).
      apply rule_of_entry_Some in Hr2 as (Hm2 & Hs2 & _). simpl in *.
      assert (e.1 = n) as -> by (apply stem_inj; congruence).
      apply list_elem_of_fmap. by exists (n, c).
    - exfalso. apply He.
      apply list_elem_of_lookup_2 in Hi.
      apply list_elem_of_omap in Hi as ([n c] & Hin & Hr2).
      apply rule_of_entry_Some in Hr as (Hm1 & Hs1 & _).
      apply rule_of_entry_Some in Hr2 as (Hm2 & Hs2 & _). simpl in *.
      assert (e.1 = n) as -> by (apply stem_inj; congruence).
      apply list_elem_of_fmap. by exists (n, c).
    - f_equal. eauto. }
  apply NoDup_fmap_2_strong; [|done].
  intros r1 r2 H1 H2 Hs. rewrite load_rules_perm in H1, H2.
  by apply (rules_stem_agree dir).
Qed.

Lemma load_rules_strictly_sorted (dir : listing) :
  NoDup dir.*1 → StronglySorted (strict String.le) (load_rules dir).*1.
Proof.
  intros Hnd. pose proof (load_rules_stems_NoDup dir Hnd) as Hs.
  assert (StronglySorted by_stem (load_rules dir)) as Hsorted
    by (apply StronglySorted_merge_sort; apply _).
  induction Hsorted as [|r l Hl IH Hall]; simpl; [constructor|].
  apply NoDup_cons in Hs as [Hr Hs]. constructor; [by apply IH|].
  apply Forall_fmap, Forall_forall. intros r' Hin.
  rewrite Forall_forall in Hall. split; [by apply Hall|].
  intros Hle. apply Hr.
  assert (r.1 = r'.1) as -> by (apply (anti_symm String.le); [by apply Hall|done]).
  apply list_elem_of_fmap. by exists r'.
Qed.

Lemma rule_blocks_lookup_even (rules : list (string * string)) (i : nat) :
  rule_blocks rules !! (2 * i)%nat = rule_block <$> rules !! i.
Proof.
  revert i. induction rules as [|r rules IH]; intros [|i]; try done.
  replace (2 * S i)%nat with (S (S (2 * i))) by lia.
  cbn [rule_blocks]. rewrite !lookup_cons_ne_0 by lia. simpl Nat.pred. apply IH.
Qed.

Lemma rule_blocks_lookup_odd (rules : list (string * string)) (i : nat) :
  (i < length rules)%nat → rule_blocks rules !! (2 * i + 1)%nat = Some Divider.
Proof.
  revert i. induction rules as [|r rules IH]; intros i Hi; simpl in Hi; [lia|].
  destruct i as [|i]; [done|].
  replace (2 * S i + 1)%nat with (S (S (2 * i + 1))) by lia.
  cbn [rule_blocks]. rewrite !lookup_cons_ne_0 by lia. simpl Nat.pred. apply IH. lia.
Qed.

Lemma between_adjacent {A} (doc : list A) (k : nat) (x : A) :
  doc !! S k = Some x → between k (S (S k)) doc = [x].
Proof.
  intros H. unfold between. replace (S (S k) - k - 1)%nat with 1%nat by lia.
  rewrite <- (take_drop_middle doc (S k) x H).
  rewrite drop_app_length'; [done|].
  rewrite length_take. apply lookup_lt_Some in H. lia.
Qed.

(** C1.  The rules of a directory go into the generated document in
    the strictly increasing lexicographic order of their stems,
    whatever the order in which the directory yields its files: the
    document is the same for every order, its rules are the readable
    markdown files, rule [i] of the sorted rules stands at position
    [2 + 2 * i], and between two consecutive rules there is exactly one
    divider and nothing else. *)
Theorem rules_listed_in_stem_order (title : string) (dir dir' : Rules.listing) :
  NoDup dir.*1 → dir ≡ₚ dir' →
  let rules := load_rules dir in
  let doc := assemble title rules in
  assemble title (load_rules dir') = doc
  ∧ rules ≡ₚ omap rule_of_entry dir
  ∧ StronglySorted (strict String.le) rules.*1
  ∧ (∀ i r, rules !! i = Some r → doc !! (2 + 2 * i)%nat = Some (rule_block r))
  ∧ (∀ i, (S i < length rules)%nat →
       between (2 + 2 * i) (2 + 2 * S i) doc = [Divider]).
Proof.
  intros Hnd Hp rules doc. split_and!.
  - unfold doc, rules. by rewrite (load_rules_order_independent dir dir').
  - apply load_rules_perm.
  - by apply load_rules_strictly_sorted.
  - intros i r Hi. unfold doc, assemble.
    change (rule_blocks rules !! (2 * i)%nat = Some (rule_block r)).
    by rewrite rule_blocks_lookup_even, Hi.
  - intros i Hi. unfold doc.
    replace (2 + 2 * S i)%nat with (S (S (2 + 2 * i))) by lia.
    apply between_adjacent. unfold assemble.
    replace (S (2 + 2 * i)) with (S (S (2 * i + 1))) by lia.
    change (rule_blocks rules !! (2 * i + 1)%nat = Some Divider).
    apply rule_blocks_lookup_odd. lia.
Qed.

(** The same rule files, listed in two different orders. *)
Lemma rules_listed_in_stem_order_witness :
  let dir := [("zebra.md", ReadOk "Z"); ("alpha.md", ReadOk "A"); ("beta.md", ReadOk "B")] in
  let dir' := [("beta.md", ReadOk "B"); ("zebra.md", ReadOk "Z"); ("alpha.md", ReadOk "A")] in
  build_claude_md dir'
    = [Header "Claude CodePro Rules"; Divider;
       Rule "A"; Divider; Rule "B"; Divider; Rule "Z"; Divider]
  ∧ build_claude_md dir' = build_claude_md dir.
Proof.
  intros dir dir'.
  assert (NoDup dir.*1) as Hnd by (apply (bool_decide_unpack _); by vm_compute).
  assert (dir ≡ₚ dir') as Hp.
  { symmetry. apply (Permutation_cons_append [_; _]). }
  pose proof (rules_listed_in_stem_order "Claude CodePro Rules" dir dir' Hnd Hp) as (H & _).
  split; [by vm_compute|apply H].
Defined.

End rules.

(** ** Installer preferences *)

Section config.

Import Config.

Variable VALID_CONFIG_KEYS : gset string.

Lemma dom_keep_valid (m : gmap string json) :
  dom (keep_valid VALID_CONFIG_KEYS m) = VALID_CONFIG_KEYS ∩ dom m.
Proof.
  unfold keep_valid. apply dom_filter_L. intros k.
  rewrite elem_of_intersection, elem_of_dom. unfold is_Some. naive_solver.
Qed.

(** C2.  Saving a mapping and loading it back gives a mapping whose
    keys are the allowed keys of the input; a key outside the allow-list
    is dropped when it comes with the mapping that is saved, and when it
    stands in the file that is loaded. *)
Theorem config_round_trip_keys (config : gmap string json) (d : disk) :
  dom (load_config VALID_CONFIG_KEYS (save_config VALID_CONFIG_KEYS config d))
    = VALID_CONFIG_KEYS ∩ dom config
  ∧ (∀ saved, save_config VALID_CONFIG_KEYS config d = Some saved →
       dom saved = VALID_CONFIG_KEYS ∩ dom config)
  ∧ (∀ on_disk, dom (load_config VALID_CONFIG_KEYS (Some on_disk))
       = VALID_CONFIG_KEYS ∩ dom on_disk).
Proof.
  split_and!.
  - simpl. rewrite !dom_keep_valid. set_solver.
  - intros saved [= <-]. apply dom_keep_valid.
  - intros on_disk. apply dom_keep_valid.
Qed.

End config.

(** ** The file-checker entry point *)

Section file_checker.

Import FileChecker.

(** C5.  When the checker of the edited file returns status 2 and a
    non-empty reason, the entry point writes the block decision with
    that reason and nothing else; a file whose extension has no checker
    gets nothing written. *)
Theorem file_checker_decision (registry : gmap string checker) (f : edited_file) :
  (∀ check reason,
     file_exists f = true →
     registry !! suffix (file_name f) = Some check →
     check f = (2, reason) → reason ≠ "" →
     main registry (Some f) = [block_decision reason])
  ∧ (registry !! suffix (file_name f) = None → main registry (Some f) = []).
Proof.
  split.
  - intros check reason Hex Hreg Hchk Hne. unfold main. unfold checker in *.
    rewrite Hex, Hreg, Hchk. cbn [negb].
    by destruct (String.eqb_spec reason "").
  - intros Hreg. unfold main. unfold checker in *. destruct (file_exists f); [by rewrite Hreg|done].
Qed.

(** A registry with a Python checker that finds three issues. *)
Lemma file_checker_decision_witness :
  let check_python : checker := λ _, (2, "Python: 3 ruff issues in app.py") in
  let registry : gmap string checker := {[ ".py" := check_python ]} in
  main registry (Some {| file_name := "app.py"; file_exists := true |})
    = [block_decision "Python: 3 ruff issues in app.py"]
  ∧ main registry (Some {| file_name := "readme.md"; file_exists := true |}) = [].
Proof.
  intros check_python registry. split.
  - apply (file_checker_decision registry
             {| file_name := "app.py"; file_exists := true |}) with (check := check_python);
      [reflexivity | by vm_compute | reflexivity | discriminate].
  - apply (file_checker_decision registry
             {| file_name := "readme.md"; file_exists := true |}). by vm_compute.
Defined.

End file_checker.

(** ** Merging MCP configurations *)

Section mcp.

Import Files.

Lemma contains_obj (key : string) (m : gmap string json) :
  contains key (JObj m) = Ok (bool_decide (is_Some (m !! key))).
Proof. done. Qed.

Lemma well_formed_lookup (cfg : gmap string json) (key : string) :
  well_formed cfg → key ∈ server_keys →
  cfg !! key = None ∨ ∃ servers, cfg !! key = Some (JObj servers).
Proof.
  intros Hwf Hkey. destruct (cfg !! key) as [v|] eqn:Hv; [right|by left].
  specialize (Hwf key v Hkey Hv). destruct v; try done. by eexists.
Qed.

Lemma servers_under_insert (key : string) (servers : gmap string json)
    (cfg : gmap string json) :
  servers_under key (<[key := JObj servers]> cfg) = servers.
Proof. unfold servers_under. by rewrite lookup_insert_eq. Qed.

Lemma servers_under_insert_ne (key key' : string) (v : json) (cfg : gmap string json) :
  key ≠ key' → servers_under key' (<[key := v]> cfg) = servers_under key' cfg.
Proof. intros. unfold servers_under. by rewrite lookup_insert_ne. Qed.

Lemma servers_under_union_l (key : string) (cfg1 cfg2 : gmap string json) :
  is_Some (cfg1 !! key) → servers_under key (cfg1 ∪ cfg2) = servers_under key cfg1.
Proof.
  intros [v Hv]. unfold servers_under.
  by rewrite (lookup_union_Some_l _ _ _ _ Hv), Hv.
Qed.

Lemma servers_under_union_r (key : string) (cfg1 cfg2 : gmap string json) :
  cfg1 !! key = None → servers_under key (cfg1 ∪ cfg2) = servers_under key cfg2.
Proof. intros Hv. unfold servers_under. by rewrite lookup_union_r. Qed.

Lemma servers_under_Some (key name : string) (cfg : gmap string json) (v : json) :
  servers_under key cfg !! name = Some v →
  ∃ servers, cfg !! key = Some (JObj servers) ∧ servers !! name = Some v.
Proof.
  unfold servers_under. destruct (cfg !! key) as [[]|]; try by rewrite lookup_empty.
  eauto.
Qed.

(** What the merge computes for two well-formed configurations. *)
Lemma merge_configs_well_formed (existing new : gmap string json) :
  well_formed existing → well_formed new →
  ∃ server_key,
    choose_server_key (JObj existing) (JObj new) = Ok server_key
    ∧ merge_configs (JObj existing) (JObj new) = Ok (JObj
        match server_key with
        | Some key =>
            <[key := JObj (servers_under key existing ∪ servers_under key new)]>
              (existing ∪ new)
        | None => existing ∪ new
        end)
    ∧ match server_key with
      | Some key =>
          key ∈ server_keys
          ∧ (is_Some (existing !! key) ∨ existing !! "mcpServers" = None ∧ existing !! "servers" = None)
          ∧ (key = "servers" → existing !! "mcpServers" = None)
      | None => ∀ key, key ∈ server_keys → existing !! key = None ∧ new !! key = None
      end.
Proof.
  intros He Hn.
  assert (∀ (cfg : gmap string json) key, well_formed cfg → key ∈ server_keys →
            default (JObj ∅) (cfg !! key) = JObj (servers_under key cfg)) as Hget.
  { intros cfg key Hwf Hkey. unfold servers_under.
    destruct (well_formed_lookup cfg key Hwf Hkey) as [->|[s ->]]; done. }
  assert ("mcpServers" ∈ server_keys) as Hk1 by (unfold server_keys; set_solver).
  assert ("servers" ∈ server_keys) as Hk2 by (unfold server_keys; set_solver).
  pose proof (Hget existing _ He Hk1) as Ge1. pose proof (Hget existing _ He Hk2) as Ge2.
  pose proof (Hget new _ Hn Hk1) as Gn1. pose proof (Hget new _ Hn Hk2) as Gn2.
  unfold merge_configs, choose_server_key. rewrite !contains_obj.
  unfold mbind, result_bind, Json.get.
  destruct (existing !! "mcpServers") as [v1|] eqn:E1.
  { exists (Some "mcpServers"). rewrite bool_decide_eq_true_2 by eauto.
    rewrite E1 in *. rewrite Ge1, Gn1. simpl. split_and!; eauto; done. }
  rewrite bool_decide_eq_false_2 by (by intros [? ?]).
  destruct (existing !! "servers") as [v2|] eqn:E2.
  { exists (Some "servers"). rewrite bool_decide_eq_true_2 by eauto.
    rewrite E2 in *. rewrite Ge2, Gn2. simpl. split_and!; eauto; done. }
  rewrite bool_decide_eq_false_2 by (by intros [? ?]).
  destruct (new !! "mcpServers") as [v3|] eqn:E3.
  { exists (Some "mcpServers"). rewrite bool_decide_eq_true_2 by eauto.
    rewrite E1, E3 in *. rewrite Ge1, Gn1. simpl. split_and!; eauto; done. }
  rewrite bool_decide_eq_false_2 by (by intros [? ?]).
  destruct (new !! "servers") as [v4|] eqn:E4.
  { exists (Some "servers"). rewrite bool_decide_eq_true_2 by eauto.
    rewrite E2, E4 in *. rewrite Ge2, Gn2. simpl. split_and!; eauto; done. }
  rewrite bool_decide_eq_false_2 by (by intros [? ?]).
  exists None. split_and!; try done.
  intros key Hkey. unfold server_keys in Hkey.
  apply elem_of_cons in Hkey as [->|Hkey]; [done|].
  apply list_elem_of_singleton in Hkey as ->. done.
Qed.

(** C7, amended.  Merging two well-formed MCP configurations succeeds
    and writes a configuration in which every server entry of the
    existing file has kept its value, and which has, in the server
    mapping under the key that the merge chooses, every server of the
    new file that the existing one lacks; when the existing file uses
    one server key at most, this holds for the servers the new file has
    under either key. *)
Theorem merge_mcp_config_existing_wins (repo_file : string) (w : sys)
    (existing new : gmap string json) :
  well_formed existing → well_formed new →
  dest_file w = Some (Ok (JObj existing)) →
  download w = Some (Ok (JObj new)) →
  ∃ server_key merged w',
    choose_server_key (JObj existing) (JObj new) = Ok server_key
    ∧ merge_mcp_config repo_file w = Ok (true, w')
    ∧ dest_file w' = Some (Ok (JObj merged))
    ∧ (∀ key name v, key ∈ server_keys →
         servers_under key existing !! name = Some v →
         servers_under key merged !! name = Some v)
    ∧ (∀ key name v, server_key = Some key →
         servers_under key new !! name = Some v →
         servers_under key existing !! name = None →
         servers_under key merged !! name = Some v)
    ∧ (single_keyed existing →
       ∀ key name v, key ∈ server_keys →
         servers_under key new !! name = Some v →
         servers_under key existing !! name = None →
         servers_under key merged !! name = Some v).
Proof.
  intros He Hn Hdest Hdown.
  destruct (merge_configs_well_formed existing new He Hn) as (sk & Hsk & Hmerge & Hkey).
  eexists sk, _, _. split; [done|].
  unfold merge_mcp_config. simpl. rewrite Hdown, Hdest. simpl.
  rewrite Hmerge. split; [done|]. split; [done|].
  destruct sk as [sk|].
  - destruct Hkey as (Hin & Hsome & Hserv). split_and!.
    + intros key name v Hk Hv. destruct (decide (sk = key)) as [->|Hne].
      * rewrite servers_under_insert. by apply lookup_union_Some_l.
      * rewrite servers_under_insert_ne by done.
        apply servers_under_Some in Hv as (s & Hs & Hv).
        rewrite servers_under_union_l by eauto.
        unfold servers_under. by rewrite Hs.
    + intros key name v [= <-] Hv Hnone.
      rewrite servers_under_insert. rewrite lookup_union_r; done.
    + intros Hsingle key name v Hk Hv Hnone.
      destruct (decide (sk = key)) as [->|Hne].
      * rewrite servers_under_insert. rewrite lookup_union_r; done.
      * rewrite servers_under_insert_ne by done.
        assert (existing !! key = None) as Hex.
        { unfold server_keys in Hk, Hin.
          apply elem_of_cons in Hk as [->|Hk];
            [|apply list_elem_of_singleton in Hk as ->];
            (apply elem_of_cons in Hin as [->|Hin];
               [|apply list_elem_of_singleton in Hin as ->]); try done.
          - by apply Hserv.
          - destruct Hsome as [Hs|[_ Hs]]; [|done].
            destruct (existing !! "servers") eqn:E; [|done].
            destruct Hsingle. eauto. }
        by rewrite servers_under_union_r.
  - split_and!.
    + intros key name v Hk Hv.
      apply servers_under_Some in Hv as (s & Hs & Hv).
      destruct (Hkey key Hk) as [Hex _]. congruence.
    + done.
    + intros _ key name v Hk Hv _.
      apply servers_under_Some in Hv as (s & Hs & Hv).
      destruct (Hkey key Hk) as [_ Hnw]. congruence.
Qed.

(** An existing file with its own [github] server and a new file that
    brings another [github] and a [search] server. *)
Lemma merge_mcp_config_existing_wins_witness :
  let existing : gmap string json :=
    {[ "mcpServers" := JObj {[ "github" := JStr "mine" ]} ]} in
  let new : gmap string json :=
    {[ "mcpServers" := JObj {[ "github" := JStr "theirs"; "search" := JStr "new" ]} ]} in
  let w := {| download := Some (Ok (JObj new));
              dest_file := Some (Ok (JObj existing));
              console := [] |} in
  ∃ merged w',
    merge_mcp_config ".mcp.json" w = Ok (true, w')
    ∧ dest_file w' = Some (Ok (JObj merged))
    ∧ servers_under "mcpServers" merged !! "github" = Some (JStr "mine")
    ∧ servers_under "mcpServers" merged !! "search" = Some (JStr "new").
Proof.
  intros existing new w.
  assert (well_formed existing) as He.
  { intros key v _ Hv. unfold existing in Hv.
    apply lookup_singleton_Some in Hv as [_ <-]. done. }
  assert (well_formed new) as Hn.
  { intros key v _ Hv. unfold new in Hv.
    apply lookup_singleton_Some in Hv as [_ <-]. done. }
  destruct (merge_mcp_config_existing_wins ".mcp.json" w existing new He Hn eq_refl eq_refl)
    as (sk & merged & w' & Hsk & Hrun & Hdest & Hkeep & Hadd & _).
  exists merged, w'. split_and!; [done|done| |].
  - apply (Hkeep "mcpServers"); [unfold server_keys; set_solver|by vm_compute].
  - assert (sk = Some "mcpServers") as -> by (vm_compute in Hsk; congruence).
    apply (Hadd "mcpServers"); [done|by vm_compute|by vm_compute].
Defined.

(** C7 fails as stated.  The existing file uses both server keys and
    the new file brings the server [d] under [servers]: the merge
    chooses [mcpServers], takes [servers] whole from the existing file,
    and [d] is in neither server mapping of the file it writes. *)
Lemma merge_mcp_config_new_server_counterexample :
  let existing : gmap string json :=
    {[ "mcpServers" := JObj {[ "a" := JInt 1 ]};
       "servers" := JObj {[ "c" := JInt 3 ]} ]} in
  let new : gmap string json := {[ "servers" := JObj {[ "d" := JInt 4 ]} ]} in
  let w := {| download := Some (Ok (JObj new));
              dest_file := Some (Ok (JObj existing));
              console := [] |} in
  well_formed existing ∧ well_formed new
  ∧ servers_under "servers" new !! "d" = Some (JInt 4)
  ∧ (∀ key, key ∈ server_keys → servers_under key existing !! "d" = None)
  ∧ ∃ merged w',
      merge_mcp_config ".mcp.json" w = Ok (true, w')
      ∧ dest_file w' = Some (Ok (JObj merged))
      ∧ ∀ key, key ∈ server_keys → servers_under key merged !! "d" = None.
Proof.
  intros existing new w.
  assert (∀ key, key ∈ server_keys → key = "mcpServers" ∨ key = "servers") as Hkeys.
  { intros key Hkey. unfold server_keys in Hkey.
    apply elem_of_cons in Hkey as [->|Hkey]; [by left|].
    apply list_elem_of_singleton in Hkey as ->. by right. }
  split_and!.
  - intros key v Hkey Hv.
    destruct (Hkeys key Hkey) as [-> | ->]; vm_compute in Hv; by injection Hv as <-.
  - intros key v Hkey Hv.
    destruct (Hkeys key Hkey) as [-> | ->]; vm_compute in Hv;
      [done|by injection Hv as <-].
  - by vm_compute.
  - intros key Hkey. destruct (Hkeys key Hkey) as [-> | ->]; by vm_compute.
  - destruct (merge_mcp_config ".mcp.json" w) as [[ok w']|e] eqn:Hrun;
      [|by vm_compute in Hrun].
    vm_compute in Hrun. injection Hrun as <- <-.
    eexists _, _. split; [reflexivity|]. split; [reflexivity|].
    intros key Hkey. destruct (Hkeys key Hkey) as [-> | ->]; by vm_compute.
Qed.

End mcp.

(** ** The Dependencies step *)

Section deps.

Import DependenciesStep.

Context {W : Type} `{!World W}.

(** Every subprocess can be started: [bash] and [uv] are there to be
    run. *)
Hypothesis starts :
  ∀ argv cwd w e, (subprocess_run argv cwd w).1 ≠ NotStarted e.




Lemma effects_quiet (seg : list event) : quiet seg → effects seg = seg.
Proof.
  unfold effects. induction 1 as [|e seg He _ IH]; [done|].
  rewrite filter_cons_True by done. by rewrite IH.
Qed.

Lemma effects_app (tr1 tr2 : list event) :
  effects (tr1 ++ tr2) = effects tr1 ++ effects tr2.
Proof. apply filter_app. Qed.




Lemma for_each_cons {A} (body : A → M unit) (x : A) (l : list A) (s : W * list event) :
  for_each body (x :: l) s
  = match body x s with
    | (Ok _, s') => for_each body l s'
    | (Raise e, s') => (Raise e, s')
    end.
Proof. done. Qed.






End deps.

Section deps_examples.

Import DependenciesStep.




End deps_examples.

(** ** Steps that run on every invocation *)

Section steps.

(** C3, as the steps are written.  The Bootstrap and the Dependencies
    step report "not satisfied" in every state, also in the state a
    successful run has just left. *)
Theorem check_after_run_is_false (S : Type) (step : Step S) (ctx ctx' : InstallContext)
    (s s' : S) :
  always_runs S step →
  step_run ctx s = Ok (ctx', s') →
  step_check ctx' s' = false.
Proof. intros Halways _. by destruct Halways. Qed.

(** Bootstrap on a fresh project: the run completes and creates the
    directories; the check that follows says false. *)
Lemma check_after_run_is_false_witness :
  ∃ ctx' s',
    step_run (Step := bootstrap_step) (new_context ["project"] true) fresh_project
      = Ok (ctx', s')
    ∧ FS.is_dir ["project"; ".claude"; "rules"; "standard"] (BootstrapStep.root s') = true
    ∧ step_check (Step := bootstrap_step) ctx' s' = false.
Proof.
  destruct (step_run (Step := bootstrap_step) (new_context ["project"] true) fresh_project)
    as [[ctx' s']|e] eqn:Hrun; [|by vm_compute in Hrun].
  exists ctx', s'. split; [reflexivity|]. split.
  - vm_compute in Hrun. injection Hrun as <- <-. by vm_compute.
  - exact (check_after_run_is_false _ bootstrap_step _ ctx' _ s'
             bootstrap_always_runs Hrun).
Defined.

(** C3 fails as stated: Bootstrap's run completes on a fresh project
    and the check that follows does not return true. *)
Lemma bootstrap_check_counterexample :
  ∃ ctx' s',
    BootstrapStep.run (new_context ["project"] true) fresh_project = Ok (ctx', s')
    ∧ BootstrapStep.check ctx' s' ≠ true.
Proof.
  destruct (BootstrapStep.run (new_context ["project"] true) fresh_project)
    as [[ctx' s']|e] eqn:Hrun; [|by vm_compute in Hrun].
  by exists ctx', s'.
Qed.

End steps.

(** ** The file system *)

Section fs.

Import FS.

Lemma lookup_app (p q : path) (n : node) :
  lookup (p ++ q) n = lookup p n ≫= lookup q.
Proof.
  revert n. induction p as [|c p IH]; intros n; [done|].
  simpl. destruct n as [|es]; [done|].
  destruct (es !! c) as [sub|]; simpl; [apply IH|done].
Qed.

Lemma lookup_child (p : path) (c : string) (n : node) :
  lookup (p </> c) n = lookup p n ≫= lookup [c].
Proof. apply lookup_app. Qed.

Lemma exists_child (p : path) (c : string) (n : node) :
  exists_ (p </> c) n = true → exists_ p n = true.
Proof.
  unfold exists_. rewrite lookup_child. by destruct (lookup p n).
Qed.

Lemma apart_cons (c : string) (p q : path) : apart (c :: p) (c :: q) → apart p q.
Proof. intros [H1 H2]. split; intros H; [apply H1|apply H2]; by apply prefix_cons. Qed.

Lemma apart_sym (p q : path) : apart p q → apart q p.
Proof. by intros [? ?]. Qed.

Lemma apart_app (base p q : path) : apart p q → apart (base ++ p) (base ++ q).
Proof.
  intros [H1 H2]. split; intros H; [apply H1|apply H2]; by eapply prefix_app_inv.
Qed.

Lemma apart_child (p q : path) (c : string) : apart p q → apart (p </> c) q.
Proof.
  intros [H1 H2]. split; intros H.
  - apply H1. etrans; [|done]. by apply prefix_app_r.
  - destruct H as [k Hk]. unfold child in Hk.
    destruct (decide (k = [])) as [->|Hne].
    + rewrite app_nil_r in Hk. apply H1. exists [c]. by rewrite <- Hk.
    + apply H2. destruct (exists_last Hne) as (k' & c' & ->).
      rewrite app_assoc in Hk. apply app_inj_tail in Hk as [-> _]. by exists k'.
Qed.

Lemma lookup_remove_apart (p q : path) (n : node) :
  apart p q → lookup q (remove p n) = lookup q n.
Proof.
  revert q n. induction p as [|c p IH]; intros q n Hpq.
  { destruct Hpq as [H _]. destruct H. apply prefix_nil. }
  destruct n as [|es]; [done|].
  destruct q as [|d q].
  { destruct Hpq as [_ H]. destruct H. apply prefix_nil. }
  destruct (decide (c = d)) as [<-|Hne].
  - apply apart_cons in Hpq. destruct p as [|c' p].
    { destruct Hpq as [H _]. destruct H. apply prefix_nil. }
    cbn [remove lookup]. rewrite lookup_alter_eq.
    destruct (es !! c) as [sub|]; simpl; [|done]. by apply IH.
  - destruct p as [|c' p]; cbn [remove lookup].
    + by rewrite lookup_delete_ne.
    + by rewrite lookup_alter_ne.
Qed.

Lemma lookup_cons_Dir (c : string) (p : path) (es : gmap string node) :
  lookup (c :: p) (Dir es) = es !! c ≫= lookup p.
Proof. done. Qed.

Lemma remove_single (c : string) (es : gmap string node) :
  remove [c] (Dir es) = Dir (delete c es).
Proof. done. Qed.

Lemma remove_deeper (c c' : string) (p : path) (es : gmap string node) :
  remove (c :: c' :: p) (Dir es) = Dir (alter (remove (c' :: p)) c es).
Proof. done. Qed.

Lemma lookup_remove_self (p : path) (n : node) :
  p ≠ [] → lookup p (remove p n) = None.
Proof.
  revert n. induction p as [|c p IH]; intros n Hne; [done|].
  destruct n as [|es]; [done|].
  destruct p as [|c' p].
  - rewrite remove_single, lookup_cons_Dir. by rewrite lookup_delete_eq.
  - rewrite remove_deeper, lookup_cons_Dir, lookup_alter_eq.
    destruct (es !! c) as [sub|]; simpl; [|done]. by apply IH.
Qed.

Lemma lookup_put_apart (p q : path) (v n n' : node) :
  apart p q → put p v n = Ok n' → lookup q n' = lookup q n.
Proof.
  revert q n n'. induction p as [|c p IH]; intros q n n' Hpq Hput.
  { destruct Hpq as [H _]. destruct H. apply prefix_nil. }
  destruct n as [|es]; [done|]. cbn [put] in Hput.
  destruct (put p v (default (Dir ∅) (es !! c))) as [sub'|] eqn:Hsub; [|done].
  injection Hput as <-.
  destruct q as [|d q].
  { destruct Hpq as [_ H]. destruct H. apply prefix_nil. }
  cbn [lookup]. destruct (decide (c = d)) as [<-|Hne].
  - apply apart_cons in Hpq. rewrite lookup_insert_eq. simpl.
    rewrite (IH q _ _ Hpq Hsub).
    destruct (es !! c) as [sub|]; simpl; [done|].
    destruct q as [|d q]; [|done].
    destruct Hpq as [_ H]. destruct H. apply prefix_nil.
  - by rewrite lookup_insert_ne.
Qed.

Lemma copytree_frame (src dst q : path) (r r' : node) :
  copytree src dst r = Ok r' → apart dst q → lookup q r' = lookup q r.
Proof.
  unfold copytree. intros H Hq.
  destruct (lookup src r) as [[|es]|]; try done.
  destruct (exists_ dst r); [done|]. by eapply lookup_put_apart.
Qed.

Lemma move_frame (src dst q : path) (r r' : node) :
  move src dst r = Ok r' → apart src q → apart dst q → lookup q r' = lookup q r.
Proof.
  unfold move. intros H Hs Hd.
  destruct (lookup src r) as [x|]; [|done].
  destruct (is_dir (parent dst) r); [|done].
  rewrite (lookup_put_apart _ _ _ _ _ Hd H). by apply lookup_remove_apart.
Qed.

Lemma rmtree_frame (p q : path) (r r' : node) :
  rmtree p r = Ok r' → apart p q → lookup q r' = lookup q r.
Proof.
  unfold rmtree. intros H Hq.
  destruct (lookup p r) as [[|es]|]; try done.
  injection H as <-. by apply lookup_remove_apart.
Qed.

Lemma rmtree_gone (p : path) (r r' : node) :
  rmtree p r = Ok r' → p ≠ [] → lookup p r' = None.
Proof.
  unfold rmtree. intros H Hne.
  destruct (lookup p r) as [[|es]|]; try done.
  injection H as <-. by apply lookup_remove_self.
Qed.

Lemma unlink_frame (p q : path) (r r' : node) :
  unlink p r = Ok r' → apart p q → lookup q r' = lookup q r.
Proof.
  unfold unlink. intros H Hq.
  destruct (lookup p r) as [[|es]|]; try done.
  injection H as <-. by apply lookup_remove_apart.
Qed.

Lemma unlink_gone (p : path) (r r' : node) :
  unlink p r = Ok r' → p ≠ [] → lookup p r' = None.
Proof.
  unfold unlink. intros H Hne.
  destruct (lookup p r) as [[|es]|]; try done.
  injection H as <-. by apply lookup_remove_self.
Qed.

End fs.

(** ** Migration of the legacy rules layout *)

Section migration.

Import Migration.

(** The order in which a directory is read; nothing is asked of it. *)
Variable order : list string → list string.

Lemma root_say (o : output) (w : sys) : root (say o w) = root w.
Proof. done. Qed.

Lemma root_say_all (l : list output) (w : sys) : root (say_all l w) = root w.
Proof.
  unfold say_all. revert w. induction l as [|o l IH]; intros w; [done|].
  simpl. by rewrite IH.
Qed.

Lemma md_not_old_subdir (name sub : string) :
  PyStr.endswith ".md" name = true → sub ∈ OLD_SUBDIRS → name ≠ sub.
Proof.
  intros Hmd Hsub ->. unfold OLD_SUBDIRS in Hsub.
  repeat (apply elem_of_cons in Hsub as [->|Hsub]; [by vm_compute in Hmd|]).
  by apply elem_of_nil in Hsub.
Qed.

Lemma apart_same_length (p q : FS.path) : length p = length q → p ≠ q → FS.apart p q.
Proof.
  intros Hlen Hne. split; intros [k Hk]; apply Hne.
  - assert (k = []) as ->; [|by rewrite app_nil_r in Hk].
    apply (f_equal length) in Hk. rewrite length_app in Hk.
    destruct k; [done|simpl in Hk; lia].
  - assert (k = []) as ->; [|by rewrite app_nil_r in Hk].
    apply (f_equal length) in Hk. rewrite length_app in Hk.
    destruct k; [done|simpl in Hk; lia].
Qed.

Lemma apart_siblings (dir : FS.path) (a b : string) : a ≠ b → FS.apart (dir </> a) (dir </> b).
Proof.
  intros Hne. apply apart_same_length.
  - unfold FS.child. by rewrite !length_app.
  - unfold FS.child. intros H. by apply app_inj_tail in H as [_ ?].
Qed.

Lemma apart_cousins (dir : FS.path) (a b c d : string) :
  a ≠ b ∨ c ≠ d → FS.apart (dir </> a </> c) (dir </> b </> d).
Proof.
  intros Hne. apply apart_same_length.
  - unfold FS.child. by rewrite !length_app.
  - unfold FS.child. intros H. apply app_inj_tail in H as [H ?].
    apply app_inj_tail in H as [_ ?]. naive_solver.
Qed.

(** What one move leaves alone: a path apart from the file moved, that
    is either the destination, when it exists, or apart from it. *)
Lemma move_md_keeps (source old_subdir : string) (source_dir subdir_path : FS.path)
    (md : string) (w w' : sys) (q : FS.path) :
  move_md source old_subdir source_dir subdir_path md w = Ok w' →
  FS.apart (subdir_path </> md) q →
  (source_dir </> md = q ∧ FS.exists_ q (root w) = true)
  ∨ FS.apart (source_dir </> md) q →
  FS.lookup q (root w') = FS.lookup q (root w).
Proof.
  unfold move_md. intros Hrun Hsrc Hdst.
  destruct (FS.exists_ (source_dir </> md) (root w)) eqn:Hex.
  { by injection Hrun as <-. }
  destruct (FS.move (subdir_path </> md) (source_dir </> md) (root w)) as [r|] eqn:Hmv;
    [|done].
  injection Hrun as <-. simpl.
  destruct Hdst as [[<- Hq]|Hdst]; [congruence|].
  by eapply move_frame.
Qed.

Lemma move_all_keeps (source old_subdir : string) (source_dir subdir_path : FS.path)
    (names : list string) (w w' : sys) (q : FS.path) :
  foldM (move_md source old_subdir source_dir subdir_path) names w = Ok w' →
  FS.apart subdir_path q →
  (∀ md, md ∈ names →
     (source_dir </> md = q ∧ FS.exists_ q (root w) = true)
     ∨ FS.apart (source_dir </> md) q) →
  FS.lookup q (root w') = FS.lookup q (root w).
Proof.
  revert w. induction names as [|md names IH]; intros w Hrun Hsrc Hdst.
  { by injection Hrun as <-. }
  simpl in Hrun.
  destruct (move_md source old_subdir source_dir subdir_path md w) as [w1|] eqn:H1;
    [|done].
  simpl in Hrun.
  assert (FS.lookup q (root w1) = FS.lookup q (root w)) as Hkeep.
  { eapply move_md_keeps; [done|by apply apart_child|]. apply Hdst. by left. }
  rewrite <- Hkeep. apply IH; [done|done|].
  intros md' Hmd'. unfold FS.exists_. rewrite Hkeep. apply Hdst. by right.
Qed.

Lemma flatten_subdir_keeps (source : string) (source_dir : FS.path) (old_subdir : string)
    (w w' : sys) (q : FS.path) :
  flatten_subdir order source source_dir old_subdir w = Ok w' →
  FS.apart (source_dir </> old_subdir) q →
  (∀ md, PyStr.endswith ".md" md = true →
     (source_dir </> md = q ∧ FS.exists_ q (root w) = true)
     ∨ FS.apart (source_dir </> md) q) →
  FS.lookup q (root w') = FS.lookup q (root w).
Proof.
  unfold flatten_subdir. intros Hrun Hsub Hdst.
  destruct (FS.exists_ (source_dir </> old_subdir) (root w)); simpl in Hrun;
    [|by injection Hrun as <-].
  destruct (foldM _ _ w) as [w1|] eqn:Hmoves; [|done]. simpl in Hrun.
  assert (FS.lookup q (root w1) = FS.lookup q (root w)) as Hkeep.
  { eapply move_all_keeps; [done|done|].
    intros md Hmd. apply Hdst. unfold glob_md in Hmd.
    by apply list_elem_of_filter in Hmd as [? _]. }
  destruct (FS.exists_ (source_dir </> old_subdir) (root w1)); [|by injection Hrun as <-].
  destruct (FS.rmtree (source_dir </> old_subdir) (root w1)) as [r|] eqn:Hrm; [|done].
  injection Hrun as <-. simpl. rewrite <- Hkeep. by eapply rmtree_frame.
Qed.

Lemma flatten_subdir_gone (source : string) (source_dir : FS.path) (old_subdir : string)
    (w w' : sys) :
  flatten_subdir order source source_dir old_subdir w = Ok w' →
  FS.lookup (source_dir </> old_subdir) (root w') = None.
Proof.
  unfold flatten_subdir, FS.exists_. intros Hrun.
  destruct (FS.lookup (source_dir </> old_subdir) (root w)) eqn:Hex; simpl in Hrun;
    [|by injection Hrun as <-].
  destruct (foldM _ _ w) as [w1|] eqn:Hmoves; [|done]. simpl in Hrun.
  destruct (FS.lookup (source_dir </> old_subdir) (root w1)) eqn:Hex1;
    [|by injection Hrun as <-].
  destruct (FS.rmtree (source_dir </> old_subdir) (root w1)) as [r|] eqn:Hrm; [|done].
  injection Hrun as <-. simpl. eapply rmtree_gone; [done|].
  unfold FS.child. by destruct source_dir.
Qed.

Section one_conflict.

(** The rules directory, a source directory in it, a legacy directory
    in that, and a markdown file name. *)
Variables (rules_dir : FS.path) (source sub name : string).
Hypothesis name_md : PyStr.endswith ".md" name = true.
Hypothesis sub_old : sub ∈ OLD_SUBDIRS.

Let parent_file : FS.path := rules_dir </> source </> name.
Let legacy_dir : FS.path := rules_dir </> source </> sub.

(** Flattening any legacy directory keeps the file at the parent
    level. *)
Lemma flatten_subdir_parent_wins (source' sub' : string) (w w' : sys) :
  sub' ∈ OLD_SUBDIRS →
  flatten_subdir order source' (rules_dir </> source') sub' w = Ok w' →
  FS.exists_ parent_file (root w) = true →
  FS.lookup parent_file (root w') = FS.lookup parent_file (root w).
Proof.
  intros Hsub' Hrun Hex. eapply flatten_subdir_keeps; [done| |].
  - apply apart_cousins. right. intros ->. by eapply md_not_old_subdir.
  - intros md Hmd.
    destruct (decide (source' = source ∧ md = name)) as [[-> ->]|Hne]; [by left|].
    right. apply apart_cousins.
    destruct (decide (source' = source)); naive_solver.
Qed.

(** Flattening any legacy directory leaves a removed legacy directory
    removed. *)
Lemma flatten_subdir_stays_gone (source' sub' : string) (w w' : sys) :
  flatten_subdir order source' (rules_dir </> source') sub' w = Ok w' →
  FS.lookup legacy_dir (root w) = None →
  FS.lookup legacy_dir (root w') = None.
Proof.
  intros Hrun Hgone.
  destruct (decide (source' = source ∧ sub' = sub)) as [[-> ->]|Hne].
  { by eapply flatten_subdir_gone. }
  rewrite <- Hgone. eapply flatten_subdir_keeps; [done| |].
  - apply apart_cousins. destruct (decide (source' = source)); naive_solver.
  - intros md Hmd. right. apply apart_cousins. right.
    by apply md_not_old_subdir.
Qed.

Lemma flatten_source_parent_wins (source' : string) (w w' : sys) :
  flatten_source order rules_dir source' w = Ok w' →
  FS.exists_ parent_file (root w) = true →
  FS.lookup parent_file (root w') = FS.lookup parent_file (root w).
Proof.
  unfold flatten_source. intros Hrun Hex.
  destruct (FS.exists_ (rules_dir </> source') (root w)); simpl in Hrun;
    [|by injection Hrun as <-].
  assert (∀ subs w, Forall (λ s, s ∈ OLD_SUBDIRS) subs →
            foldM (flatten_subdir order source' (rules_dir </> source')) subs w = Ok w' →
            FS.exists_ parent_file (root w) = true →
            FS.lookup parent_file (root w') = FS.lookup parent_file (root w)) as Hloop.
  { clear Hrun Hex w. induction subs as [|s subs IH]; intros w Hall Hrun Hex.
    { by injection Hrun as <-. }
    apply Forall_cons in Hall as [Hs Hall]. simpl in Hrun.
    destruct (flatten_subdir order source' (rules_dir </> source') s w) as [w1|] eqn:H1;
      [|done].
    simpl in Hrun.
    pose proof (flatten_subdir_parent_wins _ _ _ _ Hs H1 Hex) as Hkeep.
    rewrite <- Hkeep. apply IH; [done|done|].
    unfold FS.exists_ in *. by rewrite Hkeep. }
  apply (Hloop OLD_SUBDIRS); [|done|done]. by apply Forall_forall.
Qed.

Lemma flatten_subdirs_stay_gone (source' : string) (subs : list string) (w w' : sys) :
  foldM (flatten_subdir order source' (rules_dir </> source')) subs w = Ok w' →
  FS.lookup legacy_dir (root w) = None →
  FS.lookup legacy_dir (root w') = None.
Proof.
  revert w. induction subs as [|s subs IH]; intros w Hrun Hgone.
  { by injection Hrun as <-. }
  simpl in Hrun.
  destruct (flatten_subdir order source' (rules_dir </> source') s w) as [w1|] eqn:H1;
    [|done].
  apply (IH w1); [done|]. by eapply flatten_subdir_stays_gone.
Qed.

Lemma flatten_source_stays_gone (source' : string) (w w' : sys) :
  flatten_source order rules_dir source' w = Ok w' →
  FS.lookup legacy_dir (root w) = None →
  FS.lookup legacy_dir (root w') = None.
Proof.
  unfold flatten_source. intros Hrun Hgone.
  destruct (FS.exists_ (rules_dir </> source') (root w)); simpl in Hrun;
    [|by injection Hrun as <-].
  by apply (flatten_subdirs_stay_gone source' OLD_SUBDIRS w w').
Qed.

(** Flattening the source directory removes its legacy directory,
    whether or not the source directory is there. *)
Lemma flatten_source_gone (w w' : sys) :
  flatten_source order rules_dir source w = Ok w' →
  FS.lookup legacy_dir (root w') = None.
Proof.
  unfold flatten_source. intros Hrun.
  destruct (FS.exists_ (rules_dir </> source) (root w)) eqn:Hex; simpl in Hrun.
  - assert (∀ subs w, sub ∈ subs →
              foldM (flatten_subdir order source (rules_dir </> source)) subs w = Ok w' →
              FS.lookup legacy_dir (root w') = None) as Hloop.
    { clear Hrun Hex w. induction subs as [|s subs IH]; intros w Hin Hrun.
      { by apply elem_of_nil in Hin. }
      simpl in Hrun.
      destruct (flatten_subdir order source (rules_dir </> source) s w) as [w1|] eqn:H1;
        [|done].
      simpl in Hrun. apply elem_of_cons in Hin as [<-|Hin].
      - eapply flatten_subdirs_stay_gone; [done|]. by eapply flatten_subdir_gone.
      - by eapply IH. }
    by apply (Hloop OLD_SUBDIRS w).
  - injection Hrun as <-. unfold legacy_dir. rewrite lookup_child.
    unfold FS.exists_ in Hex. by destruct (FS.lookup (rules_dir </> source) (root w)).
Qed.

(** The loop over the source directories. *)
Lemma flatten_sources_parent_wins (sources : list string) (w w' : sys) :
  foldM (flatten_source order rules_dir) sources w = Ok w' →
  FS.exists_ parent_file (root w) = true →
  FS.lookup parent_file (root w') = FS.lookup parent_file (root w).
Proof.
  revert w. induction sources as [|s sources IH]; intros w Hrun Hex.
  { by injection Hrun as <-. }
  simpl in Hrun.
  destruct (flatten_source order rules_dir s w) as [w1|] eqn:H1; [|done].
  simpl in Hrun.
  pose proof (flatten_source_parent_wins _ _ _ H1 Hex) as Hkeep.
  rewrite <- Hkeep. apply IH; [done|]. unfold FS.exists_ in *. by rewrite Hkeep.
Qed.

Lemma flatten_sources_stay_gone (sources : list string) (w w' : sys) :
  foldM (flatten_source order rules_dir) sources w = Ok w' →
  FS.lookup legacy_dir (root w) = None →
  FS.lookup legacy_dir (root w') = None.
Proof.
  revert w. induction sources as [|s sources IH]; intros w Hrun Hgone.
  { by injection Hrun as <-. }
  simpl in Hrun.
  destruct (flatten_source order rules_dir s w) as [w1|] eqn:H1; [|done].
  apply (IH w1); [done|]. by eapply flatten_source_stays_gone.
Qed.

Lemma flatten_sources_gone (sources : list string) (w w' : sys) :
  source ∈ sources →
  foldM (flatten_source order rules_dir) sources w = Ok w' →
  FS.lookup legacy_dir (root w') = None.
Proof.
  revert w. induction sources as [|s sources IH]; intros w Hin Hrun.
  { by apply elem_of_nil in Hin. }
  simpl in Hrun.
  destruct (flatten_source order rules_dir s w) as [w1|] eqn:H1; [|done].
  simpl in Hrun. apply elem_of_cons in Hin as [<-|Hin].
  - eapply flatten_sources_stay_gone; [done|]. by eapply flatten_source_gone.
  - by eapply IH.
Qed.

End one_conflict.

Lemma needs_migration_legacy (project_dir : FS.path) (source sub : string) (r : FS.node) :
  source ∈ SOURCES → sub ∈ OLD_SUBDIRS →
  FS.exists_ (rules_dir_of project_dir </> source </> sub) r = true →
  needs_migration project_dir r = true.
Proof.
  intros Hsource Hsub Hex. unfold needs_migration.
  pose proof (exists_child _ _ _ Hex) as Hex1.
  pose proof (exists_child _ _ _ Hex1) as Hex2.
  rewrite Hex2. cbn [negb]. apply existsb_exists.
  exists source. split; [by apply list_elem_of_In|].
  rewrite Hex1. cbn [negb]. apply existsb_exists.
  exists sub. split; [by apply list_elem_of_In|done].
Qed.

Lemma backup_name_not_rules (stamp : string) : "rules.backup." +:+ stamp ≠ "rules".
Proof. intros H. vm_compute in H. discriminate H. Qed.

Lemma source_not_config (source : string) : source ∈ SOURCES → source ≠ "config.yaml".
Proof.
  intros Hs ->. unfold SOURCES in Hs.
  repeat (apply elem_of_cons in Hs as [Hs|Hs]; [done|]).
  by apply elem_of_nil in Hs.
Qed.

(** C4.  When a markdown file name stands both in a legacy directory
    and at the parent level, and the migration completes, the
    parent-level file has the content it had, the legacy directory is
    gone with whatever it held, and there is no [config.yaml] at the
    rules root. *)
Theorem migration_parent_wins (project_dir : FS.path) (non_interactive : bool)
    (w w' : sys) (source sub name content : string) :
  let rules_dir := rules_dir_of project_dir in
  source ∈ SOURCES → sub ∈ OLD_SUBDIRS →
  PyStr.endswith ".md" name = true →
  FS.exists_ (rules_dir </> source </> sub </> name) (root w) = true →
  FS.lookup (rules_dir </> source </> name) (root w) = Some (FS.File content) →
  run_migration order project_dir non_interactive w = Ok w' →
  FS.lookup (rules_dir </> source </> name) (root w') = Some (FS.File content)
  ∧ FS.exists_ (rules_dir </> source </> sub) (root w') = false
  ∧ FS.exists_ (rules_dir </> "config.yaml") (root w') = false.
Proof.
  intros rules_dir Hsource Hsub Hmd Hlegacy Hparent Hrun.
  pose proof (exists_child _ _ _ Hlegacy) as Hdir.
  unfold run_migration in Hrun.
  rewrite (needs_migration_legacy project_dir source sub _ Hsource Hsub Hdir) in Hrun.
  cbn [negb] in Hrun. fold rules_dir in Hrun.
  unfold mbind at 1, result_bind at 1 in Hrun.
  destruct (if negb non_interactive then _ else _) as [reply|]; [|done].
  destruct (negb (bool_decide _)); [done|].
  rewrite !root_say, root_say_all in Hrun.
  unfold mbind at 1, result_bind at 1 in Hrun.
  destruct (FS.copytree _ _ (root w)) as [r1|] eqn:Hcopy; [|done].
  unfold mbind at 1, result_bind at 1 in Hrun.
  destruct (foldM (flatten_source order rules_dir) SOURCES _) as [w2|] eqn:Hflat; [|done].
  (* the backup leaves the rules directory as it is *)
  assert (∀ c1 c2, FS.lookup (rules_dir </> c1 </> c2) r1
                   = FS.lookup (rules_dir </> c1 </> c2) (root w)) as Hbackup.
  { intros c1 c2. eapply copytree_frame; [done|].
    apply apart_sym, apart_child, apart_child, apart_siblings.
    intros H. symmetry in H. by apply backup_name_not_rules in H. }
  (* the flattening keeps the parent-level file and removes the legacy directory *)
  assert (FS.lookup (rules_dir </> source </> name) (root w2) = Some (FS.File content))
    as Hkept.
  { rewrite <- Hparent, <- Hbackup.
    rewrite (flatten_sources_parent_wins rules_dir source name Hmd _ _ _ Hflat); [done|].
    unfold FS.exists_. simpl. by rewrite Hbackup, Hparent. }
  assert (FS.lookup (rules_dir </> source </> sub) (root w2) = None) as Hgone.
  { eapply flatten_sources_gone; eauto. }
  (* config.yaml *)
  assert (FS.apart (rules_dir </> "config.yaml") (rules_dir </> source </> name)) as Hc1.
  { apply apart_sym, apart_child, apart_siblings. by apply source_not_config. }
  assert (FS.apart (rules_dir </> "config.yaml") (rules_dir </> source </> sub)) as Hc2.
  { apply apart_sym, apart_child, apart_siblings. by apply source_not_config. }
  unfold mbind at 1, result_bind at 1 in Hrun.
  destruct (FS.exists_ (rules_dir </> "config.yaml") (root w2)) eqn:Hcfg.
  - unfold mbind at 1, result_bind at 1 in Hrun.
    destruct (FS.unlink _ (root w2)) as [r3|] eqn:Hunlink; [|done].
    injection Hrun as <-. rewrite !root_say. simpl. unfold FS.exists_.
    rewrite (unlink_frame _ _ _ _ Hunlink Hc1), (unlink_frame _ _ _ _ Hunlink Hc2).
    rewrite Hkept, Hgone, (unlink_gone _ _ _ Hunlink); [done|].
    unfold FS.child. by destruct rules_dir.
  - injection Hrun as <-. rewrite !root_say. unfold FS.exists_ in *.
    rewrite Hkept, Hgone. by destruct (FS.lookup (rules_dir </> "config.yaml") (root w2)).
Qed.

End migration.

Section migration_example.

Import Migration.

Lemma migration_parent_wins_witness :
  ∃ w',
    run_migration id ["project"] true conflict_sys = Ok w'
    ∧ FS.lookup ["project"; ".claude"; "rules"; "standard"; "conflict.md"] (root w')
      = Some (FS.File "From parent")
    ∧ FS.exists_ ["project"; ".claude"; "rules"; "standard"; "core"] (root w') = false
    ∧ FS.exists_ ["project"; ".claude"; "rules"; "config.yaml"] (root w') = false.
Proof.
  destruct (run_migration id ["project"] true conflict_sys) as [w'|e] eqn:Hrun;
    [|by vm_compute in Hrun].
  exists w'. split; [reflexivity|].
  apply (migration_parent_wins id ["project"] true conflict_sys w'
           "standard" "core" "conflict.md" "From parent").
  - unfold SOURCES. apply elem_of_cons. by left.
  - unfold OLD_SUBDIRS. apply elem_of_cons. by left.
  - by vm_compute.
  - by vm_compute.
  - by vm_compute.
  - exact Hrun.
Defined.

End migration_example.

(** ** Stop hooks *)

Section hooks.

Import Hooks.

(** Malformed JSON on standard input: both hooks allow the stop. *)
Lemma hooks_allow_malformed_json (e : env) :
  stdin_json e = Raise JSONDecodeError →
  spec_plan_validator_main e = ([], Ok 0)
  ∧ spec_verify_validator_main e = ([], Ok 0).
Proof.
  intros H. unfold spec_plan_validator_main, spec_verify_validator_main.
  by rewrite H.
Qed.

(** C6 does not hold of the code.  Standard input that is well-formed
    JSON but no object makes [input_data.get] raise [AttributeError],
    and the exception leaves [main] in both hooks. *)
Theorem hooks_raise_on_non_object_input (e : env) (v : json) :
  stdin_json e = Ok v → Json.is_obj v = false →
  spec_plan_validator_main e = ([], Raise AttributeError)
  ∧ spec_verify_validator_main e = ([], Raise AttributeError).
Proof.
  intros H Hv. unfold spec_plan_validator_main, spec_verify_validator_main.
  rewrite H. by destruct v.
Qed.

(** Standard input holding the empty JSON array. *)
Lemma hooks_raise_on_non_object_input_witness :
  spec_plan_validator_main (env_of_stdin (Ok (JArr []))) = ([], Raise AttributeError)
  ∧ spec_verify_validator_main (env_of_stdin (Ok (JArr []))) = ([], Raise AttributeError).
Proof.
  apply (hooks_raise_on_non_object_input (env_of_stdin (Ok (JArr []))) (JArr []));
    reflexivity.
Defined.

End hooks.

(** ** The Python file checker *)

Section py_checker.

Import PyChecker.

(** C9 does not hold of the code.  On the file with a form feed the
    pass takes the comment of the third line of [tokenize] for the third
    line of [splitlines], which is the line feed after the form feed: it
    deletes that line feed, writes the file, and the comment is still
    there. *)
Theorem strip_python_comments_form_feed :
  Re.search preserve_re "# helper" = false
  ∧ strip_python_comments form_feed_file
    = Ok (true, Some ("import os" +:+ String "010" ""
                      +:+ String "012" ""
                      +:+ "def f():  # helper" +:+ String "010" ""
                      +:+ "    pass" +:+ String "010" "")).
Proof. split; by vm_compute. Qed.

Lemma reason_not_empty (parts : list string) (name : string) :
  "Python: " +:+ PyStr.join ", " parts +:+ " in " +:+ name ≠ "".
Proof. discriminate. Qed.

(** An exception of the comment-stripping pass leaves [check_python]. *)
Lemma check_python_propagates (e : env) (err : exn) :
  strip_python_comments (file e) = Raise err → check_python e = Raise err.
Proof. intros H. unfold check_python. by rewrite H. Qed.

(** What [check_python] returns when the steps around the linters
    return: a file that is not test- or spec-named gets status 2 as soon
    as one tool is installed, with an empty reason exactly when no issue
    was found; status 0 comes with an empty reason, for a test- or
    spec-named file or when neither tool is installed, and for nothing
    else. *)
Lemma check_python_status (e : env) :
  returns (strip_python_comments (file e)) →
  returns (check_file_length e) →
  returns (_print_python_issues (basedpyright_result e)) →
  (skipped e = true → check_python e = Ok (0, ""))
  ∧ (skipped e = false → has_tool e = false → check_python e = Ok (0, ""))
  ∧ (skipped e = false → has_tool e = true →
       ∃ reason, check_python e = Ok (2, reason)
                 ∧ (reason = "" ↔ has_issues e = false))
  ∧ (∀ reason, check_python e = Ok (0, reason) →
       reason = "" ∧ (skipped e = true ∨ has_tool e = false)).
Proof.
  intros [s Hs] [l Hl] [u Hu].
  assert (skipped e = true → check_python e = Ok (0, "")) as H1.
  { intros H. unfold check_python. rewrite Hs. simpl.
    unfold skipped in H. by rewrite H. }
  assert (skipped e = false → has_tool e = false → check_python e = Ok (0, "")) as H2.
  { intros H Ht. unfold check_python. rewrite Hs. simpl.
    unfold skipped in H. rewrite H, Hl. simpl.
    unfold has_tool in Ht. by rewrite Ht. }
  assert (skipped e = false → has_tool e = true →
          ∃ reason, check_python e = Ok (2, reason)
                    ∧ (reason = "" ↔ has_issues e = false)) as H3.
  { intros H Ht. unfold check_python. rewrite Hs. simpl.
    unfold skipped in H. rewrite H, Hl. simpl.
    unfold has_tool in Ht. rewrite Ht. simpl.
    fold (has_issues e). destruct (has_issues e).
    - rewrite Hu. simpl. eexists. split; [done|].
      split; [|done]. intros Hr. by apply reason_not_empty in Hr.
    - by exists "". }
  split_and!; try done.
  intros reason Hr.
  destruct (skipped e) eqn:Hsk.
  { rewrite H1 in Hr by done. injection Hr as <-. eauto. }
  destruct (has_tool e) eqn:Ht.
  - destruct (H3 eq_refl eq_refl) as (r & Hrun & _). rewrite Hrun in Hr. done.
  - rewrite H2 in Hr by done. injection Hr as <-. eauto.
Qed.

(** A clean file on a machine with [ruff]: status 2, empty reason. *)
Lemma check_python_clean :
  check_python clean_env = Ok (2, "").
Proof.
  assert (returns (strip_python_comments (file clean_env))) as Hs
      by (eexists; by vm_compute).
  assert (returns (check_file_length clean_env)) as Hl by (eexists; by vm_compute).
  assert (returns (_print_python_issues (basedpyright_result clean_env))) as Hu
      by (eexists; by vm_compute).
  destruct (check_python_status clean_env Hs Hl Hu) as (_ & _ & H & _).
  destruct H as (reason & Hrun & Hreason); [by vm_compute|by vm_compute|].
  rewrite Hrun. f_equal. f_equal. apply Hreason. by vm_compute.
Qed.

(** C10 does not hold of the code.  [strip_python_comments] catches
    [tokenize.TokenError] only and [check_python] calls it unguarded:
    when [tokenize] raises anything else on the content of the file, the
    exception leaves [check_python], whatever the name of the file and
    whichever tools are installed, and no status is returned. *)
Theorem check_python_raises_on_tokenize_error (e : env) (content : string) (err : exn) :
  read_text (file e) = Ok content →
  tokenize (file e) content = Raise err →
  err ≠ TokenError →
  check_python e = Raise err.
Proof.
  intros Hread Htok Herr. apply check_python_propagates.
  unfold strip_python_comments. rewrite Hread, Htok.
  unfold is_TokenError. by rewrite bool_decide_eq_false_2.
Qed.

(** A file with a bad dedent, not test- or spec-named, on a machine
    with [ruff]: [IndentationError] instead of status 2. *)
Lemma check_python_raises_on_tokenize_error_witness :
  skipped bad_dedent_env = false
  ∧ has_tool bad_dedent_env = true
  ∧ check_python bad_dedent_env = Raise IndentationError.
Proof.
  split_and!; [reflexivity|reflexivity|].
  apply (check_python_raises_on_tokenize_error bad_dedent_env bad_dedent_content);
    [reflexivity|reflexivity|discriminate].
Defined.

End py_checker.

(** ** Merging MCP configurations: failures, other settings, repetition *)

Section mcp_more.

Import Files.

Lemma contains_raises (key : string) (v : json) (e : exn) :
  contains key v = Raise e → e = TypeError.
Proof. destruct v; simpl; congruence. Qed.

Lemma get_raises (v : json) (key : string) (dflt : json) (e : exn) :
  Json.get v key dflt = Raise e → e = AttributeError.
Proof. destruct v; simpl; congruence. Qed.

Lemma double_star_raises (a b : json) (e : exn) :
  double_star a b = Raise e → e = TypeError.
Proof. destruct a, b; simpl; congruence. Qed.

Lemma choose_server_key_raises (a b : json) (e : exn) :
  choose_server_key a b = Raise e → e = TypeError.
Proof.
  unfold choose_server_key, mbind, result_bind.
  repeat (match goal with
          | |- context [contains ?k ?v] =>
              let E := fresh "E" in
              destruct (contains k v) as [[]|] eqn:E;
              [| |intros [= <-]; by eapply contains_raises]
          end); done.
Qed.

(** Whatever the two values are, the merge raises nothing but a
    [TypeError] or an [AttributeError]. *)
Lemma merge_configs_raises (a b : json) (e : exn) :
  merge_configs a b = Raise e → is_Exception e = true.
Proof.
  unfold merge_configs. unfold mbind at 1, result_bind at 1.
  destruct (choose_server_key a b) as [sk|e'] eqn:Hsk.
  2:{ intros [= <-]. by rewrite (choose_server_key_raises _ _ _ Hsk). }
  destruct sk as [key|]; unfold mbind, result_bind.
  - destruct (Json.get a key (JObj ∅)) as [sa|e1] eqn:E1.
    2:{ intros [= <-]. by rewrite (get_raises _ _ _ _ E1). }
    destruct (Json.get b key (JObj ∅)) as [sb|e2] eqn:E2.
    2:{ intros [= <-]. by rewrite (get_raises _ _ _ _ E2). }
    destruct (double_star sb sa) as [ms|e3] eqn:E3.
    2:{ intros [= <-]. by rewrite (double_star_raises _ _ _ E3). }
    destruct (double_star b a) as [mc|e4] eqn:E4; [done|].
    intros [= <-]. by rewrite (double_star_raises _ _ _ E4).
  - destruct (double_star b a) as [mc|e4] eqn:E4; [done|].
    intros [= <-]. by rewrite (double_star_raises _ _ _ E4).
Qed.

(** X1.  When reading either file fails with an ordinary exception at
    worst, [merge_mcp_config] raises nothing: it returns a flag, and a
    [False] flag comes with the destination file exactly as it was. *)
Theorem merge_mcp_config_failure_preserves (repo_file : string) (w : sys) :
  (∀ e, dest_file w = Some (Raise e) → is_Exception e = true) →
  (∀ e, download w = Some (Raise e) → is_Exception e = true) →
  ∃ ok w',
    merge_mcp_config repo_file w = Ok (ok, w')
    ∧ (ok = false → dest_file w' = dest_file w).
Proof.
  intros Hdest Hdown. unfold merge_mcp_config. simpl.
  destruct (download w) as [temp|] eqn:Ed; [|by eexists _, _].
  destruct (dest_file w) as [existing|] eqn:Ee; [|by eexists _, _].
  destruct existing as [existing|e1]; simpl.
  2:{ rewrite (Hdest e1 eq_refl). by eexists _, _. }
  destruct temp as [new|e2]; simpl.
  2:{ rewrite (Hdown e2 eq_refl). by eexists _, _. }
  destruct (merge_configs existing new) as [merged|e3] eqn:Em; [by eexists _, _|].
  rewrite (merge_configs_raises _ _ _ Em). by eexists _, _.
Qed.

(** A destination file that is not JSON: the merge gives up and the
    file stays. *)
Lemma merge_mcp_config_failure_preserves_witness :
  let w := {| download := Some (Ok (JObj ∅));
              dest_file := Some (Raise JSONDecodeError);
              console := [] |} in
  ∃ w', merge_mcp_config ".mcp.json" w = Ok (false, w')
        ∧ dest_file w' = Some (Raise JSONDecodeError).
Proof.
  intros w.
  destruct (merge_mcp_config_failure_preserves ".mcp.json" w) as (ok & w' & Hrun & Hkeep).
  - intros e [= <-]. reflexivity.
  - intros e [=].
  - assert (ok = false) as -> by (vm_compute in Hrun; congruence).
    exists w'. split; [exact Hrun|]. exact (Hkeep eq_refl).
Defined.

(** X2.  Merging two well-formed configurations treats every top-level
    key other than the chosen server key alike: the written file has the
    existing file's value where the existing file has the key, and the
    new file's value otherwise. *)
Theorem merge_mcp_config_other_settings (repo_file : string) (w : sys)
    (existing new : gmap string json) :
  well_formed existing → well_formed new →
  dest_file w = Some (Ok (JObj existing)) →
  download w = Some (Ok (JObj new)) →
  ∃ server_key merged w',
    choose_server_key (JObj existing) (JObj new) = Ok server_key
    ∧ merge_mcp_config repo_file w = Ok (true, w')
    ∧ dest_file w' = Some (Ok (JObj merged))
    ∧ ∀ key, server_key ≠ Some key →
        merged !! key = match existing !! key with
                        | Some v => Some v
                        | None => new !! key
                        end.
Proof.
  intros He Hn Hdest Hdown.
  destruct (merge_configs_well_formed existing new He Hn) as (sk & Hsk & Hmerge & _).
  eexists sk, _, _. split; [done|].
  unfold merge_mcp_config. simpl. rewrite Hdown, Hdest. simpl.
  rewrite Hmerge. split; [done|]. split; [done|].
  intros key Hkey.
  assert ((existing ∪ new) !! key = match existing !! key with
                                    | Some v => Some v
                                    | None => new !! key
                                    end) as Hu.
  { rewrite lookup_union. destruct (existing !! key), (new !! key); done. }
  destruct sk as [sk|]; [|done].
  rewrite lookup_insert_ne; [done|congruence].
Qed.

Lemma merge_mcp_config_other_settings_witness :
  let existing : gmap string json :=
    {[ "mcpServers" := JObj ∅; "theme" := JStr "dark" ]} in
  let new : gmap string json :=
    {[ "mcpServers" := JObj ∅; "theme" := JStr "light"; "version" := JInt 2 ]} in
  let w := {| download := Some (Ok (JObj new));
              dest_file := Some (Ok (JObj existing));
              console := [] |} in
  ∃ merged w',
    merge_mcp_config ".mcp.json" w = Ok (true, w')
    ∧ dest_file w' = Some (Ok (JObj merged))
    ∧ merged !! "theme" = Some (JStr "dark")
    ∧ merged !! "version" = Some (JInt 2).
Proof.
  intros existing new w.
  assert (∀ m : gmap string json, m !! "mcpServers" = Some (JObj ∅) →
            m !! "servers" = None → well_formed m) as Hwf.
  { intros m H1 H2 key v Hkey Hv. unfold server_keys in Hkey.
    apply elem_of_cons in Hkey as [->|Hkey];
      [rewrite H1 in Hv; by injection Hv as <-|].
    apply list_elem_of_singleton in Hkey as ->. congruence. }
  destruct (merge_mcp_config_other_settings ".mcp.json" w existing new)
    as (sk & merged & w' & Hsk & Hrun & Hdest & Hother);
    [by apply Hwf; vm_compute|by apply Hwf; vm_compute|reflexivity|reflexivity|].
  assert (sk = Some "mcpServers") as -> by (vm_compute in Hsk; congruence).
  exists merged, w'. split_and!; [done|done| |].
  - rewrite Hother by discriminate. by vm_compute.
  - rewrite Hother by discriminate. by vm_compute.
Defined.

Lemma union_absorbs (m1 m2 : gmap string json) :
  (∀ key, is_Some (m2 !! key) → is_Some (m1 !! key)) → m1 ∪ m2 = m1.
Proof.
  intros Hdom. apply map_eq. intros key. rewrite lookup_union.
  destruct (m1 !! key) as [v1|] eqn:E1; [by destruct (m2 !! key)|].
  destruct (m2 !! key) as [v2|] eqn:E2; [|done].
  destruct (Hdom key) as [v Hv]; [by rewrite E2|]. congruence.
Qed.

Lemma choose_server_key_Some (a b : gmap string json) (key : string) :
  choose_server_key (JObj a) (JObj b) = Ok (Some key) →
  is_Some (a !! key) ∨ is_Some (b !! key).
Proof.
  unfold choose_server_key. rewrite !contains_obj. unfold mbind, result_bind.
  repeat case_bool_decide; intros [= <-]; auto.
Qed.

Lemma server_keys_cases (key : string) :
  key ∈ server_keys → key = "mcpServers" ∨ key = "servers".
Proof.
  unfold server_keys. intros H.
  apply elem_of_cons in H as [->|H]; [by left|].
  apply list_elem_of_singleton in H as ->. by right.
Qed.

(** X3.  Installing the same new configuration a second time changes
    nothing: after a merge of two well-formed configurations, a second
    [merge_mcp_config] with the same download succeeds and leaves the
    destination file as the first merge wrote it. *)
Theorem merge_mcp_config_idempotent (repo_file : string) (w w1 : sys)
    (existing new : gmap string json) :
  well_formed existing → well_formed new →
  dest_file w = Some (Ok (JObj existing)) →
  download w = Some (Ok (JObj new)) →
  merge_mcp_config repo_file w = Ok (true, w1) →
  ∃ w2, merge_mcp_config repo_file w1 = Ok (true, w2)
        ∧ dest_file w2 = dest_file w1.
Proof.
  intros He Hn Hdest Hdown Hrun.
  destruct (merge_configs_well_formed existing new He Hn) as (sk & Hsk & Hmerge & Hkey).
  unfold merge_mcp_config in Hrun. simpl in Hrun. rewrite Hdown, Hdest in Hrun.
  simpl in Hrun. rewrite Hmerge in Hrun. injection Hrun as <-.
  set (m1 := match sk with
             | Some key =>
                 <[key := JObj (servers_under key existing ∪ servers_under key new)]>
                   (existing ∪ new)
             | None => existing ∪ new
             end) in *.
  (* the first result has every key of the new file *)
  assert (∀ key, is_Some (new !! key) → is_Some (m1 !! key)) as Hdom.
  { intros key Hk. assert (is_Some ((existing ∪ new) !! key)) as Hu.
    { apply lookup_union_is_Some. by right. }
    unfold m1. destruct sk as [sk|]; [|done].
    destruct (decide (sk = key)) as [->|Hne];
      [rewrite lookup_insert_eq; eauto|by rewrite lookup_insert_ne]. }
  (* and is well formed *)
  assert (well_formed m1) as Hwf1.
  { intros key v Hin Hv. unfold m1 in Hv. destruct sk as [sk|].
    - destruct (decide (sk = key)) as [->|Hne].
      + rewrite lookup_insert_eq in Hv. by injection Hv as <-.
      + rewrite lookup_insert_ne in Hv by done.
        apply lookup_union_Some_raw in Hv as [Hv|[_ Hv]]; eauto.
    - apply lookup_union_Some_raw in Hv as [Hv|[_ Hv]]; eauto. }
  destruct (merge_configs_well_formed m1 new Hwf1 Hn) as (sk2 & Hsk2 & Hmerge2 & Hkey2).
  unfold merge_mcp_config. simpl. rewrite Hdown. simpl. rewrite Hmerge2.
  eexists. split; [done|]. simpl. do 3 f_equal.
  rewrite (union_absorbs m1 new Hdom).
  destruct sk2 as [k2|]; [|done].
  destruct Hkey2 as (Hin2 & _ & Hserv2).
  assert (is_Some (m1 !! k2)) as Hm1.
  { destruct (choose_server_key_Some _ _ _ Hsk2); auto. }
  destruct (well_formed_lookup m1 k2 Hwf1 Hin2) as [Hnone|[s1 Hs1]].
  { rewrite Hnone in Hm1. by destruct Hm1. }
  assert (servers_under k2 m1 = s1) as Hunder by (unfold servers_under; by rewrite Hs1).
  assert (∀ name, is_Some (servers_under k2 new !! name) → is_Some (s1 !! name)) as Hsub.
  { intros name Hname. rewrite <- Hunder. unfold m1. destruct sk as [k|].
    - destruct Hkey as (Hin & _ & Hserv).
      destruct (decide (k = k2)) as [->|Hne].
      + rewrite servers_under_insert. apply lookup_union_is_Some. by right.
      + rewrite servers_under_insert_ne by done.
        destruct (existing !! k2) as [v|] eqn:Ee.
        * exfalso.
          destruct (server_keys_cases _ Hin) as [->| ->],
                   (server_keys_cases _ Hin2) as [->| ->]; try done.
          -- (* the first merge chose mcpServers: the second cannot choose servers *)
             specialize (Hserv2 eq_refl). unfold m1 in Hserv2.
             by rewrite lookup_insert_eq in Hserv2.
          -- specialize (Hserv eq_refl). congruence.
        * by rewrite servers_under_union_r.
    - destruct (Hkey k2 Hin2) as [_ Hnew].
      destruct Hname as [v Hv]. apply servers_under_Some in Hv as (? & ? & _). congruence. }
  rewrite Hunder, (union_absorbs s1 _ Hsub).
  by apply insert_id.
Qed.

(** The second run on the files of the first witness. *)
Lemma merge_mcp_config_idempotent_witness :
  let existing : gmap string json :=
    {[ "mcpServers" := JObj {[ "github" := JStr "mine" ]} ]} in
  let new : gmap string json :=
    {[ "mcpServers" := JObj {[ "github" := JStr "theirs"; "search" := JStr "new" ]} ]} in
  let w := {| download := Some (Ok (JObj new));
              dest_file := Some (Ok (JObj existing));
              console := [] |} in
  ∃ w1 w2,
    merge_mcp_config ".mcp.json" w = Ok (true, w1)
    ∧ merge_mcp_config ".mcp.json" w1 = Ok (true, w2)
    ∧ dest_file w2 = dest_file w1.
Proof.
  intros existing new w.
  assert (well_formed existing) as He.
  { intros key v _ Hv. unfold existing in Hv.
    apply lookup_singleton_Some in Hv as [_ <-]. done. }
  assert (well_formed new) as Hn.
  { intros key v _ Hv. unfold new in Hv.
    apply lookup_singleton_Some in Hv as [_ <-]. done. }
  destruct (merge_mcp_config ".mcp.json" w) as [[[] w1]|] eqn:Hrun;
    [|by vm_compute in Hrun|by vm_compute in Hrun].
  destruct (merge_mcp_config_idempotent ".mcp.json" w w1 existing new
              He Hn eq_refl eq_refl Hrun) as (w2 & Hrun2 & Hsame).
  by exists w1, w2.
Defined.

End mcp_more.
(** ** Stop hooks: what they return and when they block *)

Section hooks_more.

Import Hooks.

Lemma read_plan_status_inl (e : env) (plan_json : string) (status : Z) :
  read_plan_status e plan_json = Ok (inl status) → status = 0.
Proof.
  unfold read_plan_status, mbind, result_bind.
  repeat (case_match; try done); congruence.
Qed.

Lemma read_plan_status_inr (e : env) (plan_json : string) (status : option string) :
  read_plan_status e plan_json = Ok (inr status) →
  ∃ session_text data plan_path text,
    read_text e plan_json = Ok session_text
    ∧ json_loads e session_text = Ok data
    ∧ Json.get data "plan_path" (JStr "") = Ok (JStr plan_path)
    ∧ plan_path ≠ ""
    ∧ path_exists e (plan_file_of e plan_path) = true
    ∧ read_text e (plan_file_of e plan_path) = Ok text
    ∧ status = PyStr.upper <$> search_status true text.
Proof.
  unfold read_plan_status, mbind, result_bind.
  destruct (read_text e plan_json) as [session_text|]; [|done].
  destruct (json_loads e session_text) as [data|] eqn:Hdata; [|done].
  destruct (Json.get data "plan_path" (JStr "")) as [plan_path_str|] eqn:Hpath; [|done].
  destruct (negb (Json.truthy plan_path_str)) eqn:Htruthy; [done|].
  destruct plan_path_str as [| | |plan_path| |]; try done. simpl.
  destruct (negb (path_exists e (plan_file_of e plan_path))) eqn:Hex; [done|].
  destruct (read_text e (plan_file_of e plan_path)) as [text|] eqn:Htext; [|done].
  intros [= <-]. exists session_text, data, plan_path, text. split_and!; try done.
  - intros ->. discriminate Htruthy.
  - by apply negb_false_iff.
Qed.

(** X4.  Whenever [spec_plan_validator.main] returns, the status is 0
    with nothing written to standard error, or it is 2 with a message;
    and it is 2 only when standard input held a JSON value from which
    the hook took its project root (the [project_root] of the input,
    else [CLAUDE_PROJECT_ROOT], else the working directory) and, under
    that very root, [docs/plans] is missing or holds no plan file dated
    today. *)
Theorem plan_validator_outcomes (e : env) (msgs : list string) (status : Z) :
  spec_plan_validator_main e = (msgs, Ok status) →
  (status = 0 ∧ msgs = [])
  ∨ (status = 2 ∧ msgs ≠ []
     ∧ ∃ input_data project_root,
         stdin_json e = Ok input_data
         ∧ project_root_of e input_data = Ok project_root
         ∧ (path_exists e (plans_dir project_root) = false
            ∨ glob e (plans_dir project_root) (today e +:+ "-*.md") = [])).
Proof.
  unfold spec_plan_validator_main.
  destruct (stdin_json e) as [input_data|err].
  2:{ destruct (is_JSONDecodeError err); intros [= <- <-]; by left. }
  destruct (Json.get input_data "stop_hook_active" (JBool false)) as [active|]; [|done].
  destruct (Json.truthy active); [intros [= <- <-]; by left|].
  destruct (Json.get input_data "transcript_path" (JStr "")) as [transcript_path|]; [|done].
  destruct (if Json.truthy transcript_path then _ else _) as [[]|];
    [intros [= <- <-]; by left| |done].
  destruct (project_root_of e input_data) as [project_root|] eqn:Hroot; [|done].
  destruct (path_exists e (plans_dir project_root)) eqn:Hex; simpl.
  - destruct (glob e _ _) eqn:Hglob; intros [= <- <-]; [right|by left].
    split_and!; [done|done|]. exists input_data, project_root. split_and!; auto.
  - intros [= <- <-]. right. split_and!; [done|done|].
    exists input_data, project_root. split_and!; auto.
Qed.

(** The hook started in a directory without [docs/plans]. *)
Lemma plan_validator_outcomes_witness :
  ∃ msgs, spec_plan_validator_main (env_of_stdin (Ok (JObj ∅))) = (msgs, Ok 2)
          ∧ msgs ≠ [].
Proof.
  destruct (spec_plan_validator_main (env_of_stdin (Ok (JObj ∅)))) as [msgs r] eqn:Hrun.
  assert (r = Ok 2) as -> by (vm_compute in Hrun; congruence).
  exists msgs. split; [reflexivity|].
  destruct (plan_validator_outcomes _ _ _ Hrun) as [[H _]|(_ & H & _)]; [discriminate H|exact H].
Defined.

(** X5.  Whenever [spec_verify_validator.main] returns, the status is 0
    with nothing written to standard error, or it is 2 with a message;
    and it is 2 only when the [active_plan.json] of the session exists
    and parses, the plan file that its [plan_path] names exists and was
    read, and the leftmost match of [^Status:\s*(\w+)] in the text of
    that plan file (a [Status:] at the start of a line, white space if
    any, then a word) has a word that is [COMPLETE] in some letter
    case. *)
Theorem verify_validator_outcomes (e : env) (msgs : list string) (status : Z) :
  spec_verify_validator_main e = (msgs, Ok status) →
  (status = 0 ∧ msgs = [])
  ∨ (status = 2 ∧ msgs ≠ []
     ∧ ∃ session_text data plan_path text word,
         path_exists e (plan_json_of e) = true
         ∧ read_text e (plan_json_of e) = Ok session_text
         ∧ json_loads e session_text = Ok data
         ∧ Json.get data "plan_path" (JStr "") = Ok (JStr plan_path)
         ∧ path_exists e (plan_file_of e plan_path) = true
         ∧ read_text e (plan_file_of e plan_path) = Ok text
         ∧ search_status true text = Some word
         ∧ PyStr.upper word = "COMPLETE").
Proof.
  unfold spec_verify_validator_main.
  destruct (stdin_json e) as [input_data|err].
  2:{ destruct (is_JSONDecodeError err); intros [= <- <-]; by left. }
  destruct (Json.get input_data "stop_hook_active" (JBool false)) as [active|]; [|done].
  destruct (Json.truthy active); [intros [= <- <-]; by left|].
  destruct (Json.get input_data "transcript_path" (JStr "")) as [transcript_path|]; [|done].
  destruct (if Json.truthy transcript_path then _ else _) as [[]|];
    [intros [= <- <-]; by left| |done].
  cbv zeta.
  destruct (negb (path_exists e (plan_json_of e))) eqn:Hjson; [intros [= <- <-]; by left|].
  apply negb_false_iff in Hjson.
  destruct (read_plan_status e _) as [[z|st]|err] eqn:Hread.
  - apply read_plan_status_inl in Hread as ->. intros [= <- <-]. by left.
  - apply read_plan_status_inr
      in Hread as (session_text & data & plan_path & text & Hst & Hdata & Hpath & _ & Hex & Htext & ->).
    case_bool_decide as Hword; intros [= <- <-]; [right|by left].
    split_and!; [done|done|].
    destruct (search_status true text) as [word|] eqn:Hsearch; [|done].
    injection Hword as Hword. by exists session_text, data, plan_path, text, word.
  - destruct (is_JSONDecodeError err || is_OSError err); [|done].
    intros [= <- <-]. by left.
Qed.

(** The plan of the session says [complete], in lower case. *)
Lemma verify_validator_outcomes_witness :
  ∃ msgs, spec_verify_validator_main complete_plan_env = (msgs, Ok 2)
          ∧ msgs ≠ [].
Proof.
  destruct (spec_verify_validator_main complete_plan_env) as [msgs r] eqn:Hrun.
  assert (r = Ok 2) as -> by (vm_compute in Hrun; congruence).
  exists msgs. split; [reflexivity|].
  destruct (verify_validator_outcomes _ _ _ Hrun) as [[H _]|(_ & H & _)];
    [discriminate H|exact H].
Defined.

End hooks_more.
(** ** The Dependencies step: tools that are present, processes that
    cannot be started, and what a run may do *)

Section deps_more.

Import DependenciesStep DependenciesTrace.

Context {W : Type} `{!World W}.

Lemma install_by_bash_present (tool command : string) (cwd : option FS.path) (w : W)
    (tr : list event) :
  command_exists tool w = true →
  (present ← which tool;
   if present : bool then mret true else _run_bash_with_retry command cwd) (w, tr)
  = (Ok true, (w, tr ++ [Which tool])).
Proof. intros H. unfold mbind, M_bind, which. by rewrite H. Qed.

Lemma install_nodejs_present (w : W) (tr : list event) :
  command_exists "node" w = true →
  install_nodejs (w, tr) = (Ok true, (w, tr ++ [Which "node"])).
Proof. intros H. unfold install_nodejs, mbind, M_bind, which. by rewrite H. Qed.

Lemma for_each_python_tools_present (tools : list string) (w : W) (tr : list event) :
  (∀ tool, tool ∈ tools → command_exists tool w = true) →
  for_each python_tool_body tools (w, tr) = (Ok tt, (w, tr ++ (Which <$> tools))).
Proof.
  revert tr. induction tools as [|tool tools IH]; intros tr H.
  { simpl. by rewrite app_nil_r. }
  rewrite for_each_cons. unfold python_tool_body at 1, mbind, M_bind, which.
  rewrite H by set_solver. unfold mret at 1, M_ret at 1.
  rewrite IH by (intros; apply H; set_solver).
  by rewrite <- app_assoc.
Qed.

Lemma install_python_tools_present (w : W) (tr : list event) :
  (∀ tool, tool ∈ python_tools → command_exists tool w = true) →
  install_python_tools (w, tr) = (Ok true, (w, tr ++ (Which <$> python_tools))).
Proof.
  intros H. unfold install_python_tools, try_except.
  unfold mbind at 1, M_bind at 1.
  by rewrite for_each_python_tools_present.
Qed.

(** The spinner around an installation that finds its tools: console
    output only. *)
Lemma install_with_spinner_present (ui : bool) (name : string) (install_fn : M bool)
    (seg : list event) (w : W) (tr : list event) :
  quiet seg →
  (∀ tr0, install_fn (w, tr0) = (Ok true, (w, tr0 ++ seg))) →
  ∃ seg', _install_with_spinner ui name install_fn (w, tr) = (Ok true, (w, tr ++ seg'))
          ∧ effects seg' = seg.
Proof.
  intros Hq Hf. unfold _install_with_spinner. destruct ui.
  - exists (Ui (Spinner ("Installing " +:+ name +:+ "...")) :: seg
            ++ [Ui (Success (name +:+ " installed"))]).
    unfold mbind, M_bind, emit. simpl. rewrite Hf. simpl.
    rewrite <- !app_assoc. split; [done|].
    unfold effects. rewrite filter_cons_False by done.
    rewrite filter_app. fold (effects seg). rewrite effects_quiet by done.
    by rewrite app_nil_r.
  - exists seg. rewrite Hf. split; [done|]. by apply effects_quiet.
Qed.

(** X6.  On a machine that has every tool the step looks for, a run
    starts no process and does not sleep: apart from console output it
    only looks each tool up, in order; the world is as before, and every
    group is recorded as installed. *)
Theorem dependencies_run_all_present (ctx : InstallContext) (w : W) :
  (∀ tool, tool ∈ all_tools (install_python ctx) → command_exists tool w = true) →
  ∃ tr,
    run ctx (w, [])
      = (Ok (set_config "installed_dependencies"
               (VList (all_groups (install_python ctx))) ctx), (w, tr))
    ∧ effects tr = Which <$> all_tools (install_python ctx).
Proof.
  intros Hall. unfold run. cbv zeta.
  assert (∀ tool, quiet [Which tool]) as Hq1 by (intros; by repeat constructor).
  destruct (install_with_spinner_present (ui ctx) "Node.js" install_nodejs
              [Which "node"] w []) as (t1 & R1 & E1); [done| |].
  { intros. apply install_nodejs_present, Hall. set_solver. }
  assert (∃ t23,
            (if install_python ctx then
               ok ← _install_with_spinner (ui ctx) "uv" install_uv;
               ok0 ← _install_with_spinner (ui ctx) "Python tools" install_python_tools;
               mret (record_if ok0 "python_tools"
                       (record_if ok "uv" (record_if true "nodejs" [])))
             else mret (record_if true "nodejs" [])) (w, [] ++ t1)
            = (Ok ("nodejs" :: (if install_python ctx then ["uv"; "python_tools"] else [])),
               (w, ([] ++ t1) ++ t23))
            ∧ effects t23 = (if install_python ctx then Which <$> ("uv" :: python_tools)
                             else []))
    as (t23 & R23 & E23).
  { destruct (install_python ctx) eqn:Hpy.
    - destruct (install_with_spinner_present (ui ctx) "uv" install_uv
                  [Which "uv"] w ([] ++ t1)) as (t2 & R2 & E2); [done| |].
      { intros. apply install_by_bash_present, Hall. set_solver. }
      destruct (install_with_spinner_present (ui ctx) "Python tools" install_python_tools
                  (Which <$> python_tools) w (([] ++ t1) ++ t2)) as (t3 & R3 & E3).
      { by repeat constructor. }
      { intros. apply install_python_tools_present. intros tool Htool.
        apply Hall. unfold all_tools. set_solver. }
      exists (t2 ++ t3). unfold mbind, M_bind. rewrite R2, R3. simpl.
      rewrite effects_app, E2, E3, <- !app_assoc. done.
    - exists []. unfold mret, M_ret. by rewrite app_nil_r. }
  destruct (install_with_spinner_present (ui ctx) "Claude Code" install_claude_code
              [Which "claude"] w (([] ++ t1) ++ t23)) as (t4 & R4 & E4); [done| |].
  { intros. apply install_by_bash_present, Hall. unfold all_tools. set_solver. }
  destruct (install_with_spinner_present (ui ctx) "qlty" (install_qlty (project_dir ctx))
              [Which "qlty"] w ((([] ++ t1) ++ t23) ++ t4)) as (t5 & R5 & E5); [done| |].
  { intros. apply install_by_bash_present, Hall. unfold all_tools. set_solver. }
  destruct (install_with_spinner_present (ui ctx) "dotenvx" install_dotenvx
              [Which "dotenvx"] w (((([] ++ t1) ++ t23) ++ t4) ++ t5))
    as (t6 & R6 & E6); [done| |].
  { intros. apply install_by_bash_present, Hall. unfold all_tools. set_solver. }
  exists (t1 ++ t23 ++ t4 ++ t5 ++ t6). split.
  - unfold mbind at 1, M_bind at 1. rewrite R1.
    unfold mbind at 1, M_bind at 1. rewrite R23.
    unfold mbind at 1, M_bind at 1. rewrite R4.
    unfold mbind at 1, M_bind at 1. rewrite R5.
    unfold mbind at 1, M_bind at 1. rewrite R6.
    unfold mret, M_ret, all_groups. simpl. rewrite <- !app_assoc.
    by destruct (install_python ctx).
  - rewrite !effects_app, E1, E23, E4, E5, E6. unfold all_tools.
    by destruct (install_python ctx).
Qed.


Lemma run_bash_with_retry_not_started (command : string) (cwd : option FS.path)
    (w w' : W) (tr : list event) (e : exn) :
  subprocess_run ["bash"; "-c"; command] cwd w = (NotStarted e, w') →
  e ≠ CalledProcessError →
  _run_bash_with_retry command cwd (w, tr) = (Raise e, (w', tr ++ [bash command cwd])).
Proof.
  intros Hrun He. unfold _run_bash_with_retry. simpl seq. cbn [retry_loop].
  unfold mbind at 1, M_bind at 1. unfold try_except.
  unfold mbind at 1, M_bind at 1. unfold run_checked. rewrite Hrun.
  unfold is_CalledProcessError. by rewrite bool_decide_eq_false_2.
Qed.

(** X7.  A process that cannot be started is not retried and ends the
    step.  With Node.js and [~/.nvm] absent and the shell of the nvm
    installer failing to start with an error other than
    [CalledProcessError], [run] raises that error after this one
    attempt: no sleep, no second attempt, no other tool looked up and
    nothing recorded. *)
Theorem dependencies_run_not_started (ctx : InstallContext) (w w' : W) (e : exn) :
  command_exists "node" w = false →
  nvm_dir_exists w = false →
  subprocess_run ["bash"; "-c"; nvm_install_script] None w = (NotStarted e, w') →
  e ≠ CalledProcessError →
  ∃ tr,
    run ctx (w, []) = (Raise e, (w', tr))
    ∧ effects tr = [Which "node"; NvmDirExists; bash nvm_install_script None].
Proof.
  intros Hnode Hnvm Hrun He.
  assert (∀ tr, install_nodejs (w, tr)
                = (Raise e, (w', tr ++ [Which "node"; NvmDirExists;
                                        bash nvm_install_script None]))) as Hinstall.
  { intros tr. unfold install_nodejs, which, nvm_dir_present.
    unfold mbind at 1, M_bind at 1. rewrite Hnode.
    unfold mbind at 1, M_bind at 1. rewrite Hnvm.
    unfold mbind at 1, M_bind at 1. simpl negb. cbv iota.
    rewrite (run_bash_with_retry_not_started _ _ _ _ _ _ Hrun He).
    by rewrite <- !app_assoc. }
  unfold run. cbv zeta. unfold mbind at 1, M_bind at 1.
  unfold _install_with_spinner at 1. destruct (ui ctx).
  - eexists. unfold mbind at 1, M_bind at 1. unfold mbind at 1, M_bind at 1.
    unfold emit at 1. rewrite Hinstall. split; [done|].
    by rewrite <- !app_assoc.
  - eexists. rewrite Hinstall. split; [done|]. done.
Qed.

(** *** What a run may do, whatever the outside world does *)

Lemma emits_ret {A} (P : event → Prop) (a : A) : emits (W := W) P (mret a).
Proof. intros w tr. exists []. by rewrite app_nil_r. Qed.

Lemma emits_bind {A B} (P : event → Prop) (m : M A) (f : A → M B) :
  emits (W := W) P m → (∀ a, emits (W := W) P (f a)) → emits (W := W) P (m ≫= f).
Proof.
  intros Hm Hf w tr. destruct (Hm w tr) as (seg1 & E1 & F1).
  unfold mbind, M_bind. destruct (m (w, tr)) as [[a|e] [w1 tr1]]; simpl in E1; subst tr1.
  - destruct (Hf a w1 (tr ++ seg1)) as (seg2 & E2 & F2).
    exists (seg1 ++ seg2). rewrite E2, app_assoc. split; [done|by apply Forall_app].
  - by exists seg1.
Qed.

Lemma emits_try_except {A} (P : event → Prop) (m h : M A) (handles : exn → bool) :
  emits (W := W) P m → emits (W := W) P h → emits (W := W) P (try_except m handles h).
Proof.
  intros Hm Hh w tr. destruct (Hm w tr) as (seg1 & E1 & F1).
  unfold try_except. destruct (m (w, tr)) as [[a|e] [w1 tr1]]; simpl in E1; subst tr1.
  - by exists seg1.
  - destruct (handles e); [|by exists seg1].
    destruct (Hh w1 (tr ++ seg1)) as (seg2 & E2 & F2).
    exists (seg1 ++ seg2). rewrite E2, app_assoc. split; [done|by apply Forall_app].
Qed.

Lemma emits_emit (P : event → Prop) (ev : event) : P ev → emits (W := W) P (emit ev).
Proof. intros H w tr. exists [ev]. split; [done|by constructor]. Qed.

Lemma emits_which (P : event → Prop) (cmd : string) : P (Which cmd) → emits (W := W) P (which cmd).
Proof. intros H w tr. exists [Which cmd]. split; [done|by constructor]. Qed.

Lemma emits_nvm_dir_present (P : event → Prop) : P NvmDirExists → emits (W := W) P nvm_dir_present.
Proof. intros H w tr. exists [NvmDirExists]. split; [done|by constructor]. Qed.

Lemma emits_run_checked (P : event → Prop) (argv : list string) (cwd : option FS.path) :
  P (Run argv cwd) → emits (W := W) P (run_checked argv cwd).
Proof.
  intros H w tr. exists [Run argv cwd]. unfold run_checked.
  destruct (subprocess_run argv cwd w) as [o w']. split; [done|by constructor].
Qed.

Lemma emits_time_sleep (P : event → Prop) (seconds : Z) :
  P (Sleep seconds) → emits (W := W) P (time_sleep seconds).
Proof. intros H w tr. exists [Sleep seconds]. split; [done|by constructor]. Qed.

Lemma emits_for_each {A} (P : event → Prop) (body : A → M unit) (l : list A) :
  (∀ x, x ∈ l → emits (W := W) P (body x)) → emits (W := W) P (for_each body l).
Proof.
  induction l as [|x l IH]; intros H; [apply emits_ret|].
  simpl. apply emits_bind; [apply H; set_solver|].
  intros _. apply IH. intros y Hy. apply H. set_solver.
Qed.

Lemma emits_run_bash_with_retry (P : event → Prop) (command : string)
    (cwd : option FS.path) :
  P (bash command cwd) → P (Sleep RETRY_DELAY) → emits (W := W) P (_run_bash_with_retry command cwd).
Proof.
  intros Hrun Hsleep. unfold _run_bash_with_retry.
  induction (seq 0 MAX_RETRIES) as [|attempt rest IH]; [apply emits_ret|].
  cbn [retry_loop]. apply emits_bind.
  - apply emits_try_except.
    + apply emits_bind; [by apply emits_run_checked|]. intros _. apply emits_ret.
    + apply emits_bind; [|intros _; apply emits_ret].
      destruct (_ <? _)%nat; [by apply emits_time_sleep|apply emits_ret].
  - intros [|]; [apply emits_ret|apply IH].
Qed.

Lemma emits_install_by_bash (P : event → Prop) (tool command : string)
    (cwd : option FS.path) :
  P (Which tool) → P (bash command cwd) → P (Sleep RETRY_DELAY) →
  emits (W := W) P (present ← which tool;
           if present : bool then mret true else _run_bash_with_retry command cwd).
Proof.
  intros. apply emits_bind; [by apply emits_which|].
  intros [|]; [apply emits_ret|by apply emits_run_bash_with_retry].
Qed.

Lemma emits_install_with_spinner (P : event → Prop) (ui : bool) (name : string)
    (install_fn : M bool) :
  (∀ o, P (Ui o)) → emits (W := W) P install_fn → emits (W := W) P (_install_with_spinner ui name install_fn).
Proof.
  intros Hui Hf. unfold _install_with_spinner. destruct ui; [|done].
  apply emits_bind; [by apply emits_emit|]. intros _.
  apply emits_bind; [done|]. intros ok.
  apply emits_bind; [|intros _; apply emits_ret].
  destruct ok; by apply emits_emit.
Qed.

(** X8.  Whatever the outside world does, and however the run ends, a
    run of the step starts no process other than the installers of the
    tools it was asked for, each with its own working directory; it
    looks up no other tool, and it sleeps for [RETRY_DELAY] seconds
    only.  Without [install_python], [uv] and the Python tools are
    neither looked up nor installed. *)
Theorem dependencies_run_permitted (ctx : InstallContext) (w : W) :
  Forall (permitted (install_python ctx) (project_dir ctx))
         (snd (snd (run ctx (w, [])))).
Proof.
  set (P := permitted (install_python ctx) (project_dir ctx)).
  assert (∀ o, P (Ui o)) as Hui by done.
  assert (P (Sleep RETRY_DELAY)) as Hsleep by done.
  assert (∀ ev, ev ∈ permitted_runs (install_python ctx) (project_dir ctx) →
                match ev with Run _ _ => P ev | _ => True end) as Hrun.
  { intros [] Hev; done. }
  assert (∀ tool, tool ∈ all_tools (install_python ctx) → P (Which tool)) as Hwhich by done.
  assert (emits (W := W) P (run ctx)) as Hemits.
  { unfold run. cbv zeta.
    apply emits_bind.
    { apply emits_install_with_spinner; [done|].
      unfold install_nodejs. apply emits_bind.
      { apply emits_which, Hwhich. unfold all_tools. set_solver. }
      intros [|]; [apply emits_ret|].
      apply emits_bind; [by apply emits_nvm_dir_present|]. intros nvm.
      apply emits_bind.
      { destruct (negb nvm); [|apply emits_ret].
        apply emits_run_bash_with_retry; [|done].
        apply (Hrun (bash nvm_install_script None)). unfold permitted_runs. set_solver. }
      intros ok. destruct (negb ok); [apply emits_ret|].
      apply emits_run_bash_with_retry; [|done].
      apply (Hrun (bash nvm_install_node None)). unfold permitted_runs. set_solver. }
    intros ok_node. apply emits_bind.
    { destruct (install_python ctx) eqn:Hpy; [|apply emits_ret].
      apply emits_bind.
      { apply emits_install_with_spinner; [done|].
        apply emits_install_by_bash; [| |done].
        - apply Hwhich. unfold all_tools. set_solver.
        - apply (Hrun (bash uv_install_script None)). unfold permitted_runs. set_solver. }
      intros ok_uv. apply emits_bind; [|intros; apply emits_ret].
      apply emits_install_with_spinner; [done|].
      unfold install_python_tools. apply emits_try_except; [|apply emits_ret].
      apply emits_bind; [|intros; apply emits_ret].
      apply emits_for_each. intros tool Htool. unfold python_tool_body.
      apply emits_bind.
      { apply emits_which, Hwhich. unfold all_tools. set_solver. }
      intros [|]; [apply emits_ret|].
      apply emits_run_checked. apply (Hrun (uv_tool_install tool)).
      unfold permitted_runs. apply elem_of_app. right. apply elem_of_app. left.
      apply elem_of_cons. right. by apply list_elem_of_fmap_2. }
    intros installed. apply emits_bind.
    { apply emits_install_with_spinner; [done|].
      apply emits_install_by_bash; [| |done].
      - apply Hwhich. unfold all_tools. set_solver.
      - apply (Hrun (bash claude_install_script None)). unfold permitted_runs. set_solver. }
    intros ok_claude. apply emits_bind.
    { apply emits_install_with_spinner; [done|].
      apply emits_install_by_bash; [| |done].
      - apply Hwhich. unfold all_tools. set_solver.
      - apply (Hrun (bash qlty_install_script (Some (project_dir ctx)))).
        unfold permitted_runs. set_solver. }
    intros ok_qlty. apply emits_bind; [|intros; apply emits_ret].
    apply emits_install_with_spinner; [done|].
    apply emits_install_by_bash; [| |done].
    - apply Hwhich. unfold all_tools. set_solver.
    - apply (Hrun (bash dotenvx_install_script None)). unfold permitted_runs. set_solver. }
  destruct (Hemits w []) as (seg & -> & Hseg). done.
Qed.

End deps_more.

Section deps_more_examples.

Import DependenciesStep DependenciesTrace.

(** A machine with every tool: the run only looks them up. *)
Lemma dependencies_run_all_present_witness :
  ∃ tr,
    run (World0 := all_present) (new_context ["project"] true) (tt, [])
      = (Ok (set_config "installed_dependencies"
               (VList ["nodejs"; "uv"; "python_tools"; "claude_code"; "qlty"; "dotenvx"])
               (new_context ["project"] true)), (tt, tr))
    ∧ effects tr = Which <$> ["node"; "uv"; "ruff"; "mypy"; "basedpyright";
                              "claude"; "qlty"; "dotenvx"].
Proof.
  apply (dependencies_run_all_present (World0 := all_present)
           (new_context ["project"] true) tt).
  intros tool _. reflexivity.
Defined.

(** A machine without Node.js on which [bash] is missing. *)
Lemma dependencies_run_not_started_witness :
  ∃ tr,
    run (World0 := no_bash) (new_context ["project"] true) (tt, [])
      = (Raise FileNotFoundError, (tt, tr))
    ∧ effects tr = [Which "node"; NvmDirExists; bash nvm_install_script None].
Proof.
  apply (dependencies_run_not_started (World0 := no_bash)
           (new_context ["project"] true) tt tt FileNotFoundError);
    (reflexivity || discriminate).
Defined.

End deps_more_examples.
(** ** The file system: creating and restoring *)

Section fs_more.

Import FS.

Lemma apart_app_l (p q s : path) : apart p q → apart (p ++ s) q.
Proof.
  intros H. induction s as [|c s IH] using rev_ind; [by rewrite app_nil_r|].
  rewrite app_assoc. by apply apart_child.
Qed.

Lemma parent_child (p : path) (c : string) : parent (p </> c) = p.
Proof. unfold parent, child. by rewrite removelast_last. Qed.

Lemma child_ne_nil (p : path) (c : string) : p </> c ≠ [].
Proof. unfold child. by destruct p. Qed.

Lemma not_prefix_child (p : path) (c : string) : ¬ (p </> c) `prefix_of` p.
Proof.
  intros [k Hk]. apply (f_equal length) in Hk. unfold child in Hk.
  rewrite !length_app in Hk. simpl in Hk. lia.
Qed.

Lemma lookup_put_self (p : path) (v n n' : node) :
  put p v n = Ok n' → lookup p n' = Some v.
Proof.
  revert n n'. induction p as [|c p IH]; intros n n' Hput.
  { by injection Hput as <-. }
  destruct n as [|es]; [done|]. cbn [put] in Hput.
  destruct (put p v (default (Dir ∅) (es !! c))) as [sub|] eqn:Hsub; [|done].
  injection Hput as <-. cbn [lookup]. rewrite lookup_insert_eq. simpl. by eapply IH.
Qed.

(** Under a directory, [put] succeeds. *)
Lemma put_ok (p : path) (c : string) (v n : node) :
  is_dir p n = true → ∃ n', put (p </> c) v n = Ok n'.
Proof.
  unfold is_dir, child. revert n. induction p as [|d p IH]; intros n Hdir.
  { destruct n as [|es]; [done|]. by eexists. }
  destruct n as [|es]; [done|]. cbn [lookup] in Hdir.
  destruct (es !! d) as [x|] eqn:Hx; [|done]. simpl in Hdir.
  destruct (IH x Hdir) as [sub Hsub].
  eexists. simpl. rewrite Hx. simpl. by rewrite Hsub.
Qed.

(** What is there stays when something is put where nothing was: a
    file keeps its content, a directory stays a directory. *)
Lemma put_keeps_file (p q : path) (v n n' : node) (content : string) :
  put p v n = Ok n' → lookup p n = None →
  lookup q n = Some (File content) → lookup q n' = Some (File content).
Proof.
  revert q n n'. induction p as [|c p IH]; intros q n n' Hput Hnone Hq; [done|].
  destruct n as [|es]; [done|]. cbn [put] in Hput.
  destruct (put p v (default (Dir ∅) (es !! c))) as [sub|] eqn:Hsub; [|done].
  injection Hput as <-.
  destruct q as [|d q]; [done|]. cbn [lookup] in *.
  destruct (decide (c = d)) as [<-|Hne]; [|by rewrite lookup_insert_ne].
  rewrite lookup_insert_eq. simpl.
  destruct (es !! c) as [x|] eqn:Hx; [|done]. simpl in *. by eapply IH.
Qed.

Lemma put_keeps_dir (p q : path) (v n n' : node) :
  put p v n = Ok n' → lookup p n = None →
  is_dir q n = true → is_dir q n' = true.
Proof.
  unfold is_dir.
  revert q n n'. induction p as [|c p IH]; intros q n n' Hput Hnone Hq; [done|].
  destruct n as [|es]; [done|]. cbn [put] in Hput.
  destruct (put p v (default (Dir ∅) (es !! c))) as [sub|] eqn:Hsub; [|done].
  injection Hput as <-.
  destruct q as [|d q]; [done|]. cbn [lookup] in *.
  destruct (decide (c = d)) as [<-|Hne]; [|by rewrite lookup_insert_ne].
  rewrite lookup_insert_eq. simpl.
  destruct (es !! c) as [x|] eqn:Hx; [|done]. simpl in *. by eapply IH.
Qed.

Lemma mkdir_p_is_dir (p : path) (n n' : node) :
  mkdir_p p n = Ok n' → is_dir p n' = true.
Proof.
  unfold is_dir. revert n n'. induction p as [|c p IH]; intros n n' Hmk.
  { destruct n; [done|]. by injection Hmk as <-. }
  destruct n as [|es]; [done|]. cbn [mkdir_p] in Hmk.
  destruct (mkdir_p p (default (Dir ∅) (es !! c))) as [sub|] eqn:Hsub; [|done].
  injection Hmk as <-. cbn [lookup]. rewrite lookup_insert_eq. simpl. by eapply IH.
Qed.

Lemma mkdir_p_frame (p q : path) (n n' : node) :
  mkdir_p p n = Ok n' → apart p q → lookup q n' = lookup q n.
Proof.
  revert q n n'. induction p as [|c p IH]; intros q n n' Hmk Hpq.
  { destruct Hpq as [H _]. destruct H. apply prefix_nil. }
  destruct n as [|es]; [done|]. cbn [mkdir_p] in Hmk.
  destruct (mkdir_p p (default (Dir ∅) (es !! c))) as [sub|] eqn:Hsub; [|done].
  injection Hmk as <-.
  destruct q as [|d q].
  { destruct Hpq as [_ H]. destruct H. apply prefix_nil. }
  cbn [lookup]. destruct (decide (c = d)) as [<-|Hne]; [|by rewrite lookup_insert_ne].
  apply apart_cons in Hpq. rewrite lookup_insert_eq. simpl.
  rewrite (IH q _ _ Hsub Hpq).
  destruct (es !! c) as [x|]; simpl; [done|].
  destruct q as [|d q]; [|done].
  destruct Hpq as [_ H]. destruct H. apply prefix_nil.
Qed.

(** [mkdir -p] removes and changes nothing. *)
Lemma mkdir_p_keeps_file (p q : path) (n n' : node) (content : string) :
  mkdir_p p n = Ok n' →
  lookup q n = Some (File content) → lookup q n' = Some (File content).
Proof.
  revert q n n'. induction p as [|c p IH]; intros q n n' Hmk Hq.
  { destruct n; [done|]. by injection Hmk as <-. }
  destruct n as [|es]; [done|]. cbn [mkdir_p] in Hmk.
  destruct (mkdir_p p (default (Dir ∅) (es !! c))) as [sub|] eqn:Hsub; [|done].
  injection Hmk as <-.
  destruct q as [|d q]; [done|]. cbn [lookup] in *.
  destruct (decide (c = d)) as [<-|Hne]; [|by rewrite lookup_insert_ne].
  rewrite lookup_insert_eq. simpl.
  destruct (es !! c) as [x|] eqn:Hx; [|done]. simpl in *. by eapply IH.
Qed.

Lemma mkdir_p_keeps_dir (p q : path) (n n' : node) :
  mkdir_p p n = Ok n' → is_dir q n = true → is_dir q n' = true.
Proof.
  unfold is_dir. revert q n n'. induction p as [|c p IH]; intros q n n' Hmk Hq.
  { destruct n; [done|]. by injection Hmk as <-. }
  destruct n as [|es]; [done|]. cbn [mkdir_p] in Hmk.
  destruct (mkdir_p p (default (Dir ∅) (es !! c))) as [sub|] eqn:Hsub; [|done].
  injection Hmk as <-.
  destruct q as [|d q]; [done|]. cbn [lookup] in *.
  destruct (decide (c = d)) as [<-|Hne]; [|by rewrite lookup_insert_ne].
  rewrite lookup_insert_eq. simpl.
  destruct (es !! c) as [x|] eqn:Hx; [|done]. simpl in *. by eapply IH.
Qed.

(** A directory that is not inside what is removed stays a
    directory. *)
Lemma is_dir_remove (p q : path) (n : node) :
  ¬ p `prefix_of` q → is_dir q n = true → is_dir q (remove p n) = true.
Proof.
  unfold is_dir. revert q n. induction p as [|c p IH]; intros q n Hpq Hq.
  { destruct Hpq. apply prefix_nil. }
  destruct n as [|es]; [done|].
  destruct q as [|d q].
  { by destruct p. }
  destruct (decide (c = d)) as [<-|Hne].
  - destruct p as [|c' p].
    { destruct Hpq. apply prefix_cons, prefix_nil. }
    rewrite remove_deeper, !lookup_cons_Dir, lookup_alter_eq.
    rewrite lookup_cons_Dir in Hq.
    destruct (es !! c) as [x|]; simpl in *; [|done].
    apply IH; [|done]. intros H. apply Hpq. by apply prefix_cons.
  - destruct p as [|c' p].
    + rewrite remove_single, lookup_cons_Dir, lookup_delete_ne by done.
      by rewrite lookup_cons_Dir in Hq.
    + rewrite remove_deeper, lookup_cons_Dir, lookup_alter_ne by done.
      by rewrite lookup_cons_Dir in Hq.
Qed.

Lemma copytree_copy (src dst : path) (r r' : node) :
  copytree src dst r = Ok r' → lookup dst r' = lookup src r.
Proof.
  unfold copytree. intros H.
  destruct (lookup src r) as [[|es]|]; try done.
  destruct (exists_ dst r); [done|]. by eapply lookup_put_self.
Qed.

Lemma copytree_ok (src : path) (dst : path) (c : string) (r : node) :
  is_dir src r = true → is_dir dst r = true → exists_ (dst </> c) r = false →
  ∃ r', copytree src (dst </> c) r = Ok r'.
Proof.
  unfold copytree, is_dir. intros Hsrc Hdst Hnew.
  destruct (lookup src r) as [[|es]|]; try done.
  rewrite Hnew. apply put_ok. unfold is_dir. by destruct (lookup dst r) as [[]|].
Qed.

(** A separator-free component splits off unchanged. *)
Lemma split_go_component (cur : list ascii) (x rest : string) :
  no_slash x = true →
  split_go cur (x +:+ String "/" rest)
  = string_of_list_ascii (rev cur ++ list_ascii_of_string x) :: split_go [] rest.
Proof.
  revert cur. induction x as [|a x IH]; intros cur Hx.
  { simpl. by rewrite app_nil_r. }
  simpl in Hx. apply andb_true_iff in Hx as [Ha Hx]. apply negb_true_iff in Ha.
  simpl. rewrite Ha, IH by done. simpl. by rewrite <- app_assoc.
Qed.

Lemma split_go_last (cur : list ascii) (x : string) :
  no_slash x = true →
  split_go cur x = [string_of_list_ascii (rev cur ++ list_ascii_of_string x)].
Proof.
  revert cur. induction x as [|a x IH]; intros cur Hx.
  { simpl. by rewrite app_nil_r. }
  simpl in Hx. apply andb_true_iff in Hx as [Ha Hx]. apply negb_true_iff in Ha.
  simpl. rewrite Ha, IH by done. simpl. by rewrite <- app_assoc.
Qed.

(** [Path(str(p))] is [p] again. *)
Lemma of_str_str (p : path) :
  p ≠ [] → Forall (λ c, no_slash c = true) p → of_str (str p) = p.
Proof.
  unfold of_str, str, PyStr.join. intros Hne Hall.
  induction Hall as [|c p Hc Hall IH]; [done|].
  destruct p as [|c' p].
  - simpl. rewrite split_go_last by done. simpl.
    by rewrite string_of_list_ascii_of_string.
  - change (String.concat "/" (c :: c' :: p))
      with (c +:+ String "/" (String.concat "/" (c' :: p))).
    rewrite split_go_component by done. simpl rev. cbn [app].
    rewrite string_of_list_ascii_of_string. f_equal. by apply IH.
Qed.

End fs_more.
(** ** The Bootstrap step: layout, backup and rollback *)

Section bootstrap.

Import BootstrapStep.

Lemma bootstrap_root_say (ctx : InstallContext) (o : output) (w : sys) :
  root (say ctx o w) = root w.
Proof. unfold say. by destruct (ui ctx). Qed.

Lemma bootstrap_clock_say (ctx : InstallContext) (o : output) (w : sys) :
  clock (say ctx o w) = clock w.
Proof. unfold say. by destruct (ui ctx). Qed.

Lemma is_dir_parent (p : FS.path) (c : string) (n : FS.node) :
  FS.exists_ (p </> c) n = true → FS.is_dir p n = true.
Proof.
  unfold FS.exists_, FS.is_dir. rewrite lookup_child.
  by destruct (FS.lookup p n) as [[]|].
Qed.

Lemma is_dir_exists (p : FS.path) (n : FS.node) :
  FS.is_dir p n = true → FS.exists_ p n = true.
Proof. unfold FS.exists_, FS.is_dir. by destruct (FS.lookup p n). Qed.

Lemma backup_name_not_claude (stamp : string) : ".claude" ≠ ".claude.backup." +:+ stamp.
Proof. intros H. vm_compute in H. discriminate H. Qed.

(** The loop that creates the subdirectories. *)
Lemma mkdirs_is_dir (base : FS.path) (subs : list FS.path) (r r' : FS.node) :
  foldM (λ subdir, FS.mkdir_p (base ++ subdir)) subs r = Ok r' →
  ∀ subdir, subdir ∈ subs → FS.is_dir (base ++ subdir) r' = true.
Proof.
  revert r. induction subs as [|s subs IH]; intros r Hrun subdir Hin.
  { by apply elem_of_nil in Hin. }
  simpl in Hrun. destruct (FS.mkdir_p (base ++ s) r) as [r1|] eqn:H1; [|done].
  simpl in Hrun. apply elem_of_cons in Hin as [->|Hin]; [|by eapply IH].
  clear IH. apply mkdir_p_is_dir in H1.
  revert r1 H1 Hrun. induction subs as [|s' subs IH]; intros r1 H1 Hrun.
  { by injection Hrun as <-. }
  simpl in Hrun. destruct (FS.mkdir_p (base ++ s') r1) as [r2|] eqn:H2; [|done].
  apply (IH r2); [|done]. by eapply mkdir_p_keeps_dir.
Qed.

Lemma mkdirs_keeps_dir (base : FS.path) (subs : list FS.path) (r r' : FS.node)
    (q : FS.path) :
  foldM (λ subdir, FS.mkdir_p (base ++ subdir)) subs r = Ok r' →
  FS.is_dir q r = true → FS.is_dir q r' = true.
Proof.
  revert r. induction subs as [|s subs IH]; intros r Hrun Hq.
  { by injection Hrun as <-. }
  simpl in Hrun. destruct (FS.mkdir_p (base ++ s) r) as [r1|] eqn:H1; [|done].
  apply (IH r1); [done|]. by eapply mkdir_p_keeps_dir.
Qed.

Lemma mkdirs_keeps_file (base : FS.path) (subs : list FS.path) (r r' : FS.node)
    (q : FS.path) (content : string) :
  foldM (λ subdir, FS.mkdir_p (base ++ subdir)) subs r = Ok r' →
  FS.lookup q r = Some (FS.File content) → FS.lookup q r' = Some (FS.File content).
Proof.
  revert r. induction subs as [|s subs IH]; intros r Hrun Hq.
  { by injection Hrun as <-. }
  simpl in Hrun. destruct (FS.mkdir_p (base ++ s) r) as [r1|] eqn:H1; [|done].
  apply (IH r1); [done|]. by eapply mkdir_p_keeps_file.
Qed.

Lemma mkdirs_frame (base : FS.path) (subs : list FS.path) (r r' : FS.node)
    (q : FS.path) :
  foldM (λ subdir, FS.mkdir_p (base ++ subdir)) subs r = Ok r' →
  FS.apart base q → FS.lookup q r' = FS.lookup q r.
Proof.
  revert r. induction subs as [|s subs IH]; intros r Hrun Hq.
  { by injection Hrun as <-. }
  simpl in Hrun. destruct (FS.mkdir_p (base ++ s) r) as [r1|] eqn:H1; [|done].
  rewrite (IH r1) by done. eapply mkdir_p_frame; [done|]. by apply apart_app_l.
Qed.

(** The ways through [run]: what was done before the directories are
    created, and what the context records. *)
Lemma run_cases (ctx ctx' : InstallContext) (w w' : sys) :
  let claude_dir := project_dir ctx </> ".claude" in
  let backup_path := project_dir ctx </> (".claude.backup." +:+ clock w) in
  run ctx w = Ok (ctx', w') →
  ∃ r0 r1,
    FS.mkdir_p claude_dir r0 = Ok r1
    ∧ foldM (λ subdir, FS.mkdir_p (claude_dir ++ subdir)) subdirs r1 = Ok (root w')
    ∧ ((FS.exists_ claude_dir (root w) = false ∧ r0 = root w
        ∧ ctx' = set_config "is_upgrade" (VBool false) ctx)
       ∨ (FS.exists_ claude_dir (root w) = true ∧ r0 = root w
          ∧ (local_mode ctx = true
             ∨ ∃ e, FS.copytree claude_dir backup_path (root w) = Raise e)
          ∧ ctx' = set_config "is_upgrade" (VBool true) ctx)
       ∨ (FS.exists_ claude_dir (root w) = true ∧ local_mode ctx = false
          ∧ FS.copytree claude_dir backup_path (root w) = Ok r0
          ∧ ctx' = set_config "backup_path" (VStr (FS.str backup_path))
                     (set_config "is_upgrade" (VBool true) ctx))).
Proof.
  intros claude_dir backup_path Hrun. unfold run in Hrun.
  fold claude_dir in Hrun.
  match type of Hrun with
  | (let '(c, s) := ?X in _) = _ => destruct X as [ctx1 w1] eqn:Hpre
  end.
  unfold mbind, result_bind in Hrun. revert Hrun.
  destruct (FS.mkdir_p claude_dir (root w1)) as [r1|] eqn:H1; [|done].
  cbv beta iota.
  destruct (foldM _ _ r1) as [r2|] eqn:H2; [|done].
  intros [= <- <-]. exists (root w1), r1. rewrite bootstrap_root_say.
  split_and!; [done|done|].
  destruct (FS.exists_ claude_dir (root w)) eqn:Hex.
  - destruct (local_mode ctx) eqn:Hlocal; cbn [negb] in Hpre.
    + injection Hpre as <- <-. rewrite bootstrap_root_say.
      right. left. split_and!; auto.
    + rewrite !bootstrap_root_say, !bootstrap_clock_say in Hpre.
      fold backup_path in Hpre.
      destruct (FS.copytree claude_dir backup_path (root w)) as [r0|e] eqn:Hcopy.
      * injection Hpre as <- <-. rewrite bootstrap_root_say.
        right. right. split_and!; auto.
      * injection Hpre as <- <-. rewrite !bootstrap_root_say.
        right. left. split_and!; eauto.
  - injection Hpre as <- <-. rewrite bootstrap_root_say. left. split_and!; auto.
Qed.

(** X9.  When [run] returns, [.claude] and each of its five
    subdirectories is a directory, and [is_upgrade] in the context
    tells whether [.claude] was there before. *)
Theorem bootstrap_run_creates_layout (ctx ctx' : InstallContext) (w w' : sys) :
  let claude_dir := project_dir ctx </> ".claude" in
  run ctx w = Ok (ctx', w') →
  FS.is_dir claude_dir (root w') = true
  ∧ (∀ subdir, subdir ∈ subdirs → FS.is_dir (claude_dir ++ subdir) (root w') = true)
  ∧ config ctx' !! "is_upgrade" = Some (VBool (FS.exists_ claude_dir (root w))).
Proof.
  intros claude_dir Hrun.
  destruct (run_cases _ _ _ _ Hrun) as (r0 & r1 & H1 & H2 & Hcases).
  fold claude_dir in H1, H2, Hcases. split_and!.
  - eapply mkdirs_keeps_dir; [done|]. by eapply mkdir_p_is_dir.
  - by eapply mkdirs_is_dir.
  - destruct Hcases as [(-> & _ & ->)|[(-> & _ & _ & ->)|(-> & _ & _ & ->)]]; simpl;
      repeat (rewrite lookup_insert_ne by done); by rewrite lookup_insert_eq.
Qed.


(** A fresh project: the layout is created. *)
Lemma bootstrap_run_creates_layout_witness :
  ∃ ctx' w',
    run (new_context ["project"] true) fresh_project = Ok (ctx', w')
    ∧ FS.is_dir ["project"; ".claude"; "rules"; "custom"] (root w') = true
    ∧ config ctx' !! "is_upgrade" = Some (VBool false).
Proof.
  destruct (run (new_context ["project"] true) fresh_project) as [[ctx' w']|e] eqn:Hrun;
    [|by vm_compute in Hrun].
  exists ctx', w'. split; [reflexivity|].
  destruct (bootstrap_run_creates_layout _ _ _ _ Hrun) as (_ & Hsub & Hup).
  split; [|exact Hup].
  apply (Hsub ["rules"; "custom"]). unfold subdirs. set_solver.
Defined.

Lemma copytree_keeps_file (src dst q : FS.path) (r r' : FS.node) (content : string) :
  FS.copytree src dst r = Ok r' →
  FS.lookup q r = Some (FS.File content) → FS.lookup q r' = Some (FS.File content).
Proof.
  unfold FS.copytree, FS.exists_. intros H Hq.
  destruct (FS.lookup src r) as [[|es]|]; try done.
  destruct (FS.lookup dst r) eqn:Hdst; [done|]. by eapply put_keeps_file.
Qed.

(** X10.  [run] removes and changes no file: a file that was there
    before a run that returns is there afterwards, with its content. *)
Theorem bootstrap_run_keeps_files (ctx ctx' : InstallContext) (w w' : sys)
    (q : FS.path) (content : string) :
  run ctx w = Ok (ctx', w') →
  FS.lookup q (root w) = Some (FS.File content) →
  FS.lookup q (root w') = Some (FS.File content).
Proof.
  intros Hrun Hq.
  destruct (run_cases _ _ _ _ Hrun) as (r0 & r1 & H1 & H2 & Hcases).
  eapply mkdirs_keeps_file; [done|]. eapply mkdir_p_keeps_file; [done|].
  destruct Hcases as [(_ & -> & _)|[(_ & -> & _)|(_ & _ & Hcopy & _)]]; [done|done|].
  by eapply copytree_keeps_file.
Qed.

(** The user's rule survives a run on an installed project. *)
Lemma bootstrap_run_keeps_files_witness :
  ∃ ctx' w',
    run (new_context ["project"] true) installed_project = Ok (ctx', w')
    ∧ FS.lookup ["project"; ".claude"; "rules"; "custom"; "mine.md"] (root w')
      = Some (FS.File "my rule").
Proof.
  destruct (run (new_context ["project"] true) installed_project)
    as [[ctx' w']|e] eqn:Hrun; [|by vm_compute in Hrun].
  exists ctx', w'. split; [reflexivity|].
  apply (bootstrap_run_keeps_files _ _ _ _ _ _ Hrun). reflexivity.
Defined.

(** An upgrade outside local mode, with [.claude] a directory and the
    backup name free: the backup is made. *)
Lemma run_upgrade (ctx ctx' : InstallContext) (w w' : sys) :
  let claude_dir := project_dir ctx </> ".claude" in
  let backup_path := project_dir ctx </> (".claude.backup." +:+ clock w) in
  local_mode ctx = false →
  FS.is_dir claude_dir (root w) = true →
  FS.exists_ backup_path (root w) = false →
  run ctx w = Ok (ctx', w') →
  ∃ r0 r1,
    FS.copytree claude_dir backup_path (root w) = Ok r0
    ∧ FS.mkdir_p claude_dir r0 = Ok r1
    ∧ foldM (λ subdir, FS.mkdir_p (claude_dir ++ subdir)) subdirs r1 = Ok (root w')
    ∧ ctx' = set_config "backup_path" (VStr (FS.str backup_path))
               (set_config "is_upgrade" (VBool true) ctx).
Proof.
  intros claude_dir backup_path Hlocal Hdir Hfree Hrun.
  destruct (run_cases _ _ _ _ Hrun) as (r0 & r1 & H1 & H2 & Hcases).
  fold claude_dir backup_path in H1, H2, Hcases.
  pose proof (is_dir_exists _ _ Hdir) as Hex.
  destruct Hcases as [(Hno & _)|[(_ & _ & Hwhy & _)|(_ & _ & Hcopy & ->)]].
  - congruence.
  - destruct Hwhy as [?|[e He]]; [congruence|].
    destruct (copytree_ok claude_dir (project_dir ctx) (".claude.backup." +:+ clock w)
                (root w)) as [r Hr]; [done|by eapply is_dir_parent|done|].
    fold backup_path in Hr. congruence.
  - by exists r0, r1.
Qed.

Lemma apart_claude_backup (dir : FS.path) (stamp : string) (subdir : FS.path) :
  FS.apart ((dir </> ".claude") ++ subdir) (dir </> (".claude.backup." +:+ stamp)).
Proof. apply apart_app_l, apart_siblings, backup_name_not_claude. Qed.

(** X11.  On an upgrade outside local mode, with [.claude] a directory
    and the backup name not taken, a run that returns has recorded the
    backup path in the context, and the backup holds the tree that
    [.claude] held before the run. *)
Theorem bootstrap_run_backs_up (ctx ctx' : InstallContext) (w w' : sys) :
  let claude_dir := project_dir ctx </> ".claude" in
  let backup_path := project_dir ctx </> (".claude.backup." +:+ clock w) in
  local_mode ctx = false →
  FS.is_dir claude_dir (root w) = true →
  FS.exists_ backup_path (root w) = false →
  run ctx w = Ok (ctx', w') →
  config ctx' !! "backup_path" = Some (VStr (FS.str backup_path))
  ∧ FS.lookup backup_path (root w') = FS.lookup claude_dir (root w).
Proof.
  intros claude_dir backup_path Hlocal Hdir Hfree Hrun.
  destruct (run_upgrade _ _ _ _ Hlocal Hdir Hfree Hrun)
    as (r0 & r1 & Hcopy & H1 & H2 & ->).
  fold claude_dir backup_path in Hcopy, H1, H2. split.
  { simpl. by rewrite lookup_insert_eq. }
  rewrite (mkdirs_frame _ _ _ _ _ H2)
    by (rewrite <- (app_nil_r claude_dir); apply apart_claude_backup).
  rewrite (mkdir_p_frame _ _ _ _ H1)
    by (rewrite <- (app_nil_r claude_dir); apply apart_claude_backup).
  by eapply copytree_copy.
Qed.

Lemma bootstrap_run_backs_up_witness :
  ∃ ctx' w',
    run (new_context ["project"] true) installed_project = Ok (ctx', w')
    ∧ config ctx' !! "backup_path"
      = Some (VStr "project/.claude.backup.20240101_120000")
    ∧ FS.lookup ["project"; ".claude.backup.20240101_120000"; "hooks"; "check.py"]
        (root w')
      = Some (FS.File "pass").
Proof.
  destruct (run (new_context ["project"] true) installed_project)
    as [[ctx' w']|e] eqn:Hrun; [|by vm_compute in Hrun].
  exists ctx', w'. split; [reflexivity|].
  destruct (bootstrap_run_backs_up (new_context ["project"] true) ctx'
              installed_project w' eq_refl eq_refl eq_refl Hrun) as [Hpath Hcopy].
  split; [exact Hpath|].
  change ["project"; ".claude.backup.20240101_120000"; "hooks"; "check.py"]
    with ((project_dir (new_context ["project"] true)
             </> (".claude.backup." +:+ clock installed_project))
          ++ ["hooks"; "check.py"]).
  rewrite lookup_app, Hcopy. reflexivity.
Defined.


Lemma backup_path_round_trip (dir : FS.path) (stamp : string) :
  Forall (λ c, no_slash c = true) dir → no_slash stamp = true →
  let backup_path := dir </> (".claude.backup." +:+ stamp) in
  FS.of_str (FS.str backup_path) = backup_path ∧ FS.str backup_path ≠ "".
Proof.
  intros Hdir Hstamp backup_path.
  assert (FS.of_str (FS.str backup_path) = backup_path) as Hrt.
  { apply of_str_str; [apply child_ne_nil|].
    apply Forall_app. split; [done|]. by repeat constructor. }
  split; [done|]. intros Hempty. rewrite Hempty in Hrt.
  unfold backup_path, FS.child in Hrt. destruct dir as [|c [|c' dir]]; done.
Qed.

(** X12.  [rollback] undoes an upgrade.  After a run that made its
    backup (outside local mode, [.claude] a directory, the backup name
    free, no separator inside a component of the project path),
    [rollback] with the context of that run returns; [.claude] then
    holds exactly the tree it held before the run, the backup is gone,
    and every path apart from the two is as it was before the run. *)
Theorem bootstrap_rollback_restores (ctx ctx' : InstallContext) (w w' : sys) :
  let claude_dir := project_dir ctx </> ".claude" in
  let backup_path := project_dir ctx </> (".claude.backup." +:+ clock w) in
  local_mode ctx = false →
  Forall (λ c, no_slash c = true) (project_dir ctx) →
  no_slash (clock w) = true →
  FS.is_dir claude_dir (root w) = true →
  FS.exists_ backup_path (root w) = false →
  run ctx w = Ok (ctx', w') →
  ∃ w'',
    rollback ctx' w' = Ok w''
    ∧ FS.lookup claude_dir (root w'') = FS.lookup claude_dir (root w)
    ∧ FS.exists_ backup_path (root w'') = false
    ∧ ∀ q, FS.apart claude_dir q → FS.apart backup_path q →
        FS.lookup q (root w'') = FS.lookup q (root w).
Proof.
  intros claude_dir backup_path Hlocal Hslash Hclock Hdir Hfree Hrun.
  destruct (run_upgrade _ _ _ _ Hlocal Hdir Hfree Hrun)
    as (r0 & r1 & Hcopy & H1 & H2 & ->).
  fold claude_dir backup_path in Hcopy, H1, H2.
  destruct (backup_path_round_trip _ _ Hslash Hclock) as [Hrt Hne].
  fold backup_path in Hrt, Hne.
  assert (FS.apart claude_dir backup_path) as Hapart.
  { rewrite <- (app_nil_r claude_dir). apply apart_claude_backup. }
  (* the state the run has left *)
  assert (∀ q, FS.apart claude_dir q → FS.lookup q (root w') = FS.lookup q r0) as Hframe.
  { intros q Hq. rewrite (mkdirs_frame _ _ _ _ _ H2) by done.
    by eapply mkdir_p_frame. }
  assert (FS.is_dir claude_dir (root w') = true) as Hdir'.
  { eapply mkdirs_keeps_dir; [done|]. by eapply mkdir_p_is_dir. }
  destruct (FS.lookup claude_dir (root w)) as [[|es]|] eqn:Hclaude;
    try (by unfold FS.is_dir in Hdir; rewrite Hclaude in Hdir).
  assert (FS.lookup backup_path (root w') = Some (FS.Dir es)) as Hbackup.
  { rewrite Hframe by done. rewrite (copytree_copy _ _ _ _ Hcopy). done. }
  (* the rollback *)
  unfold rollback. simpl config. rewrite lookup_insert_eq.
  cbn [project_dir set_config]. fold backup_path claude_dir.
  destruct (String.eqb_spec (FS.str backup_path) "") as [|_]; [done|]. cbn [negb].
  rewrite Hrt. unfold FS.exists_ at 1. rewrite Hbackup.
  rewrite (is_dir_exists _ _ Hdir').
  unfold FS.rmtree. unfold FS.is_dir in Hdir'.
  destruct (FS.lookup claude_dir (root w')) as [[|es']|] eqn:Hclaude'; try done.
  unfold mbind at 1, result_bind at 1.
  set (r2 := FS.remove claude_dir (root w')).
  assert (FS.is_dir (project_dir ctx) (root w') = true) as Hproject.
  { apply (is_dir_parent _ ".claude"). fold claude_dir. unfold FS.exists_.
    by rewrite Hclaude'. }
  assert (FS.is_dir (project_dir ctx) r2 = true) as Hproject2.
  { apply is_dir_remove; [apply not_prefix_child|done]. }
  assert (FS.lookup backup_path r2 = Some (FS.Dir es)) as Hbackup2.
  { unfold r2. by rewrite lookup_remove_apart. }
  unfold FS.move. rewrite Hbackup2. unfold claude_dir at 1. rewrite parent_child.
  rewrite Hproject2.
  destruct (put_ok (project_dir ctx) ".claude" (FS.Dir es) (FS.remove backup_path r2))
    as [r3 Hput].
  { apply is_dir_remove; [apply not_prefix_child|done]. }
  fold claude_dir in Hput. rewrite Hput.
  eexists. split; [done|]. simpl root. split_and!.
  - by eapply lookup_put_self.
  - unfold FS.exists_. rewrite (lookup_put_apart _ _ _ _ _ Hapart Hput).
    rewrite lookup_remove_self; [done|apply child_ne_nil].
  - intros q Hq1 Hq2. rewrite (lookup_put_apart _ _ _ _ _ Hq1 Hput).
    rewrite lookup_remove_apart by done. unfold r2.
    rewrite lookup_remove_apart by done. rewrite Hframe by done.
    by eapply copytree_frame.
Qed.

(** An upgrade of the installed project, rolled back: the hook and the
    user's file beside [.claude] are as before, the directories the run
    created are gone again. *)
Lemma bootstrap_rollback_restores_witness :
  ∃ ctx' w' w'',
    run (new_context ["project"] true) installed_project = Ok (ctx', w')
    ∧ rollback ctx' w' = Ok w''
    ∧ FS.lookup ["project"; ".claude"] (root w'')
      = FS.lookup ["project"; ".claude"] (root installed_project)
    ∧ FS.lookup ["project"; "README.md"] (root w'') = Some (FS.File "about").
Proof.
  destruct (run (new_context ["project"] true) installed_project)
    as [[ctx' w']|e] eqn:Hrun; [|by vm_compute in Hrun].
  destruct (bootstrap_rollback_restores (new_context ["project"] true) ctx'
              installed_project w') as (w'' & Hback & Hsame & _ & Hframe);
    [reflexivity|by repeat constructor|reflexivity|reflexivity|reflexivity|exact Hrun|].
  exists ctx', w', w''. split; [reflexivity|]. split; [exact Hback|].
  split; [exact Hsame|].
  rewrite (Hframe ["project"; "README.md"]); [reflexivity| |].
  - apply (apart_siblings ["project"]). discriminate.
  - apply (apart_siblings ["project"]). discriminate.
Defined.

End bootstrap.
(** ** Migration: what it leaves alone, its backup, and running it
    twice *)

Section migration_more.

Import Migration.

Variable order : list string → list string.

Lemma now_say (o : output) (w : sys) : now (say o w) = now w.
Proof. done. Qed.

Lemma now_say_all (l : list output) (w : sys) : now (say_all l w) = now w.
Proof.
  unfold say_all. revert w. induction l as [|o l IH]; intros w; [done|].
  simpl. by rewrite IH.
Qed.

(** Flattening works inside the source directory. *)
Lemma flatten_subdir_frame (source : string) (source_dir : FS.path) (old_subdir : string)
    (w w' : sys) (q : FS.path) :
  flatten_subdir order source source_dir old_subdir w = Ok w' →
  FS.apart source_dir q →
  FS.lookup q (root w') = FS.lookup q (root w).
Proof.
  intros Hrun Hq. eapply flatten_subdir_keeps; [done|by apply apart_child|].
  intros md _. right. by apply apart_child.
Qed.

Lemma flatten_source_frame (rules_dir : FS.path) (source : string) (w w' : sys)
    (q : FS.path) :
  flatten_source order rules_dir source w = Ok w' →
  FS.apart rules_dir q →
  FS.lookup q (root w') = FS.lookup q (root w).
Proof.
  unfold flatten_source. intros Hrun Hq.
  destruct (FS.exists_ (rules_dir </> source) (root w)); cbn [negb] in Hrun;
    [|by injection Hrun as <-].
  revert w Hrun. generalize OLD_SUBDIRS. intros subs.
  induction subs as [|s subs IH]; intros w Hrun.
  { by injection Hrun as <-. }
  simpl in Hrun.
  destruct (flatten_subdir order source (rules_dir </> source) s w) as [w1|] eqn:H1;
    [|done].
  rewrite (IH w1) by done. eapply flatten_subdir_frame; [done|]. by apply apart_child.
Qed.

Lemma flatten_sources_frame (rules_dir : FS.path) (sources : list string) (w w' : sys)
    (q : FS.path) :
  foldM (flatten_source order rules_dir) sources w = Ok w' →
  FS.apart rules_dir q →
  FS.lookup q (root w') = FS.lookup q (root w).
Proof.
  revert w. induction sources as [|s sources IH]; intros w Hrun Hq.
  { by injection Hrun as <-. }
  simpl in Hrun.
  destruct (flatten_source order rules_dir s w) as [w1|] eqn:H1; [|done].
  rewrite (IH w1) by done. by eapply flatten_source_frame.
Qed.

(** The steps of a migration that completes. *)
Lemma run_migration_cases (project_dir : FS.path) (non_interactive : bool) (w w' : sys) :
  let rules_dir := rules_dir_of project_dir in
  let backup_dir := project_dir </> ".claude" </> ("rules.backup." +:+ pretty (now w)) in
  run_migration order project_dir non_interactive w = Ok w' →
  (needs_migration project_dir (root w) = false ∧ w' = w)
  ∨ (needs_migration project_dir (root w) = true
     ∧ ∃ w1 w2,
         FS.copytree rules_dir backup_dir (root w) = Ok (root w1)
         ∧ foldM (flatten_source order rules_dir) SOURCES w1 = Ok w2
         ∧ ((FS.exists_ (rules_dir </> "config.yaml") (root w2) = false
             ∧ root w' = root w2)
            ∨ FS.unlink (rules_dir </> "config.yaml") (root w2) = Ok (root w'))).
Proof.
  intros rules_dir backup_dir Hrun. unfold run_migration in Hrun.
  destruct (needs_migration project_dir (root w)) eqn:Hneeds; cbn [negb] in Hrun;
    [right|left; by injection Hrun as <-].
  split; [done|]. fold rules_dir in Hrun.
  unfold mbind at 1, result_bind at 1 in Hrun.
  destruct (if negb non_interactive then _ else _) as [reply|]; [|done].
  destruct (negb (bool_decide _)); [done|].
  rewrite !root_say, root_say_all, !now_say, now_say_all in Hrun.
  fold backup_dir in Hrun.
  unfold mbind at 1, result_bind at 1 in Hrun.
  destruct (FS.copytree rules_dir backup_dir (root w)) as [r1|] eqn:Hcopy; [|done].
  unfold mbind at 1, result_bind at 1 in Hrun.
  destruct (foldM (flatten_source order rules_dir) SOURCES _) as [w2|] eqn:Hflat; [|done].
  eexists _, w2. split; [|split; [exact Hflat|]].
  { by rewrite root_say. }
  unfold mbind at 1, result_bind at 1 in Hrun.
  destruct (FS.exists_ (rules_dir </> "config.yaml") (root w2)) eqn:Hcfg.
  - unfold mbind at 1, result_bind at 1 in Hrun.
    destruct (FS.unlink _ (root w2)) as [r3|] eqn:Hunlink; [|done].
    injection Hrun as <-. right. by rewrite !root_say.
  - injection Hrun as <-. left. by rewrite !root_say.
Qed.

Lemma apart_rules_backup (project_dir : FS.path) (stamp : string) :
  FS.apart (rules_dir_of project_dir)
           (project_dir </> ".claude" </> ("rules.backup." +:+ stamp)).
Proof.
  apply apart_siblings. intros H. symmetry in H. by apply backup_name_not_rules in H.
Qed.

(** X13.  A migration that completes touches nothing outside the rules
    directory and its backup: every path apart from the two is as it
    was. *)
Theorem migration_frame (project_dir : FS.path) (non_interactive : bool) (w w' : sys)
    (q : FS.path) :
  let rules_dir := rules_dir_of project_dir in
  let backup_dir := project_dir </> ".claude" </> ("rules.backup." +:+ pretty (now w)) in
  run_migration order project_dir non_interactive w = Ok w' →
  FS.apart rules_dir q → FS.apart backup_dir q →
  FS.lookup q (root w') = FS.lookup q (root w).
Proof.
  intros rules_dir backup_dir Hrun Hq1 Hq2.
  destruct (run_migration_cases _ _ _ _ Hrun)
    as [[_ ->]|(_ & w1 & w2 & Hcopy & Hflat & Hcfg)]; [done|].
  fold rules_dir backup_dir in Hcopy, Hflat, Hcfg.
  assert (FS.lookup q (root w2) = FS.lookup q (root w)) as H2.
  { rewrite (flatten_sources_frame _ _ _ _ _ Hflat Hq1). by eapply copytree_frame. }
  destruct Hcfg as [[_ ->]|Hunlink]; [done|].
  rewrite <- H2. eapply unlink_frame; [done|]. by apply apart_child.
Qed.

(** X14.  When a migration was needed and completes, the backup
    directory [rules.backup.<timestamp>] holds the rules directory
    exactly as it was before the migration. *)
Theorem migration_backup (project_dir : FS.path) (non_interactive : bool) (w w' : sys) :
  let rules_dir := rules_dir_of project_dir in
  let backup_dir := project_dir </> ".claude" </> ("rules.backup." +:+ pretty (now w)) in
  needs_migration project_dir (root w) = true →
  run_migration order project_dir non_interactive w = Ok w' →
  FS.lookup backup_dir (root w') = FS.lookup rules_dir (root w).
Proof.
  intros rules_dir backup_dir Hneeds Hrun.
  destruct (run_migration_cases _ _ _ _ Hrun)
    as [[? _]|(_ & w1 & w2 & Hcopy & Hflat & Hcfg)]; [congruence|].
  fold rules_dir backup_dir in Hcopy, Hflat, Hcfg.
  pose proof (apart_rules_backup project_dir (pretty (now w))) as Hapart.
  fold rules_dir backup_dir in Hapart.
  assert (FS.lookup backup_dir (root w2) = FS.lookup rules_dir (root w)) as H2.
  { rewrite (flatten_sources_frame _ _ _ _ _ Hflat Hapart). by eapply copytree_copy. }
  destruct Hcfg as [[_ ->]|Hunlink]; [done|].
  rewrite <- H2. eapply unlink_frame; [done|]. by apply apart_child.
Qed.

(** X15.  After a migration that completes, no migration is needed:
    [needs_migration] is false, and a second [run_migration] returns at
    once and changes nothing. *)
Theorem migration_idempotent (project_dir : FS.path) (non_interactive again : bool)
    (w w' : sys) :
  run_migration order project_dir non_interactive w = Ok w' →
  needs_migration project_dir (root w') = false
  ∧ run_migration order project_dir again w' = Ok w'.
Proof.
  intros Hrun.
  assert (needs_migration project_dir (root w') = false) as Hdone.
  2:{ split; [done|]. unfold run_migration. by rewrite Hdone. }
  destruct (run_migration_cases _ _ _ _ Hrun)
    as [[? ->]|(_ & w1 & w2 & Hcopy & Hflat & Hcfg)]; [done|].
  set (rules_dir := rules_dir_of project_dir) in *.
  assert (∀ source sub, source ∈ SOURCES → sub ∈ OLD_SUBDIRS →
            FS.lookup (rules_dir </> source </> sub) (root w') = None) as Hgone.
  { intros source sub Hsource Hsub.
    pose proof (flatten_sources_gone order rules_dir source sub Hsub _ _ _ Hsource Hflat)
      as H2.
    destruct Hcfg as [[_ ->]|Hunlink]; [done|].
    rewrite <- H2. eapply unlink_frame; [done|].
    apply apart_sym, apart_child, apart_siblings. by apply source_not_config. }
  destruct (needs_migration project_dir (root w')) eqn:Hneeds; [|done].
  unfold needs_migration in Hneeds. fold rules_dir in Hneeds.
  destruct (negb (FS.exists_ rules_dir (root w'))); [done|].
  apply existsb_exists in Hneeds as (source & Hsource & Hneeds).
  destruct (negb (FS.exists_ (rules_dir </> source) (root w'))); [done|].
  apply existsb_exists in Hneeds as (sub & Hsub & Hneeds).
  apply list_elem_of_In in Hsource, Hsub.
  unfold FS.exists_ in Hneeds. by rewrite Hgone in Hneeds.
Qed.

End migration_more.

Section migration_more_examples.

Import Migration.

(** The [README.md] beside [.claude] is not touched. *)
Lemma migration_frame_witness :
  ∃ w',
    run_migration id ["project"] true conflict_sys = Ok w'
    ∧ FS.lookup ["project"; "README.md"] (root w')
      = FS.lookup ["project"; "README.md"] (root conflict_sys).
Proof.
  destruct (run_migration id ["project"] true conflict_sys) as [w'|e] eqn:Hrun;
    [|by vm_compute in Hrun].
  exists w'. split; [reflexivity|].
  apply (migration_frame id ["project"] true conflict_sys w' _ Hrun).
  - unfold rules_dir_of. apply apart_child, (apart_siblings ["project"]). discriminate.
  - apply apart_child, (apart_siblings ["project"]). discriminate.
Defined.

(** The backup of the conflict layout holds the file of the legacy
    directory. *)
Lemma migration_backup_witness :
  ∃ w',
    run_migration id ["project"] true conflict_sys = Ok w'
    ∧ FS.lookup ["project"; ".claude"; "rules.backup.1700000000";
                 "standard"; "core"; "conflict.md"] (root w')
      = Some (FS.File "From core").
Proof.
  destruct (run_migration id ["project"] true conflict_sys) as [w'|e] eqn:Hrun;
    [|by vm_compute in Hrun].
  exists w'. split; [reflexivity|].
  pose proof (migration_backup id ["project"] true conflict_sys w' eq_refl Hrun) as Hcopy.
  change ["project"; ".claude"; "rules.backup.1700000000"; "standard"; "core"; "conflict.md"]
    with ((["project"] </> ".claude" </> ("rules.backup." +:+ pretty (now conflict_sys)))
          ++ ["standard"; "core"; "conflict.md"]).
  rewrite lookup_app, Hcopy. reflexivity.
Defined.

Lemma migration_idempotent_witness :
  ∃ w',
    run_migration id ["project"] true conflict_sys = Ok w'
    ∧ needs_migration ["project"] (root w') = false
    ∧ run_migration id ["project"] false w' = Ok w'.
Proof.
  destruct (run_migration id ["project"] true conflict_sys) as [w'|e] eqn:Hrun;
    [|by vm_compute in Hrun].
  exists w'. split; [reflexivity|].
  exact (migration_idempotent id ["project"] true false conflict_sys w' Hrun).
Defined.

End migration_more_examples.
(** ** Migration: which file a flattened name gets *)

Section migration_priority.

Import Migration.

(** The order in which a directory is read: every name of the
    directory, and no other, is met. *)
Variable order : list string → list string.
Hypothesis order_names : ∀ (l : list string) (x : string), x ∈ order l ↔ x ∈ l.

Lemma names_child (p : FS.path) (c : string) (r : FS.node) :
  c ∈ FS.names p r ↔ is_Some (FS.lookup (p </> c) r).
Proof.
  unfold FS.names. rewrite lookup_child.
  destruct (FS.lookup p r) as [[|es]|]; simpl.
  - split; [by intros ?%elem_of_nil|by intros [? ?]].
  - split.
    + intros ((c' & x) & -> & Hin%elem_of_map_to_list)%list_elem_of_fmap_1.
      simpl. rewrite Hin. simpl. eauto.
    + intros [x Hx]. destruct (es !! c) as [y|] eqn:Hy; [|done].
      apply list_elem_of_fmap. exists (c, y). split; [done|].
      by apply elem_of_map_to_list.
  - split; [by intros ?%elem_of_nil|by intros [? ?]].
Qed.

Lemma glob_md_child (dir : FS.path) (name : string) (r : FS.node) :
  PyStr.endswith ".md" name = true →
  name ∈ glob_md order dir r ↔ is_Some (FS.lookup (dir </> name) r).
Proof.
  intros Hmd. unfold glob_md. rewrite list_elem_of_filter, order_names, names_child.
  naive_solver.
Qed.

Section one_name.

Variables (rules_dir : FS.path) (source name : string).
Hypothesis name_md : PyStr.endswith ".md" name = true.

Let source_dir : FS.path := rules_dir </> source.
Let parent_file : FS.path := rules_dir </> source </> name.
Let legacy_file (sub : string) : FS.path := rules_dir </> source </> sub </> name.

Lemma old_subdir_not_name (sub : string) : sub ∈ OLD_SUBDIRS → sub ≠ name.
Proof. intros Hsub ->. exact (md_not_old_subdir name name name_md Hsub eq_refl). Qed.

Lemma apart_dest_legacy (md sub : string) :
  PyStr.endswith ".md" md = true → sub ∈ OLD_SUBDIRS →
  FS.apart (source_dir </> md) (legacy_file sub).
Proof.
  intros Hmd Hsub. apply apart_sym, apart_child, apart_siblings.
  intros ->. by eapply md_not_old_subdir.
Qed.

(** One move of another name changes neither the parent-level file nor
    the legacy file. *)
Lemma move_md_other (sub md : string) (w w' : sys) :
  sub ∈ OLD_SUBDIRS → PyStr.endswith ".md" md = true → md ≠ name →
  move_md source sub source_dir (source_dir </> sub) md w = Ok w' →
  FS.lookup parent_file (root w') = FS.lookup parent_file (root w)
  ∧ FS.lookup (legacy_file sub) (root w') = FS.lookup (legacy_file sub) (root w).
Proof.
  intros Hsub Hmd Hne Hrun. split.
  - eapply move_md_keeps; [done| |].
    + by apply apart_child, apart_siblings, old_subdir_not_name.
    + right. by apply apart_siblings.
  - eapply move_md_keeps; [done| |].
    + by apply apart_siblings.
    + right. by apply apart_dest_legacy.
Qed.

(** The loop over the markdown files of one legacy directory, when
    there is no file at the parent level: the legacy file is moved
    there. *)
Lemma move_all_takes (sub : string) (names : list string) (w w' : sys) (x : FS.node) :
  sub ∈ OLD_SUBDIRS →
  Forall (λ md, PyStr.endswith ".md" md = true) names →
  name ∈ names →
  FS.lookup parent_file (root w) = None →
  FS.lookup (legacy_file sub) (root w) = Some x →
  foldM (move_md source sub source_dir (source_dir </> sub)) names w = Ok w' →
  FS.lookup parent_file (root w') = Some x.
Proof.
  intros Hsub. revert w.
  induction names as [|md names IH]; intros w Hall Hin Hparent Hlegacy Hrun.
  { by apply elem_of_nil in Hin. }
  apply Forall_cons in Hall as [Hmd Hall]. simpl in Hrun.
  destruct (move_md source sub source_dir (source_dir </> sub) md w) as [w1|] eqn:H1;
    [|done].
  simpl in Hrun.
  destruct (decide (md = name)) as [->|Hne].
  - (* the file is moved now, and stays *)
    assert (FS.lookup parent_file (root w1) = Some x) as Hmoved.
    { unfold move_md in H1. change (source_dir </> name) with parent_file in H1.
      unfold FS.exists_ in H1.
      rewrite Hparent in H1.
      destruct (FS.move _ parent_file (root w)) as [r|] eqn:Hmv; [|done].
      injection H1 as <-. simpl. unfold FS.move in Hmv.
      change (source_dir </> sub </> name) with (legacy_file sub) in Hmv.
      rewrite Hlegacy in Hmv.
      destruct (FS.is_dir (FS.parent parent_file) (root w)); [|done].
      by eapply lookup_put_self. }
    rewrite <- Hmoved.
    apply (move_all_keeps source sub source_dir (source_dir </> sub) names w1 w'
             parent_file Hrun).
    + apply (apart_siblings source_dir sub name). by apply old_subdir_not_name.
    + intros md Hmd'. destruct (decide (md = name)) as [->|Hne].
      * left. split; [done|]. unfold FS.exists_. fold parent_file. by rewrite Hmoved.
      * right. by apply apart_siblings.
  - destruct (move_md_other sub md w w1 Hsub Hmd Hne H1) as [Hp Hl].
    apply (IH w1); [done| |congruence|congruence|done].
    apply elem_of_cons in Hin as [?|?]; [congruence|done].
Qed.

(** What flattening one legacy directory does to the parent-level
    name: a file that is there stays; otherwise the legacy file, if
    there is one, takes the place. *)
Lemma flatten_subdir_priority (sub : string) (w w' : sys) :
  sub ∈ OLD_SUBDIRS →
  flatten_subdir order source source_dir sub w = Ok w' →
  FS.lookup parent_file (root w')
  = match FS.lookup parent_file (root w) with
    | Some x => Some x
    | None => FS.lookup (legacy_file sub) (root w)
    end.
Proof.
  intros Hsub Hrun.
  destruct (FS.lookup parent_file (root w)) as [x|] eqn:Hparent.
  { rewrite <- Hparent.
    eapply (flatten_subdir_parent_wins order rules_dir source name name_md source sub);
      [done|done|]. unfold FS.exists_. fold parent_file. by rewrite Hparent. }
  assert (FS.apart (source_dir </> sub) parent_file) as Hapart.
  { apply (apart_siblings source_dir sub name). by apply old_subdir_not_name. }
  unfold flatten_subdir in Hrun.
  destruct (FS.exists_ (source_dir </> sub) (root w)) eqn:Hex; cbn [negb] in Hrun.
  2:{ injection Hrun as <-. rewrite Hparent. unfold legacy_file.
      rewrite lookup_child. unfold FS.exists_, source_dir in Hex.
      by destruct (FS.lookup (rules_dir </> source </> sub) (root w)). }
  unfold mbind, result_bind in Hrun.
  destruct (foldM _ _ w) as [w1|] eqn:Hmoves; [|done].
  assert (FS.lookup parent_file (root w1) = FS.lookup (legacy_file sub) (root w)) as Hmoved.
  { destruct (FS.lookup (legacy_file sub) (root w)) as [x|] eqn:Hlegacy.
    - eapply move_all_takes; [done| | |done|done|exact Hmoves].
      + apply Forall_forall. intros md Hmd. unfold glob_md in Hmd.
        by apply list_elem_of_filter in Hmd as [? _].
      + apply glob_md_child; [done|].
        change (is_Some (FS.lookup (legacy_file sub) (root w))). by rewrite Hlegacy.
    - rewrite <- Hparent.
      apply (move_all_keeps source sub source_dir (source_dir </> sub) _ w w1
               parent_file Hmoves); [done|].
      intros md Hmd. right. apply apart_siblings. intros ->.
      apply glob_md_child in Hmd; [|done].
      change (is_Some (FS.lookup (legacy_file sub) (root w))) in Hmd.
      rewrite Hlegacy in Hmd. by destruct Hmd. }
  destruct (FS.exists_ (source_dir </> sub) (root w1)).
  - destruct (FS.rmtree (source_dir </> sub) (root w1)) as [r|] eqn:Hrm; [|done].
    injection Hrun as <-. simpl. rewrite <- Hmoved. by eapply rmtree_frame.
  - by injection Hrun as <-.
Qed.

(** Flattening another legacy directory of the same source leaves the
    legacy file alone. *)
Lemma flatten_subdir_other (sub sub' : string) (w w' : sys) :
  sub ∈ OLD_SUBDIRS → sub' ≠ sub →
  flatten_subdir order source source_dir sub' w = Ok w' →
  FS.lookup (legacy_file sub) (root w') = FS.lookup (legacy_file sub) (root w).
Proof.
  intros Hsub Hne Hrun. eapply flatten_subdir_keeps; [done| |].
  - apply apart_sym, (apart_child (source_dir </> sub) (source_dir </> sub') name).
    by apply apart_siblings.
  - intros md Hmd. right. by apply apart_dest_legacy.
Qed.

Lemma flatten_subdirs_priority (subs : list string) (w w' : sys) :
  Forall (λ sub, sub ∈ OLD_SUBDIRS) subs → NoDup subs →
  foldM (flatten_subdir order source source_dir) subs w = Ok w' →
  FS.lookup parent_file (root w')
  = match FS.lookup parent_file (root w) with
    | Some x => Some x
    | None => head (omap (λ sub, FS.lookup (legacy_file sub) (root w)) subs)
    end.
Proof.
  revert w. induction subs as [|sub subs IH]; intros w Hall Hnodup Hrun.
  { injection Hrun as <-. by destruct (FS.lookup parent_file (root w)). }
  apply Forall_cons in Hall as [Hsub Hall]. apply NoDup_cons in Hnodup as [Hnotin Hnodup].
  simpl in Hrun.
  destruct (flatten_subdir order source source_dir sub w) as [w1|] eqn:H1; [|done].
  simpl in Hrun. rewrite (IH w1 Hall Hnodup Hrun).
  rewrite (flatten_subdir_priority sub w w1 Hsub H1).
  assert (omap (λ sub, FS.lookup (legacy_file sub) (root w1)) subs
          = omap (λ sub, FS.lookup (legacy_file sub) (root w)) subs) as ->.
  { apply list_omap_ext, Forall_Forall2_diag, Forall_forall. intros sub' Hsub'.
    apply (flatten_subdir_other sub' sub w w1); [|by intros ->|done].
    by eapply Forall_forall in Hall. }
  simpl. destruct (FS.lookup parent_file (root w)) as [x|]; [done|].
  by destruct (FS.lookup (legacy_file sub) (root w)).
Qed.

(** What decides the parent-level name: the file that is there, or
    else the first legacy file. *)
Let winner (subs : list string) (r : FS.node) : option FS.node :=
  match FS.lookup parent_file r with
  | Some x => Some x
  | None => head (omap (λ sub, FS.lookup (legacy_file sub) r) subs)
  end.

Lemma winner_ext (subs : list string) (r r' : FS.node) :
  FS.lookup parent_file r' = FS.lookup parent_file r →
  (∀ sub, sub ∈ subs → FS.lookup (legacy_file sub) r' = FS.lookup (legacy_file sub) r) →
  winner subs r' = winner subs r.
Proof.
  intros Hp Hl. unfold winner. rewrite Hp.
  assert (omap (λ sub, FS.lookup (legacy_file sub) r') subs
          = omap (λ sub, FS.lookup (legacy_file sub) r) subs) as ->; [|done].
  apply list_omap_ext, Forall_Forall2_diag, Forall_forall. intros sub Hsub. by apply Hl.
Qed.

Lemma winner_no_legacy (subs : list string) (r : FS.node) :
  (∀ sub, sub ∈ subs → FS.lookup (source_dir </> sub) r = None) →
  winner subs r = FS.lookup parent_file r.
Proof.
  intros Hnone. unfold winner.
  destruct (FS.lookup parent_file r) as [x|]; [done|].
  assert (omap (λ sub, FS.lookup (legacy_file sub) r) subs = []) as ->; [|done].
  induction subs as [|sub subs IH]; [done|].
  simpl. unfold legacy_file at 1. rewrite lookup_child.
  change (rules_dir </> source </> sub) with (source_dir </> sub).
  rewrite Hnone by (by left). simpl. apply IH. intros sub' Hsub'. apply Hnone. by right.
Qed.

Lemma old_subdirs_NoDup : NoDup OLD_SUBDIRS.
Proof. apply (bool_decide_unpack _). by vm_compute. Qed.

Lemma flatten_source_priority (w w' : sys) :
  flatten_source order rules_dir source w = Ok w' →
  FS.lookup parent_file (root w') = winner OLD_SUBDIRS (root w).
Proof.
  unfold flatten_source. intros Hrun.
  destruct (FS.exists_ (rules_dir </> source) (root w)) eqn:Hex; cbn [negb] in Hrun.
  - apply flatten_subdirs_priority; [by apply Forall_forall|apply old_subdirs_NoDup|done].
  - injection Hrun as <-. symmetry. apply winner_no_legacy. intros sub _.
    rewrite lookup_child. unfold FS.exists_ in Hex. unfold source_dir.
    by destruct (FS.lookup (rules_dir </> source) (root w)).
Qed.

(** Flattening another source directory leaves this one alone. *)
Lemma flatten_source_other (source' : string) (w w' : sys) (q : FS.path) :
  source' ≠ source →
  flatten_source order rules_dir source' w = Ok w' →
  FS.lookup (source_dir ++ q) (root w') = FS.lookup (source_dir ++ q) (root w).
Proof.
  unfold flatten_source. intros Hne Hrun.
  destruct (FS.exists_ (rules_dir </> source') (root w)); cbn [negb] in Hrun;
    [|by injection Hrun as <-].
  assert (FS.apart (rules_dir </> source') (source_dir ++ q)) as Hapart.
  { apply apart_sym, apart_app_l, apart_siblings. congruence. }
  revert w Hrun. generalize OLD_SUBDIRS. intros subs.
  induction subs as [|s subs IH]; intros w Hrun.
  { by injection Hrun as <-. }
  simpl in Hrun.
  destruct (flatten_subdir order source' (rules_dir </> source') s w) as [w1|] eqn:H1;
    [|done].
  rewrite (IH w1) by done. by eapply flatten_subdir_frame.
Qed.

Lemma flatten_source_other_winner (source' : string) (w w' : sys) :
  source' ≠ source →
  flatten_source order rules_dir source' w = Ok w' →
  FS.lookup parent_file (root w') = FS.lookup parent_file (root w)
  ∧ winner OLD_SUBDIRS (root w') = winner OLD_SUBDIRS (root w).
Proof.
  intros Hne Hrun.
  assert (FS.lookup parent_file (root w') = FS.lookup parent_file (root w)) as Hp.
  { apply (flatten_source_other source' w w' [name] Hne Hrun). }
  split; [done|]. apply winner_ext; [done|]. intros sub _.
  unfold legacy_file.
  change (rules_dir </> source </> sub </> name) with ((source_dir ++ [sub]) ++ [name]).
  rewrite <- (app_assoc source_dir [sub] [name]).
  apply (flatten_source_other source' w w' ([sub] ++ [name]) Hne Hrun).
Qed.

Lemma flatten_sources_priority (sources : list string) (w w' : sys) :
  NoDup sources → source ∈ sources →
  foldM (flatten_source order rules_dir) sources w = Ok w' →
  FS.lookup parent_file (root w') = winner OLD_SUBDIRS (root w).
Proof.
  revert w. induction sources as [|s sources IH]; intros w Hnodup Hin Hrun.
  { by apply elem_of_nil in Hin. }
  apply NoDup_cons in Hnodup as [Hnotin Hnodup]. simpl in Hrun.
  destruct (flatten_source order rules_dir s w) as [w1|] eqn:H1; [|done].
  simpl in Hrun. destruct (decide (s = source)) as [->|Hne].
  - rewrite <- (flatten_source_priority w w1 H1).
    clear IH Hin H1 Hnodup. revert w1 Hrun.
    induction sources as [|s sources IH]; intros w1 Hrun.
    { by injection Hrun as <-. }
    simpl in Hrun.
    destruct (flatten_source order rules_dir s w1) as [w2|] eqn:H2; [|done].
    simpl in Hrun. rewrite (IH ltac:(set_solver) w2 Hrun).
    apply (flatten_source_other_winner s w1 w2); [set_solver|done].
  - destruct (flatten_source_other_winner s w w1 Hne H1) as [_ <-].
    apply IH; [done| |done]. set_solver.
Qed.

End one_name.

Lemma head_omap_candidates (f : FS.path → option FS.node) (g : string → FS.path)
    (p : FS.path) (subs : list string) :
  head (omap f (p :: (g <$> subs)))
  = match f p with
    | Some x => Some x
    | None => head (omap (λ sub, f (g sub)) subs)
    end.
Proof.
  csimpl. destruct (f p); [done|]. f_equal.
  induction subs as [|s subs IH]; [done|]. csimpl. by rewrite IH.
Qed.

Lemma sources_NoDup : NoDup SOURCES.
Proof. apply (bool_decide_unpack _). by vm_compute. Qed.

(** X16.  What a flattened name holds after a migration that
    completes, for a directory reading that meets every name: the
    parent-level entry of before if there was one; otherwise the entry
    of that name in the first of the legacy directories [core],
    [workflow], [extended] that had one; and nothing if none had. *)
Theorem migration_priority (project_dir : FS.path) (non_interactive : bool) (w w' : sys)
    (source name : string) :
  let rules_dir := rules_dir_of project_dir in
  source ∈ SOURCES →
  PyStr.endswith ".md" name = true →
  run_migration order project_dir non_interactive w = Ok w' →
  FS.lookup (rules_dir </> source </> name) (root w')
  = head (omap (λ p, FS.lookup p (root w))
            ((rules_dir </> source </> name)
             :: ((λ sub, rules_dir </> source </> sub </> name) <$> OLD_SUBDIRS))).
Proof.
  intros rules_dir Hsource Hmd Hrun.
  rewrite head_omap_candidates.
  destruct (run_migration_cases order _ _ _ _ Hrun)
    as [[Hneeds ->]|(_ & w1 & w2 & Hcopy & Hflat & Hcfg)].
  - (* no legacy directory *)
    symmetry. apply (winner_no_legacy rules_dir source name). intros sub Hsub.
    fold rules_dir.
    destruct (FS.lookup (rules_dir </> source </> sub) (root w)) eqn:Hlegacy; [|done].
    rewrite (needs_migration_legacy project_dir source sub (root w)) in Hneeds; try done.
    unfold FS.exists_. fold rules_dir. by rewrite Hlegacy.
  - fold rules_dir in Hcopy, Hflat, Hcfg.
    pose proof (apart_rules_backup project_dir (pretty (now w))) as Hapart.
    fold rules_dir in Hapart.
    assert (∀ q, FS.lookup (rules_dir ++ q) (root w1) = FS.lookup (rules_dir ++ q) (root w))
      as Hsame.
    { intros q. eapply copytree_frame; [done|]. by apply apart_sym, apart_app_l. }
    pose proof (flatten_sources_priority rules_dir source name Hmd SOURCES w1 w2
                  sources_NoDup Hsource Hflat) as H2.
    assert (FS.lookup (rules_dir </> source </> name) (root w')
            = FS.lookup (rules_dir </> source </> name) (root w2)) as ->.
    { destruct Hcfg as [[_ ->]|Hunlink]; [done|].
      eapply unlink_frame; [done|].
      apply apart_sym, apart_child, apart_siblings. by apply source_not_config. }
    rewrite H2. unfold FS.child. rewrite <- !app_assoc, Hsame.
    destruct (FS.lookup (rules_dir ++ [source] ++ [name]) (root w)); [done|].
    f_equal. apply list_omap_ext, Forall_Forall2_diag, Forall_forall. intros sub _.
    rewrite <- !app_assoc. apply Hsame.
Qed.

End migration_priority.

Section migration_priority_example.

Import Migration.

(** Two legacy directories hold [a.md]: the one of [core] is kept; the
    [b.md] of [workflow] moves up. *)
Lemma migration_priority_witness :
  ∃ w',
    run_migration id ["project"] true layered_sys = Ok w'
    ∧ FS.lookup ["project"; ".claude"; "rules"; "standard"; "a.md"] (root w')
      = Some (FS.File "core a")
    ∧ FS.lookup ["project"; ".claude"; "rules"; "standard"; "b.md"] (root w')
      = Some (FS.File "workflow b").
Proof.
  destruct (run_migration id ["project"] true layered_sys) as [w'|e] eqn:Hrun;
    [|by vm_compute in Hrun].
  exists w'. split; [reflexivity|].
  assert (∀ (l : list string) (x : string), x ∈ id l ↔ x ∈ l) as Hid by done.
  assert ("standard" ∈ SOURCES) as Hsource by (unfold SOURCES; apply elem_of_cons; by left).
  split.
  - exact (migration_priority id Hid ["project"] true layered_sys w' "standard" "a.md"
             Hsource eq_refl Hrun).
  - exact (migration_priority id Hid ["project"] true layered_sys w' "standard" "b.md"
             Hsource eq_refl Hrun).
Defined.

End migration_priority_example.
(** ** Regular expressions: what matches *)

Section regex.

Import Re.

Lemma fullmatch_Never (s : string) : fullmatch Never s = false.
Proof. induction s; done. Qed.

Lemma fullmatch_Alt (r1 r2 : re) (s : string) :
  fullmatch (Alt r1 r2) s = fullmatch r1 s || fullmatch r2 s.
Proof. revert r1 r2. induction s as [|a s IH]; intros r1 r2; [done|]. simpl. apply IH. Qed.

Lemma fullmatch_Cat_nullable (r1 r2 : re) (s : string) :
  nullable r1 = true → fullmatch r2 s = true → fullmatch (Cat r1 r2) s = true.
Proof.
  intros H1 H2. destruct s as [|a s]; simpl in *.
  - by rewrite H1, H2.
  - rewrite H1, fullmatch_Alt, H2. apply orb_true_r.
Qed.

Lemma fullmatch_Cat (r1 r2 : re) (s1 s2 : string) :
  fullmatch r1 s1 = true → fullmatch r2 s2 = true →
  fullmatch (Cat r1 r2) (s1 +:+ s2) = true.
Proof.
  revert r1. induction s1 as [|a s1 IH]; intros r1 H1 H2.
  { by apply fullmatch_Cat_nullable. }
  simpl in *. destruct (nullable r1).
  - rewrite fullmatch_Alt, IH by done. done.
  - by apply IH.
Qed.

Lemma fullmatch_Star_app (r : re) (s1 s2 : string) :
  fullmatch r s1 = true → fullmatch (Star r) s2 = true →
  fullmatch (Star r) (s1 +:+ s2) = true.
Proof.
  intros H1 H2. destruct s1 as [|a s1]; [done|].
  simpl in *. by apply fullmatch_Cat.
Qed.

Lemma fullmatch_Chr (cls : ascii → bool) (a : ascii) :
  fullmatch (Chr cls) (String a "") = cls a.
Proof. simpl. by destruct (cls a). Qed.

Lemma fullmatch_any_star (s : string) : fullmatch (Star any) s = true.
Proof.
  induction s as [|a s IH]; [done|].
  apply (fullmatch_Star_app any (String a "") s); done.
Qed.

Lemma fullmatch_space_star (s : string) :
  all_space s = true → fullmatch (Star space) s = true.
Proof.
  induction s as [|a s IH]; intros Hs; [done|].
  simpl in Hs. apply andb_true_iff in Hs as [Ha Hs].
  apply (fullmatch_Star_app space (String a "") s); [|by apply IH].
  unfold space. by rewrite fullmatch_Chr.
Qed.

(** A word of a pattern compiled with [re.IGNORECASE] matches the word
    in every letter case. *)
Lemma fullmatch_text_i (word variant : string) :
  PyStr.lower variant = PyStr.lower word →
  fullmatch (text lit_i word) variant = true.
Proof.
  revert variant. induction word as [|c word IH]; intros variant Hlower.
  { by destruct variant. }
  destruct variant as [|a variant]; [done|].
  injection Hlower as Ha Hlower.
  apply (fullmatch_Cat (lit_i c) (text lit_i word) (String a "") variant).
  - unfold lit_i. rewrite fullmatch_Chr, Ha. apply Ascii.eqb_refl.
  - by apply IH.
Qed.

Lemma fullmatch_alts (l : list re) (r : re) (s : string) :
  r ∈ l → fullmatch r s = true → fullmatch (alts l) s = true.
Proof.
  intros Hin Hr. induction l as [|r' l IH]; [by apply elem_of_nil in Hin|].
  simpl. rewrite fullmatch_Alt. apply elem_of_cons in Hin as [<-|Hin].
  - by rewrite Hr.
  - rewrite IH by done. apply orb_true_r.
Qed.

(** [re.search] finds a match wherever it stands. *)
Lemma search_intro (r : re) (pre s post : string) :
  fullmatch r s = true → search r (pre +:+ (s +:+ post)) = true.
Proof.
  intros Hr. unfold search. apply fullmatch_Cat; [apply fullmatch_any_star|].
  apply fullmatch_Cat; [done|apply fullmatch_any_star].
Qed.

End regex.

(** ** The Python file checker: comments that stay *)

Section py_checker_more.

Import PyChecker.

Lemma preserve_patterns_words :
  preserve_patterns = Re.text Re.lit_i "#!" :: (directive <$> directive_words).
Proof. done. Qed.

Lemma directive_comment_preserved (s : string) :
  directive_comment s → Re.search preserve_re s = true.
Proof.
  intros [(pre & post & ->)|(word & pre & ws & variant & post & Hword & Hws & Hlower & ->)];
    apply search_intro; unfold preserve_re.
  - apply (fullmatch_alts _ (Re.text Re.lit_i "#!")); [|done].
    rewrite preserve_patterns_words. by left.
  - apply (fullmatch_alts _ (directive word)).
    { rewrite preserve_patterns_words. right. by apply list_elem_of_fmap_2. }
    unfold directive.
    apply (fullmatch_Cat _ _ "#" (ws +:+ variant)); [done|].
    apply fullmatch_Cat; [by apply fullmatch_space_star|by apply fullmatch_text_i].
Qed.

Lemma comments_to_remove_directives (tokens : list token) :
  Forall (λ tok, tok_type tok = COMMENT → directive_comment (tok_string tok)) tokens →
  comments_to_remove tokens = [].
Proof.
  unfold comments_to_remove. induction 1 as [|tok tokens Htok _ IH]; [done|].
  csimpl. rewrite IH. destruct (tok_type tok) eqn:Htype; [|done].
  by rewrite (directive_comment_preserved _ (Htok eq_refl)).
Qed.

(** X17.  [strip_python_comments] keeps directive comments.  When every
    comment of a file holds [#!], or a [#] followed by optional white
    space and one of the words [type:], [noqa], [pragma:], [pylint:],
    [pyright:], [ruff:], [fmt:], [TODO], [FIXME], [XXX], [NOTE] in any
    letter case, wherever in the comment and whatever follows, the pass
    returns [False] and writes nothing. *)
Theorem strip_python_comments_keeps_directives (f : source_file) (content : string)
    (tokens : list token) :
  read_text f = Ok content →
  tokenize f content = Ok tokens →
  Forall (λ tok, tok_type tok = COMMENT → directive_comment (tok_string tok)) tokens →
  strip_python_comments f = Ok (false, None).
Proof.
  intros Hread Htok Hall.
  unfold strip_python_comments. rewrite Hread, Htok. unfold stripped.
  by rewrite (comments_to_remove_directives tokens Hall).
Qed.

(** A shebang line and a [NoQA] in mixed case after two blanks. *)
Lemma strip_python_comments_keeps_directives_witness :
  strip_python_comments directives_file = Ok (false, None).
Proof.
  apply (strip_python_comments_keeps_directives directives_file _ _ eq_refl eq_refl).
  repeat first
    [ apply Forall_nil_2
    | apply Forall_cons; split; [intros Htype; try discriminate Htype|] ].
  - left. by exists "", "/usr/bin/env python3".
  - right. exists "noqa", "", "  ", "NoQA", ": F401".
    split_and!; [|reflexivity..]. unfold directive_words. set_solver.
Defined.

End py_checker_more.
